(** * RepoRadar scanning-and-scoring engine

    A shallow embedding of the scoring core of
    [advanced_github_analyzer.py] (class [AdvancedGitHubAnalyzer]) and of
    [github_scraper.py]: grade banding, the four score formulas, the mock
    dependency-vulnerability lookup, pattern scanning with line numbers,
    architecture-pattern detection and the complexity estimate; and, of
    the code around it, the skills of a profile, the paging of the
    repository list, framework detection, the reading of
    [requirements.txt] and the file structure.

    Python [int] is [Z]; Python [float] is IEEE-754 binary64, taken from the
    reference implementation [SpecFloat] of the standard library
    (precision 53, [emax] 1024); Python [str] is [string], read as the
    sequence of its code points, all below 256. *)

From Stdlib Require Import ZArith Lia Bool List String Ascii.
From Stdlib Require Import Floats.SpecFloat.
Import ListNotations.

Set Warnings "-register-all".

Local Open Scope string_scope.
Local Open Scope Z_scope.

(* ================================================================== *)
(** ** Python numbers *)

Module Py.

Definition prec : Z := 53.
Definition emax : Z := 1024.

Definition float : Type := spec_float.

(** The exceptions the arithmetic of the scoring code can raise. *)
Variant exn : Type := ZeroDivisionError | OverflowError | ValueError.

Variant result (A : Type) : Type :=
| Ok (a : A)
| Raise (e : exn).
Arguments Ok {A} a.
Arguments Raise {A} e.

Definition bind {A B : Type} (r : result A) (k : A -> result B) : result B :=
  match r with
  | Ok a => k a
  | Raise e => Raise e
  end.

(** A number is an [int] or a [float]; the scoring code mixes both. *)
Variant num : Type :=
| Int (z : Z)
| Float (f : float).

(** An integer as an unrounded binary number [m * 2^0]. *)
Definition raw_of_int (z : Z) : float :=
  match z with
  | Z0 => S754_zero false
  | Zpos p => S754_finite false p 0
  | Zneg p => S754_finite true p 0
  end.

(** [float(z)]: round to nearest, ties to even; an integer that rounds
    beyond the largest double raises [OverflowError]. *)
Definition float_of_int (z : Z) : result float :=
  match binary_normalize prec emax z 0 false with
  | S754_infinity _ => Raise OverflowError
  | f => Ok f
  end.

(** [a / b] on two ints: the correctly rounded quotient. *)
Definition int_truediv (a b : Z) : result float :=
  if b =? 0 then Raise ZeroDivisionError
  else match SFdiv prec emax (raw_of_int a) (raw_of_int b) with
       | S754_infinity _ => Raise OverflowError
       | q => Ok q
       end.

Definition to_float (x : num) : result float :=
  match x with
  | Int z => float_of_int z
  | Float f => Ok f
  end.

(** [x * y] and [x - y]: int arithmetic when both are ints, otherwise the
    int operand is converted and the float operation applies. *)
Definition mul (x y : num) : result num :=
  match x, y with
  | Int a, Int b => Ok (Int (a * b))
  | _, _ =>
      bind (to_float x) (fun fx =>
      bind (to_float y) (fun fy =>
      Ok (Float (SFmul prec emax fx fy))))
  end.

Definition sub (x y : num) : result num :=
  match x, y with
  | Int a, Int b => Ok (Int (a - b))
  | _, _ =>
      bind (to_float x) (fun fx =>
      bind (to_float y) (fun fy =>
      Ok (Float (SFsub prec emax fx fy))))
  end.

(** Exact comparison of a float with an int ([None]: unordered, NaN). *)
Definition float_cmp_int (f : float) (z : Z) : option comparison :=
  match f with
  | S754_nan => None
  | S754_infinity s => Some (if s then Lt else Gt)
  | S754_zero _ => Some (0 ?= z)
  | S754_finite s m e =>
      let v := cond_Zopp s (Zpos m) in
      Some (if 0 <=? e then v * 2 ^ e ?= z else v ?= z * 2 ^ (- e))
  end.

Definition compare (x y : num) : option comparison :=
  match x, y with
  | Int a, Int b => Some (a ?= b)
  | Float f, Int b => float_cmp_int f b
  | Int a, Float g => option_map CompOpp (float_cmp_int g a)
  | Float f, Float g => SFcompare f g
  end.

(** [x > y], [x <= y] and [x == y]. *)
Definition gt (x y : num) : bool :=
  match compare x y with Some Gt => true | _ => false end.

Definition le (x y : num) : bool :=
  match compare x y with Some (Lt | Eq) => true | _ => false end.

Definition eqb (x y : num) : bool :=
  match compare x y with Some Eq => true | _ => false end.

(** The builtin [max(a, b)]: the later argument replaces the earlier one
    only when it is strictly greater. *)
Definition max (a b : num) : num := if gt b a then b else a.

(** Float literals of the source, as the doubles they denote. *)
Definition f_0_01 : float := S754_finite false 5764607523034235 (-59). (* 0x1.47ae147ae147bp-7 *)
Definition f_0_05 : float := S754_finite false 7205759403792794 (-57). (* 0x1.999999999999ap-5 *)
Definition f_0_1 : float := S754_finite false 7205759403792794 (-56).  (* 0x1.999999999999ap-4 *)
Definition f_0_2 : float := S754_finite false 7205759403792794 (-55).  (* 0x1.999999999999ap-3 *)
Definition f_0_8 : float := S754_finite false 7205759403792794 (-53).  (* 0x1.999999999999ap-1 *)
Definition f_0_7 : float := S754_finite false 6305039478318694 (-53).  (* 0x1.6666666666666p-1 *)

(** [x < y] on floats. *)
Definition flt (x y : float) : bool := SFltb x y.

(** [int(f)]: truncation toward zero. *)
Definition int_of_float (f : float) : result Z :=
  match f with
  | S754_zero _ => Ok 0
  | S754_finite s m e =>
      Ok (cond_Zopp s (if 0 <=? e then Z.pos m * 2 ^ e else Z.pos m / 2 ^ (- e)))
  | S754_infinity _ => Raise OverflowError
  | S754_nan => Raise ValueError
  end.

(** [sys.maxsize], the largest value [len] can return. *)
Definition PY_SSIZE_T_MAX : Z := 2 ^ 63 - 1.

End Py.

Notation "x <- c ;; k" := (Py.bind c (fun x => k))
  (at level 61, c at next level, right associativity).



(* ================================================================== *)
(** ** Strings *)

Module Str.

Definition newline : ascii := ascii_of_nat 10.
Definition dquote : ascii := ascii_of_nat 34.

(** [c.lower()] on one character (code points below 256). *)
Definition lower_char (c : ascii) : ascii :=
  let n := nat_of_ascii c in
  if ((65 <=? n) && (n <=? 90))%nat then ascii_of_nat (n + 32)
  else if ((192 <=? n) && (n <=? 222) && negb (n =? 215))%nat then ascii_of_nat (n + 32)
  else c.

(** [s.lower()]. *)
Fixpoint lower (s : string) : string :=
  match s with
  | EmptyString => EmptyString
  | String c s' => String (lower_char c) (lower s')
  end.

(** [sub in s]. *)
Fixpoint contains (sub s : string) : bool :=
  if prefix sub s then true
  else match s with
       | EmptyString => false
       | String _ s' => contains sub s'
       end.

(** [s.startswith(p)] and [s.endswith(p)]. *)
Definition startswith (s p : string) : bool := prefix p s.

Definition endswith (s p : string) : bool :=
  (String.length p <=? String.length s)%nat &&
  String.eqb (substring (String.length s - String.length p) (String.length p) s) p.

(** [s.endswith((p1, p2, ...))]. *)
Definition endswith_any (s : string) (ps : list string) : bool :=
  existsb (endswith s) ps.

(** [s < t]: comparison by code points, a proper prefix being smaller. *)
Definition lt (s t : string) : bool := String.ltb s t.

(** [s.count(c)] for a one-character [c]. *)
Fixpoint count_char (c : ascii) (s : string) : Z :=
  match s with
  | EmptyString => 0
  | String x s' => (if Ascii.eqb x c then 1 else 0) + count_char c s'
  end.

(** [s[:n]]. *)
Definition slice_to (s : string) (n : nat) : string := substring 0 n s.

End Str.

(* ================================================================== *)
(** ** The cloned tree and [os.walk] *)

(** What a symbolic link points to: nothing (a dangling link), a file or a
    directory. *)
Variant link_target : Type :=
| Dangling
| ToFile (content : option string)
| ToDir.

(** A directory entry; a file whose content is [None] cannot be read or
    decoded ([open]/[read] raises, and the scanners skip it). *)
Inductive entry : Type :=
| File (name : string) (content : option string)
| Dir (name : string) (children : list entry)
| Symlink (name : string) (target : link_target).

Definition entry_name (e : entry) : string :=
  match e with
  | File n _ => n
  | Dir n _ => n
  | Symlink n _ => n
  end.

(** [os.path.exists] and [os.path.isdir] of an entry; both follow links. *)
Definition entry_exists (e : entry) : bool :=
  match e with
  | Symlink _ Dangling => false
  | _ => true
  end.

Definition entry_isdir (e : entry) : bool :=
  match e with
  | Dir _ _ | Symlink _ ToDir => true
  | _ => false
  end.

(** [os.path.join(root, name)]. *)
Definition path_join (root name : string) : string :=
  if Str.endswith root "/" then (root ++ name)%string
  else (root ++ "/" ++ name)%string.

(** [os.path.exists(os.path.join(repo_dir, name))]. *)
Definition path_exists (root : list entry) (name : string) : bool :=
  existsb (fun e => String.eqb (entry_name e) name && entry_exists e) root.

(** The files listed in one directory, with their paths: what is not a
    directory, a dangling link included (which [open] cannot read). *)
Fixpoint listing (top : string) (es : list entry) : list (string * string * option string) :=
  match es with
  | [] => []
  | File n c :: es' => (top, n, c) :: listing top es'
  | Dir _ _ :: es' => listing top es'
  | Symlink n Dangling :: es' => (top, n, None) :: listing top es'
  | Symlink n (ToFile c) :: es' => (top, n, c) :: listing top es'
  | Symlink _ ToDir :: es' => listing top es'
  end.

(** The files below one entry, in the order of a top-down [os.walk] whose
    [dirs] list is pruned of the names starting with a dot; a link to a
    directory is not followed. *)
Fixpoint walk_entry (top : string) (e : entry) : list (string * string * option string) :=
  match e with
  | File _ _ | Symlink _ _ => []
  | Dir n children =>
      if Str.startswith n "." then []
      else
        let sub := path_join top n in
        (listing sub children ++ flat_map (walk_entry sub) children)%list
  end.

(** [for root, dirs, files in os.walk(repo_dir): dirs[:] = [d for d in dirs
    if not d.startswith('.')]; for file in files: ...]: the visited
    [(root, file, content)] triples, in order. *)
Definition os_walk (repo_dir : string) (root : list entry) : list (string * string * option string) :=
  (listing repo_dir root ++ flat_map (walk_entry repo_dir) root)%list.

(* ================================================================== *)
(** ** Regular expressions *)

Module Re.

Variant flag : Type := IGNORECASE | MULTILINE.

(** The fragment of the pattern language that the security patterns use:
    a sequence of one-character atoms, each optionally starred or plussed. *)
Variant atom : Type :=
| ALit (c : ascii)
| AAny
| ASpace
| AWord
| ASet (negated : bool) (members : list ascii).

Variant quant : Type := QOne | QStar | QPlus.

Definition regex : Type := list (atom * quant).

Variant pstate : Type :=
| PNormal
| PSet (negated : bool) (acc : list ascii).

Definition is_alnum (c : ascii) : bool :=
  let n := nat_of_ascii c in
  (((48 <=? n) && (n <=? 57)) || ((65 <=? n) && (n <=? 90)) || ((97 <=? n) && (n <=? 122)))%nat.

Definition is_special (c : ascii) : bool :=
  existsb (Ascii.eqb c) (list_ascii_of_string "?(){}|^$]").

Definition set_quant (q : quant) (out : list (atom * quant)) : option (list (atom * quant)) :=
  match out with
  | (a, QOne) :: out' => Some ((a, q) :: out')
  | _ => None
  end.

(** Compilation of a pattern text; [None] outside the fragment. *)
Fixpoint parse (st : pstate) (out : list (atom * quant)) (s : string) : option regex :=
  match st, s with
  | PNormal, EmptyString => Some (rev out)
  | PNormal, String c rest =>
      if Ascii.eqb c "\" then
        match rest with
        | String e rest' =>
            if Ascii.eqb e "s" then parse PNormal ((ASpace, QOne) :: out) rest'
            else if is_alnum e then None
            else parse PNormal ((ALit e, QOne) :: out) rest'
        | EmptyString => None
        end
      else if Ascii.eqb c "." then parse PNormal ((AAny, QOne) :: out) rest
      else if Ascii.eqb c "[" then
        match rest with
        | String e rest' =>
            if Ascii.eqb e "^" then parse (PSet true []) out rest'
            else parse (PSet false []) out rest
        | EmptyString => None
        end
      else if Ascii.eqb c "*" then
        match set_quant QStar out with
        | Some out' => parse PNormal out' rest
        | None => None
        end
      else if Ascii.eqb c "+" then
        match set_quant QPlus out with
        | Some out' => parse PNormal out' rest
        | None => None
        end
      else if is_special c then None
      else parse PNormal ((ALit c, QOne) :: out) rest
  | PSet _ _, EmptyString => None
  | PSet neg acc, String c rest =>
      if Ascii.eqb c "]" then
        match acc with
        | [] => None
        | _ => parse PNormal ((ASet neg (rev acc), QOne) :: out) rest
        end
      else if Ascii.eqb c "\" then
        match rest with
        | String e rest' =>
            if is_alnum e then None else parse (PSet neg (e :: acc)) out rest'
        | EmptyString => None
        end
      else if Ascii.eqb c "-" then None
      else parse (PSet neg (c :: acc)) out rest
  end.

Definition compile (pattern : string) : option regex := parse PNormal [] pattern.

(** [\s] on code points below 256. *)
Definition is_space (c : ascii) : bool :=
  let n := nat_of_ascii c in
  (((9 <=? n) && (n <=? 13)) || ((28 <=? n) && (n <=? 32)) || (n =? 133) || (n =? 160))%nat.

(** [\w] on code points below 256. *)
Definition is_word (c : ascii) : bool :=
  let n := nat_of_ascii c in
  (((48 <=? n) && (n <=? 57)) || ((65 <=? n) && (n <=? 90)) || (n =? 95)
   || ((97 <=? n) && (n <=? 122)) || (n =? 170) || ((178 <=? n) && (n <=? 179))
   || (n =? 181) || ((185 <=? n) && (n <=? 186)) || ((188 <=? n) && (n <=? 190))
   || ((192 <=? n) && (n <=? 214)) || ((216 <=? n) && (n <=? 246)) || (248 <=? n))%nat.

Definition char_eq (ignorecase : bool) (c x : ascii) : bool :=
  if ignorecase then Ascii.eqb (Str.lower_char c) (Str.lower_char x) else Ascii.eqb c x.

Definition atom_matches (ignorecase : bool) (a : atom) (x : ascii) : bool :=
  match a with
  | ALit c => char_eq ignorecase c x
  | AAny => negb (Ascii.eqb x Str.newline)
  | ASpace => is_space x
  | AWord => is_word x
  | ASet negated members => xorb negated (existsb (fun c => char_eq ignorecase c x) members)
  end.

(** Match at the start of [s]: the length of the match that a greedy
    backtracking matcher finds first. *)
Fixpoint match_here (ic : bool) (r : regex) (s : string) : option nat :=
  match r with
  | [] => Some 0%nat
  | (a, q) :: r' =>
      let star :=
        fix star (s : string) : option nat :=
          match s with
          | EmptyString => match_here ic r' EmptyString
          | String x s' =>
              if atom_matches ic a x then
                match star s' with
                | Some n => Some (S n)
                | None => match_here ic r' s
                end
              else match_here ic r' s
          end in
      match q with
      | QStar => star s
      | QOne =>
          match s with
          | EmptyString => None
          | String x s' =>
              if atom_matches ic a x then option_map S (match_here ic r' s') else None
          end
      | QPlus =>
          match s with
          | EmptyString => None
          | String x s' =>
              if atom_matches ic a x then option_map S (star s') else None
          end
      end
  end.

(** Start offsets of the successive non-overlapping matches, scanning from
    offset [pos]; [skip] characters still belong to the previous match. *)
Fixpoint scan (ic : bool) (r : regex) (s : string) (pos skip : nat) : list nat :=
  match s with
  | EmptyString =>
      match skip, match_here ic r EmptyString with
      | O, Some _ => [pos]
      | _, _ => []
      end
  | String _ s' =>
      match skip with
      | S k => scan ic r s' (S pos) k
      | O =>
          match match_here ic r s with
          | Some n => pos :: scan ic r s' (S pos) (Nat.pred n)
          | None => scan ic r s' (S pos) O
          end
      end
  end.

(** *** Patterns with groups

    The other patterns of the analyzer use groups, alternation, counted
    and lazy repetition, the word class, the word boundary and one
    back-reference. *)

Inductive expr : Type :=
| Eps
| Chr (a : atom)
| Cat (r1 r2 : expr)
| Alt (r1 r2 : expr)
| Rep (greedy : bool) (min : nat) (r : expr)
| Cap (r : expr)
| Ref
| Bnd.

(** Whether an expression can match the empty string. *)
Fixpoint nullable (r : expr) : bool :=
  match r with
  | Eps | Ref | Bnd => true
  | Chr _ => false
  | Cat r1 r2 => nullable r1 && nullable r2
  | Alt r1 r2 => nullable r1 || nullable r2
  | Rep _ min r1 => (min =? 0)%nat || nullable r1
  | Cap r1 => nullable r1
  end.

(** A group being read: whether it captures, its closed alternatives and
    the items of its current alternative, both last first. *)
Record frame : Type := mk_frame {
  f_cap : bool;
  f_alts : list expr;
  f_seq : list expr
}.

(** The reader's state: the enclosing groups, the group being read, the
    number of capturing groups opened, whether one is closed, whether the
    last item can take a quantifier, and whether it is a greedy repetition
    that a question mark makes lazy. *)
Record pst : Type := mk_pst {
  p_stack : list frame;
  p_cur : frame;
  p_ncap : nat;
  p_closed : bool;
  p_quant : bool;
  p_lazy : bool
}.

Variant mode : Type :=
| MNormal
| MSet (negated : bool) (acc : list ascii)
| MBraceNum (n : nat) (any : bool)
| MBraceEnd (n : nat).

Definition cat_all (items : list expr) : expr :=
  fold_left (fun acc x => Cat x acc) items Eps.

Definition close_frame (f : frame) : expr :=
  let body := fold_left (fun acc a => Alt a acc) (f_alts f) (cat_all (f_seq f)) in
  if f_cap f then Cap body else body.

Definition push (x : expr) (quant : bool) (p : pst) : pst :=
  mk_pst (p_stack p)
         (mk_frame (f_cap (p_cur p)) (f_alts (p_cur p)) (x :: f_seq (p_cur p)))
         (p_ncap p) (p_closed p) quant false.

Definition open_group (capturing : bool) (p : pst) : pst :=
  mk_pst (p_cur p :: p_stack p) (mk_frame capturing [] [])
         (if capturing then S (p_ncap p) else p_ncap p) (p_closed p) false false.

Definition close_group (p : pst) : option pst :=
  match p_stack p with
  | [] => None
  | parent :: stack =>
      Some (mk_pst stack
              (mk_frame (f_cap parent) (f_alts parent)
                 (close_frame (p_cur p) :: f_seq parent))
              (p_ncap p) (p_closed p || f_cap (p_cur p)) true false)
  end.

Definition next_alt (p : pst) : pst :=
  mk_pst (p_stack p)
         (mk_frame (f_cap (p_cur p)) (cat_all (f_seq (p_cur p)) :: f_alts (p_cur p)) [])
         (p_ncap p) (p_closed p) false false.

Definition quantify (min : nat) (p : pst) : option pst :=
  if p_quant p then
    match f_seq (p_cur p) with
    | x :: items =>
        if nullable x then None
        else Some (mk_pst (p_stack p)
                     (mk_frame (f_cap (p_cur p)) (f_alts (p_cur p))
                        (Rep true min x :: items))
                     (p_ncap p) (p_closed p) false true)
    | [] => None
    end
  else None.

Definition make_lazy (p : pst) : option pst :=
  if p_lazy p then
    match f_seq (p_cur p) with
    | Rep true min x :: items =>
        Some (mk_pst (p_stack p)
                (mk_frame (f_cap (p_cur p)) (f_alts (p_cur p))
                   (Rep false min x :: items))
                (p_ncap p) (p_closed p) false false)
    | _ => None
    end
  else None.

Definition is_digit (c : ascii) : bool :=
  let n := nat_of_ascii c in ((48 <=? n) && (n <=? 57))%nat.

(** The characters [lo], ..., [hi] of a range [lo-hi] in a set. *)
Definition range_chars (lo hi : ascii) : list ascii :=
  map ascii_of_nat (seq (nat_of_ascii lo) (S (nat_of_ascii hi) - nat_of_ascii lo)).

(** Compilation of a pattern text with groups; [None] for what the
    patterns of the analyzer do not use (anchors, optional items, bounded
    counts, a second capturing group, class escapes inside a set). *)
Fixpoint parse_expr (md : mode) (p : pst) (s : string) {struct s} : option expr :=
  match s with
  | EmptyString =>
      match md, p_stack p with
      | MNormal, [] => Some (close_frame (p_cur p))
      | _, _ => None
      end
  | String c rest =>
      match md with
      | MNormal =>
          if Ascii.eqb c "\" then
            match rest with
            | String e rest' =>
                if Ascii.eqb e "s" then parse_expr MNormal (push (Chr ASpace) true p) rest'
                else if Ascii.eqb e "w" then parse_expr MNormal (push (Chr AWord) true p) rest'
                else if Ascii.eqb e "n" then
                  parse_expr MNormal (push (Chr (ALit Str.newline)) true p) rest'
                else if Ascii.eqb e "b" then parse_expr MNormal (push Bnd false p) rest'
                else if Ascii.eqb e "1" then
                  if p_closed p then parse_expr MNormal (push Ref true p) rest' else None
                else if is_alnum e then None
                else parse_expr MNormal (push (Chr (ALit e)) true p) rest'
            | EmptyString => None
            end
          else if Ascii.eqb c "." then parse_expr MNormal (push (Chr AAny) true p) rest
          else if Ascii.eqb c "[" then
            match rest with
            | String e rest' =>
                if Ascii.eqb e "^" then parse_expr (MSet true []) p rest'
                else parse_expr (MSet false []) p rest
            | EmptyString => None
            end
          else if Ascii.eqb c "(" then
            match rest with
            | String e rest' =>
                if Ascii.eqb e "?" then
                  match rest' with
                  | String e' rest'' =>
                      if Ascii.eqb e' ":" then parse_expr MNormal (open_group false p) rest''
                      else None
                  | EmptyString => None
                  end
                else if (p_ncap p =? 0)%nat then parse_expr MNormal (open_group true p) rest
                else None
            | EmptyString => None
            end
          else if Ascii.eqb c ")" then
            match close_group p with
            | Some p' => parse_expr MNormal p' rest
            | None => None
            end
          else if Ascii.eqb c "|" then parse_expr MNormal (next_alt p) rest
          else if Ascii.eqb c "*" then
            match quantify 0 p with
            | Some p' => parse_expr MNormal p' rest
            | None => None
            end
          else if Ascii.eqb c "+" then
            match quantify 1 p with
            | Some p' => parse_expr MNormal p' rest
            | None => None
            end
          else if Ascii.eqb c "?" then
            match make_lazy p with
            | Some p' => parse_expr MNormal p' rest
            | None => None
            end
          else if Ascii.eqb c "{" then
            if p_quant p then parse_expr (MBraceNum 0 false) p rest else None
          else if existsb (Ascii.eqb c) (list_ascii_of_string "}]^$") then None
          else parse_expr MNormal (push (Chr (ALit c)) true p) rest
      | MSet neg acc =>
          if Ascii.eqb c "]" then
            match acc with
            | [] => None
            | _ => parse_expr MNormal (push (Chr (ASet neg (rev acc))) true p) rest
            end
          else if Ascii.eqb c "\" then
            match rest with
            | String e rest' =>
                if Ascii.eqb e "n" then parse_expr (MSet neg (Str.newline :: acc)) p rest'
                else if is_alnum e then None
                else parse_expr (MSet neg (e :: acc)) p rest'
            | EmptyString => None
            end
          else if Ascii.eqb c "-" then
            match acc, rest with
            | [], _ => parse_expr (MSet neg [c]) p rest
            | _, String e _ =>
                if Ascii.eqb e "]" then parse_expr (MSet neg (c :: acc)) p rest else None
            | _, EmptyString => None
            end
          else
            match rest with
            | String d rest' =>
                if Ascii.eqb d "-" then
                  match rest' with
                  | String hi rest'' =>
                      if Ascii.eqb hi "]" then parse_expr (MSet neg (c :: acc)) p rest
                      else if Ascii.eqb hi "\" then None
                      else if (nat_of_ascii c <=? nat_of_ascii hi)%nat then
                        parse_expr (MSet neg (rev (range_chars c hi) ++ acc)) p rest''
                      else None
                  | EmptyString => None
                  end
                else parse_expr (MSet neg (c :: acc)) p rest
            | EmptyString => None
            end
      | MBraceNum n any =>
          if is_digit c then
            parse_expr (MBraceNum (10 * n + (nat_of_ascii c - 48)) true) p rest
          else if Ascii.eqb c "," then
            if any then parse_expr (MBraceEnd n) p rest else None
          else None
      | MBraceEnd n =>
          if Ascii.eqb c "}" then
            match quantify n p with
            | Some p' => parse_expr MNormal p' rest
            | None => None
            end
          else None
      end
  end.

Definition compile_expr (pattern : string) : option expr :=
  parse_expr MNormal (mk_pst [] (mk_frame false [] []) 0 false false false) pattern.

(** The matcher's position: the character before it, the text from it on,
    its offset, and the text of the capturing group once it is closed. *)
Record mstate : Type := mk_mstate {
  m_prev : option ascii;
  m_rest : string;
  m_pos : nat;
  m_group : option string
}.

(** [Some] of what follows the back-referenced text at the start of [s],
    with the last character read. *)
Fixpoint match_text (ic : bool) (g s : string) (prev : option ascii)
  : option (option ascii * string) :=
  match g with
  | EmptyString => Some (prev, s)
  | String c g' =>
      match s with
      | String x s' => if char_eq ic c x then match_text ic g' s' (Some x) else None
      | EmptyString => None
      end
  end.

Definition word_at (c : option ascii) : bool :=
  match c with
  | Some x => is_word x
  | None => false
  end.

Definition head_char (s : string) : option ascii :=
  match s with
  | String x _ => Some x
  | EmptyString => None
  end.

(** Backtracking match of [r] at a position, then of what [k] stands for:
    the end offset of the first match in the order of the alternatives,
    greedy repetitions taking as many iterations as they can and lazy ones
    as few.  An iteration of a repetition consumes at least one
    character. *)
Fixpoint run (ic : bool) (r : expr) (k : mstate -> option nat) (st : mstate) {struct r}
  : option nat :=
  match r with
  | Eps => k st
  | Chr a =>
      match m_rest st with
      | String x s' =>
          if atom_matches ic a x
          then k (mk_mstate (Some x) s' (S (m_pos st)) (m_group st))
          else None
      | EmptyString => None
      end
  | Cat r1 r2 => run ic r1 (run ic r2 k) st
  | Alt r1 r2 =>
      match run ic r1 k st with
      | Some e => Some e
      | None => run ic r2 k st
      end
  | Rep greedy min r1 =>
      (fix loop (fuel count : nat) (st : mstate) {struct fuel} : option nat :=
         let stop := if (min <=? count)%nat then k st else None in
         match fuel with
         | O => stop
         | S fuel' =>
             let more :=
               run ic r1
                 (fun st' =>
                    if (m_pos st <? m_pos st')%nat then loop fuel' (S count) st' else None)
                 st in
             if greedy then
               match more with
               | Some e => Some e
               | None => stop
               end
             else
               match stop with
               | Some e => Some e
               | None => more
               end
         end) (String.length (m_rest st)) 0%nat st
  | Cap r1 =>
      run ic r1
        (fun st' =>
           k (mk_mstate (m_prev st') (m_rest st') (m_pos st')
                (Some (substring 0 (m_pos st' - m_pos st) (m_rest st)))))
        st
  | Ref =>
      match m_group st with
      | Some g =>
          match match_text ic g (m_rest st) (m_prev st) with
          | Some (prev, s') =>
              k (mk_mstate prev s' (m_pos st + String.length g) (m_group st))
          | None => None
          end
      | None => None
      end
  | Bnd =>
      if xorb (word_at (m_prev st)) (word_at (head_char (m_rest st))) then k st else None
  end.

(** Start offsets of the successive non-overlapping matches of an
    expression, as [scan] gives them for a sequence. *)
Fixpoint scan_expr (ic : bool) (r : expr) (prev : option ascii) (s : string)
    (pos skip : nat) : list nat :=
  match s with
  | EmptyString =>
      match skip, run ic r (fun st => Some (m_pos st)) (mk_mstate prev s pos None) with
      | O, Some _ => [pos]
      | _, _ => []
      end
  | String x s' =>
      match skip with
      | S k => scan_expr ic r (Some x) s' (S pos) k
      | O =>
          match run ic r (fun st => Some (m_pos st)) (mk_mstate prev s pos None) with
          | Some e => pos :: scan_expr ic r (Some x) s' (S pos) (Nat.pred (e - pos))
          | None => scan_expr ic r (Some x) s' (S pos) O
          end
      end
  end.

(** [[m.start() for m in re.finditer(pattern, content, flags)]] for the
    patterns of the analyzer: the sequences by [scan], the patterns with
    groups by [scan_expr] ([MULTILINE] changes nothing: no anchors). *)
Definition finditer (pattern content : string) (flags : list flag) : list nat :=
  let ic := existsb (fun f => match f with IGNORECASE => true | _ => false end) flags in
  match compile pattern with
  | Some r => scan ic r content 0 0
  | None =>
      match compile_expr pattern with
      | Some r => scan_expr ic r None content 0 0
      | None => []
      end
  end.

End Re.

(* ================================================================== *)
(** ** Records of the analyzer *)

(** [@dataclass SecurityVulnerability]. *)
Module SecurityVulnerability.
Record t : Type := mk {
  severity : string;
  type : string;
  description : string;
  file : string;
  line : Z;
  cwe_id : option string;
  fix_suggestion : option string
}.
End SecurityVulnerability.

(** [@dataclass CodeQualityIssue]. *)
Module CodeQualityIssue.
Record t : Type := mk {
  type : string;
  severity : string;
  message : string;
  file : string;
  line : Z;
  rule : string;
  effort : string
}.
End CodeQualityIssue.

(** [@dataclass ArchitecturePattern]. *)
Module ArchitecturePattern.
Record t : Type := mk {
  pattern : string;
  confidence : Py.float;
  evidence : list string;
  files : list string
}.
End ArchitecturePattern.

(** The dict returned by [_calculate_acid_scores_detailed]; the dict of
    [_calculate_acid_scores] has no ['reliability_score'] key. *)
Module AcidScores.
Record t : Type := mk {
  bugs : Z;
  vulnerabilities : Z;
  code_smells : Z;
  bugs_grade : string;
  vulnerabilities_grade : string;
  code_smells_grade : string;
  quality_score : Py.num;
  security_score : Py.num;
  maintainability_score : Py.num;
  reliability_score : option Py.num
}.
End AcidScores.

(** The dict returned by [_calculate_complexity_metrics]. *)
Module ComplexityMetrics.
Record t : Type := mk {
  cyclomatic_complexity : Py.num;
  cognitive_complexity : Py.num;
  maintainability_index : Py.num
}.
End ComplexityMetrics.

(** A metrics dict, restricted to its integer entries; [d.get(k, default)]. *)
Definition dict : Type := list (string * Z).

Fixpoint dict_get (d : dict) (k : string) (default : Z) : Z :=
  match d with
  | [] => default
  | (k', v) :: d' => if String.eqb k' k then v else dict_get d' k default
  end.

(** [len(xs)]. *)
Definition len {A : Type} (xs : list A) : Z := Z.of_nat (List.length xs).

(* ================================================================== *)
(** ** Dependency vulnerability lookup *)

(** [_check_dependency_vulnerabilities(name, version)]: the mock check. *)
Definition _check_dependency_vulnerabilities (name version : string)
  : list SecurityVulnerability.t :=
  if Str.contains "jquery" (Str.lower name) && Str.lt version "3.0.0" then
    [SecurityVulnerability.mk "high" "XSS" "jQuery XSS vulnerability"
       "package.json" 0 (Some "CWE-79"%string) None]
  else [].

(* ================================================================== *)
(** ** Architecture patterns *)

(** [_detect_architecture_patterns(repo_dir)], on the entries of the root. *)
Definition _detect_architecture_patterns (root : list entry) : list ArchitecturePattern.t :=
  let '(mvc_evidence, mvc_files) :=
    if path_exists root "models" || path_exists root "views" || path_exists root "controllers"
    then (["MVC directory structure detected"], ["models/"; "views/"; "controllers/"])
    else ([], []) in
  let patterns :=
    match mvc_evidence with
    | [] => []
    | _ => [ArchitecturePattern.mk "MVC" Py.f_0_8 mvc_evidence mvc_files]
    end in
  let '(microservices_evidence, microservices_files) :=
    if path_exists root "services" || path_exists root "microservices"
    then (["Microservices directory structure detected"], ["services/"; "microservices/"])
    else ([], []) in
  match microservices_evidence with
  | [] => patterns
  | _ =>
      (patterns ++
       [ArchitecturePattern.mk "Microservices" Py.f_0_7
          microservices_evidence microservices_files])%list
  end.

(* ================================================================== *)
(** ** Pattern scanning *)

(** The extensions of the files the scanners read. *)
Definition source_extensions : list string :=
  [".py"; ".js"; ".ts"; ".java"; ".php"; ".rb"].

(** The [security_patterns] dict, in insertion order. *)
Definition security_patterns : list (string * list string) :=
  let q := String Str.dquote EmptyString in
  [ ("sql_injection",
     ["SELECT.*\+.*\$"; "INSERT.*\+.*\$"; "UPDATE.*\+.*\$"; "DELETE.*\+.*\$"]);
    ("xss",
     ["innerHTML\s*="; "document\.write\s*\("; "eval\s*\("]);
    ("path_traversal",
     ["\.\./"; "\.\.\\\\"; "%2e%2e%2f"]);
    ("hardcoded_secrets",
     [ ("password\s*=\s*[" ++ q ++ "\'][^" ++ q ++ "\']+[" ++ q ++ "\']")%string;
       ("api_key\s*=\s*[" ++ q ++ "\'][^" ++ q ++ "\']+[" ++ q ++ "\']")%string;
       ("secret\s*=\s*[" ++ q ++ "\'][^" ++ q ++ "\']+[" ++ q ++ "\']")%string ]) ].

(** The [quality_patterns] dict, in insertion order. *)
Definition quality_patterns : list (string * string) :=
  [ ("long_function", "def\s+\w+\([^)]*\):\s*\n(?:[^\n]*\n){50,}");
    ("long_parameter_list", "def\s+\w+\([^)]*,[^)]*,[^)]*,[^)]*,[^)]*,[^)]*\):");
    ("duplicate_code", "def\s+(\w+)\([^)]*\):.*?def\s+\1\([^)]*\):");
    ("magic_numbers", "\b(?:[0-9]{3,}|[0-9]+\.[0-9]+)\b");
    ("empty_catch", "except[^:]*:\s*\n\s*pass");
    ("todo_comments", "#\s*TODO|#\s*FIXME|#\s*HACK") ].

(** [content[:start].count('\n') + 1]. *)
Definition line_of (content : string) (start : nat) : Z :=
  Str.count_char Str.newline (Str.slice_to content start) + 1.

Section Scanners.

(** The regular-expression engine: the start offsets of
    [re.finditer(pattern, content, flags)], in order. *)
Variable re_finditer : string -> string -> list Re.flag -> list nat.

(** The body of the [try] of [_analyze_security_vulnerabilities] for one
    file that was read. *)
Definition scan_security (file_path content : string) : list SecurityVulnerability.t :=
  flat_map (fun '(vuln_type, patterns) =>
    flat_map (fun pattern =>
      map (fun start =>
             let line_num := line_of content start in
             SecurityVulnerability.mk "medium" vuln_type
               ("Potential " ++ vuln_type ++ " vulnerability")%string
               file_path line_num None None)
          (re_finditer pattern content [Re.IGNORECASE]))
      patterns)
    security_patterns.

(** [_analyze_security_vulnerabilities(repo_dir)]. *)
Definition _analyze_security_vulnerabilities (repo_dir : string) (root : list entry)
  : list SecurityVulnerability.t :=
  flat_map (fun '(top, file, content) =>
    if Str.endswith_any file source_extensions then
      match content with
      | Some c => scan_security (path_join top file) c
      | None => []
      end
    else [])
    (os_walk repo_dir root).

(** The body of the [try] of [_analyze_code_quality_issues] for one file. *)
Definition scan_quality (file_path content : string) : list CodeQualityIssue.t :=
  flat_map (fun '(issue_type, pattern) =>
    map (fun start =>
           let line_num := line_of content start in
           CodeQualityIssue.mk "code_smell" "minor"
             ("Potential " ++ issue_type ++ " issue")%string
             file_path line_num issue_type "5min")
        (re_finditer pattern content [Re.IGNORECASE; Re.MULTILINE]))
    quality_patterns.

(** [_analyze_code_quality_issues(repo_dir)]. *)
Definition _analyze_code_quality_issues (repo_dir : string) (root : list entry)
  : list CodeQualityIssue.t :=
  flat_map (fun '(top, file, content) =>
    if Str.endswith_any file source_extensions then
      match content with
      | Some c => scan_quality (path_join top file) c
      | None => []
      end
    else [])
    (os_walk repo_dir root).

(** [len(re.findall(pattern, content))]. *)
Definition count_matches (pattern content : string) : Z :=
  len (re_finditer pattern content []).

(** The counters of [_calculate_complexity_metrics] after the walk:
    [(total_functions, total_conditionals, total_loops)]. *)
Definition complexity_counts (repo_dir : string) (root : list entry) : Z * Z * Z :=
  fold_left (fun '(total_functions, total_conditionals, total_loops) '(top, file, content) =>
    if Str.endswith_any file source_extensions then
      match content with
      | Some c =>
          (total_functions + count_matches "def\s+\w+" c + count_matches "function\s+\w+" c,
           total_conditionals + count_matches "if\s+" c + count_matches "elif\s+" c
             + count_matches "case\s+" c,
           total_loops + count_matches "for\s+" c + count_matches "while\s+" c)
      | None => (total_functions, total_conditionals, total_loops)
      end
    else (total_functions, total_conditionals, total_loops))
    (os_walk repo_dir root) (0, 0, 0).

End Scanners.

(* ================================================================== *)
(** ** Complexity estimate *)

(** The end of [_calculate_complexity_metrics], from the three counters. *)
Definition complexity_of_counts (total_functions total_conditionals total_loops : Z)
  : Py.result ComplexityMetrics.t :=
  cyclomatic_complexity <-
    (if 0 <? total_functions then
       r <- Py.int_truediv (total_conditionals + total_loops + total_functions) total_functions ;;
       Py.Ok (Py.Float r)
     else Py.Ok (Py.Int 0)) ;;
  t <- Py.mul cyclomatic_complexity (Py.Int 10) ;;
  a <- Py.sub (Py.Int 100) t ;;
  Py.Ok (ComplexityMetrics.mk cyclomatic_complexity (Py.Int 0) (Py.max (Py.Int 0) a)).

(** [_calculate_complexity_metrics(repo_dir)]. *)
Definition _calculate_complexity_metrics
    (re_finditer : string -> string -> list Re.flag -> list nat)
    (repo_dir : string) (root : list entry) : Py.result ComplexityMetrics.t :=
  let '(total_functions, total_conditionals, total_loops) :=
    complexity_counts re_finditer repo_dir root in
  complexity_of_counts total_functions total_conditionals total_loops.

(* ================================================================== *)
(** ** Score aggregation *)

(** The nested function [get_grade(count, total)], the same in
    [_calculate_acid_scores_detailed] and in [_calculate_acid_scores]. *)
Definition get_grade (count total : Z) : Py.result string :=
  if total =? 0 then Py.Ok "A"%string
  else
    ratio <- Py.int_truediv count total ;;
    if Py.flt ratio Py.f_0_01 then Py.Ok "A"%string
    else if Py.flt ratio Py.f_0_05 then Py.Ok "B"%string
    else if Py.flt ratio Py.f_0_1 then Py.Ok "C"%string
    else if Py.flt ratio Py.f_0_2 then Py.Ok "D"%string
    else Py.Ok "E"%string.

(** The score expressions, in the evaluation order of the source:
    [max(0, 100 - (bugs * 5) - (vulnerabilities_count * 20) - (code_smells * 0.1))]. *)
Definition quality_score_of (bugs vulnerabilities_count code_smells : Z) : Py.result Py.num :=
  t1 <- Py.mul (Py.Int bugs) (Py.Int 5) ;;
  a1 <- Py.sub (Py.Int 100) t1 ;;
  t2 <- Py.mul (Py.Int vulnerabilities_count) (Py.Int 20) ;;
  a2 <- Py.sub a1 t2 ;;
  t3 <- Py.mul (Py.Int code_smells) (Py.Float Py.f_0_1) ;;
  a3 <- Py.sub a2 t3 ;;
  Py.Ok (Py.max (Py.Int 0) a3).

(** [max(0, 100 - (vulnerabilities_count * 30))]. *)
Definition security_score_of (vulnerabilities_count : Z) : Py.result Py.num :=
  t <- Py.mul (Py.Int vulnerabilities_count) (Py.Int 30) ;;
  a <- Py.sub (Py.Int 100) t ;;
  Py.Ok (Py.max (Py.Int 0) a).

(** [max(0, 100 - (code_smells * 0.2))]. *)
Definition maintainability_score_of (code_smells : Z) : Py.result Py.num :=
  t <- Py.mul (Py.Int code_smells) (Py.Float Py.f_0_2) ;;
  a <- Py.sub (Py.Int 100) t ;;
  Py.Ok (Py.max (Py.Int 0) a).

(** [max(0, 100 - (bugs * 10))]. *)
Definition reliability_score_of (bugs : Z) : Py.result Py.num :=
  t <- Py.mul (Py.Int bugs) (Py.Int 10) ;;
  a <- Py.sub (Py.Int 100) t ;;
  Py.Ok (Py.max (Py.Int 0) a).

(** [_calculate_acid_scores_detailed(code_metrics, vulnerabilities,
    quality_issues)] of [advanced_github_analyzer.py]. *)
Definition _calculate_acid_scores_detailed
    (code_metrics : dict)
    (vulnerabilities : list SecurityVulnerability.t)
    (quality_issues : list CodeQualityIssue.t) : Py.result AcidScores.t :=
  let total_files := dict_get code_metrics "total_files" 0 in
  let bugs :=
    len (filter (fun issue => String.eqb (CodeQualityIssue.type issue) "bug") quality_issues) in
  let code_smells :=
    len (filter (fun issue => String.eqb (CodeQualityIssue.type issue) "code_smell")
           quality_issues) in
  let vulnerabilities_count := len vulnerabilities in
  bugs_grade <- get_grade bugs total_files ;;
  vulnerabilities_grade <- get_grade vulnerabilities_count total_files ;;
  code_smells_grade <- get_grade code_smells total_files ;;
  quality_score <- quality_score_of bugs vulnerabilities_count code_smells ;;
  security_score <- security_score_of vulnerabilities_count ;;
  maintainability_score <- maintainability_score_of code_smells ;;
  reliability_score <- reliability_score_of bugs ;;
  Py.Ok (AcidScores.mk bugs vulnerabilities_count code_smells
           bugs_grade vulnerabilities_grade code_smells_grade
           quality_score security_score maintainability_score (Some reliability_score)).

(** [max(0, int(total_lines / d) - k)], the simulated counts of
    [_calculate_acid_scores]. *)
Definition estimate (total_lines d k : Z) : Py.result Z :=
  r <- Py.int_truediv total_lines d ;;
  n <- Py.int_of_float r ;;
  Py.Ok (Z.max 0 (n - k)).

(** [_calculate_acid_scores(code_metrics)] of [github_scraper.py]. *)
Definition _calculate_acid_scores (code_metrics : dict) : Py.result AcidScores.t :=
  let total_lines := dict_get code_metrics "total_lines" 0 in
  let total_files := dict_get code_metrics "total_files" 0 in
  bugs <- estimate total_lines 1000 2 ;;
  vulnerabilities <- estimate total_lines 5000 0 ;;
  code_smells <- estimate total_lines 200 0 ;;
  bugs_grade <- get_grade bugs total_files ;;
  vulnerabilities_grade <- get_grade vulnerabilities total_files ;;
  code_smells_grade <- get_grade code_smells total_files ;;
  quality_score <- quality_score_of bugs vulnerabilities code_smells ;;
  security_score <- security_score_of vulnerabilities ;;
  maintainability_score <- maintainability_score_of code_smells ;;
  Py.Ok (AcidScores.mk bugs vulnerabilities code_smells
           bugs_grade vulnerabilities_grade code_smells_grade
           quality_score security_score maintainability_score None).

(** The scoring steps of [analyze_repository_detailed]: [repo] is the clone
    ([None] when cloning failed) and [cloc_metrics] the dict that
    [_analyze_code_metrics_advanced] builds from the line counter's report. *)
Definition analyze_repository_detailed
    (re_finditer : string -> string -> list Re.flag -> list nat)
    (repo : option (string * list entry)) (cloc_metrics : dict)
  : Py.result AcidScores.t :=
  let code_metrics := match repo with Some _ => cloc_metrics | None => [] end in
  let security_vulnerabilities :=
    match repo with
    | Some (repo_dir, root) => _analyze_security_vulnerabilities re_finditer repo_dir root
    | None => []
    end in
  let code_quality_issues :=
    match repo with
    | Some (repo_dir, root) => _analyze_code_quality_issues re_finditer repo_dir root
    | None => []
    end in
  _calculate_acid_scores_detailed code_metrics security_vulnerabilities code_quality_issues.

(* ================================================================== *)
(** ** Definitions used to state and prove the properties *)

(** *** Rounding, on integers *)

(** Round to nearest, ties to even, of [m / 2^n]. *)
Definition rne (m n : Z) : Z :=
  let q := m / 2 ^ n in
  let r := m mod 2 ^ n in
  match 2 * r ?= 2 ^ n with
  | Lt => q
  | Eq => if Z.even q then q else q + 1
  | Gt => q + 1
  end.

(** Where [m] lies between two consecutive multiples of [2^n]. *)
Definition loc_of (m n : Z) : location :=
  let r := m mod 2 ^ n in
  if r =? 0 then loc_Exact else loc_Inexact (2 * r ?= 2 ^ n).

(** The double nearest to a positive [V * 2^-1074], in the same unit. *)
Definition rnd_int (V : Z) : Z :=
  let n := Z.max (Zdigits2 V - 53) 0 in rne V n * 2 ^ n.

(** [F] is the canonical finite float of sign [s] and magnitude
    [W * 2^-1074]. *)
Definition reprs (s : bool) (F : spec_float) (W : Z) : Prop :=
  exists m e, F = S754_finite s m e /\ bounded Py.prec Py.emax m e = true
              /\ Z.pos m * 2 ^ (e + 1074) = W.

(** Outcome of a rounding: the canonical float of value [W * 2^-1074], or
    an infinity when [W] is beyond the largest double. *)
Definition rounds_to (s : bool) (F : spec_float) (W : Z) : Prop :=
  (Zdigits2 W <= 2098 /\ reprs s F W) \/ (2098 < Zdigits2 W /\ F = S754_infinity s).

Definition has_sign (s : bool) (F : spec_float) : Prop :=
  match F with
  | S754_zero s' | S754_infinity s' | S754_finite s' _ _ => s' = s
  | S754_nan => True
  end.

(** Floats that do not compare greater than zero. *)
Definition nonpos (F : spec_float) : Prop :=
  match F with
  | S754_zero _ | S754_nan => True
  | S754_infinity s | S754_finite s _ _ => s = true
  end.

(** A non-negative finite float and its value in units of [2^-1074]. *)
Definition fval (F : spec_float) (W : Z) : Prop :=
  (F = S754_zero false /\ W = 0) \/ (0 < W /\ reprs false F W).

(** A score and its value in units of [2^-1074]: the int [0], or a
    positive finite float. *)
Definition num_val (x : Py.num) (W : Z) : Prop :=
  (x = Py.Int 0 /\ W = 0) \/ (0 < W /\ exists F, x = Py.Float F /\ reprs false F W).

(** Rounding of a difference, clamped at zero. *)
Definition clamp_round (X : Z) : Z := if 0 <? X then rnd_int X else 0.

(** Value of [float(s) * c] for the double [c = mc * 2^-k]. *)
Definition scaled_val (mc k s : Z) : Z :=
  if s =? 0 then 0 else rnd_int (rnd_int (s * 2 ^ 1074) * mc / 2 ^ k).

(** *** Strings *)

(** Lexicographic order on strings, by code point. *)
Inductive lex_lt : string -> string -> Prop :=
| lex_lt_nil c t : lex_lt EmptyString (String c t)
| lex_lt_head c d s t : (N_of_ascii c < N_of_ascii d)%N -> lex_lt (String c s) (String d t)
| lex_lt_tail c s t : lex_lt s t -> lex_lt (String c s) (String c t).

(** [s] has a substring equal to [sub] up to letter case. *)
Definition icontains (sub s : string) : Prop :=
  exists pre mid suf, s = (pre ++ mid ++ suf)%string /\ Str.lower mid = Str.lower sub.

(** *** The score formulas, as the specification writes them *)

(** [max(0, 100 - 5*b - 20*v - 0.1*s)]. *)
Definition spec_quality (b v s : Z) : Py.result Py.num :=
  t1 <- Py.mul (Py.Int 5) (Py.Int b) ;;
  a1 <- Py.sub (Py.Int 100) t1 ;;
  t2 <- Py.mul (Py.Int 20) (Py.Int v) ;;
  a2 <- Py.sub a1 t2 ;;
  t3 <- Py.mul (Py.Float Py.f_0_1) (Py.Int s) ;;
  a3 <- Py.sub a2 t3 ;;
  Py.Ok (Py.max (Py.Int 0) a3).

(** [max(0, 100 - 30*v)]. *)
Definition spec_security (v : Z) : Py.result Py.num :=
  t <- Py.mul (Py.Int 30) (Py.Int v) ;;
  a <- Py.sub (Py.Int 100) t ;;
  Py.Ok (Py.max (Py.Int 0) a).

(** [max(0, 100 - 0.2*s)]. *)
Definition spec_maintainability (s : Z) : Py.result Py.num :=
  t <- Py.mul (Py.Float Py.f_0_2) (Py.Int s) ;;
  a <- Py.sub (Py.Int 100) t ;;
  Py.Ok (Py.max (Py.Int 0) a).

(** [max(0, 100 - 10*b)]. *)
Definition spec_reliability (b : Z) : Py.result Py.num :=
  t <- Py.mul (Py.Int 10) (Py.Int b) ;;
  a <- Py.sub (Py.Int 100) t ;;
  Py.Ok (Py.max (Py.Int 0) a).

(** [max(0, 100 - 10 * cyclomatic)]. *)
Definition spec_maintainability_index (cyclomatic : Py.num) : Py.result Py.num :=
  t <- Py.mul (Py.Int 10) cyclomatic ;;
  a <- Py.sub (Py.Int 100) t ;;
  Py.Ok (Py.max (Py.Int 0) a).

(** *** Fixtures *)

(** The doubles [3.0], [70.0] and [100.0]. *)
Definition f_3 : Py.float := S754_finite false 6755399441055744 (-51).
Definition f_70 : Py.float := S754_finite false 4925812092436480 (-46).
Definition f_100 : Py.float := S754_finite false 7036874417766400 (-46).

(** A three-line file whose second line is [password = "x"]. *)
Definition fixture_file : string :=
  let q := String Str.dquote EmptyString in
  let nl := String Str.newline EmptyString in
  ("import os" ++ nl ++ "password = " ++ q ++ "x" ++ q ++ nl ++ "print(password)" ++ nl)%string.

(** The line [password = "x"] and the pattern that finds it, the first of
    the ['hardcoded_secrets'] patterns. *)
Definition password_line : string :=
  let q := String Str.dquote EmptyString in ("password = " ++ q ++ "x" ++ q)%string.

Definition password_pattern : string :=
  let q := String Str.dquote EmptyString in
  ("password\s*=\s*[" ++ q ++ "\'][^" ++ q ++ "\']+[" ++ q ++ "\']")%string.

(** The compiled form of [password_pattern], and what is left of it after
    the eight letters and after the equals sign. *)
Definition password_regex : Re.regex :=
  [(Re.ALit "p", Re.QOne); (Re.ALit "a", Re.QOne); (Re.ALit "s", Re.QOne);
   (Re.ALit "s", Re.QOne); (Re.ALit "w", Re.QOne); (Re.ALit "o", Re.QOne);
   (Re.ALit "r", Re.QOne); (Re.ALit "d", Re.QOne);
   (Re.ASpace, Re.QStar); (Re.ALit "=", Re.QOne); (Re.ASpace, Re.QStar);
   (Re.ASet false [Str.dquote; "'"%char], Re.QOne);
   (Re.ASet true [Str.dquote; "'"%char], Re.QPlus);
   (Re.ASet false [Str.dquote; "'"%char], Re.QOne)].

Definition password_after_letters : Re.regex := skipn 8 password_regex.
Definition password_after_equals : Re.regex := skipn 10 password_regex.

Definition is_quote (c : ascii) : bool := Ascii.eqb c Str.dquote || Ascii.eqb c "'".

Fixpoint all_chars (p : ascii -> bool) (s : string) : bool :=
  match s with
  | EmptyString => true
  | String c s' => p c && all_chars p s'
  end.

(** The finding [_check_dependency_vulnerabilities] reports for jQuery. *)
Definition jquery_finding : SecurityVulnerability.t :=
  SecurityVulnerability.mk "high" "XSS" "jQuery XSS vulnerability"
    "package.json" 0 (Some "CWE-79"%string) None.

(** *** Tactics *)

(** Evaluation of the int-only steps of a score expression. *)
Ltac py_ints :=
  repeat progress
    (cbn [Py.bind];
     try match goal with
         | |- context [Py.mul (Py.Int ?a) (Py.Int ?b)] =>
             change (Py.mul (Py.Int a) (Py.Int b)) with (Py.Ok (Py.Int (a * b)))
         | |- context [Py.sub (Py.Int ?a) (Py.Int ?b)] =>
             change (Py.sub (Py.Int a) (Py.Int b)) with (Py.Ok (Py.Int (a - b)))
         end).

Ltac py_ints_in H :=
  repeat progress
    (cbn [Py.bind] in H;
     try match type of H with
         | context [Py.mul (Py.Int ?a) (Py.Int ?b)] =>
             change (Py.mul (Py.Int a) (Py.Int b)) with (Py.Ok (Py.Int (a * b))) in H
         | context [Py.sub (Py.Int ?a) (Py.Int ?b)] =>
             change (Py.sub (Py.Int a) (Py.Int b)) with (Py.Ok (Py.Int (a - b))) in H
         end).

(** *** Rounding of a quotient *)

(** Round to nearest, ties to even, of the rational [A / D]. *)
Definition rnd_div (A D : Z) : Z :=
  let q := A / D in
  let r := A mod D in
  match 2 * r ?= D with
  | Lt => q
  | Eq => if Z.even q then q else q + 1
  | Gt => q + 1
  end.

(** The double nearest to the rational [a / b], in units of [2^-1074]. *)
Definition rnd_quot (a b : Z) : Z :=
  let X := a * 2 ^ 1074 in
  let n := Z.max (Zdigits2 (X / b) - 53) 0 in
  rnd_div X (b * 2 ^ n) * 2 ^ n.

(** A location as the two bits below the unit: round bit and sticky bit. *)
Definition loc_code (l : location) : Z :=
  match l with
  | loc_Exact => 0
  | loc_Inexact Lt => 1
  | loc_Inexact Eq => 2
  | loc_Inexact Gt => 3
  end.

(** The values of the double products [s * 0.1] and [s * 0.2], in units of
    [2^-1074]: the int is converted, and the product with the literal (the
    double [7205759403792794 * 2^-56], resp. [* 2^-55]) is rounded. *)
Definition tenth_of (s : Z) : Z := scaled_val 7205759403792794 56 s.
Definition fifth_of (s : Z) : Z := scaled_val 7205759403792794 55 s.

(** *** More fixtures *)

(** The doubles [10.0], [20.0], [79.9] and [99.8]. *)
Definition f_10 : Py.float := S754_finite false 5629499534213120 (-49).
Definition f_20 : Py.float := S754_finite false 5629499534213120 (-48).
Definition f_79_9 : Py.float := S754_finite false 5622462659795354 (-46).
Definition f_99_8 : Py.float := S754_finite false 7022800668930867 (-46).

(** A five-line Python file with a six-parameter function, the literal
    [1000], an [except] that passes and a [TODO] comment. *)
Definition quality_fixture : string :=
  let nl := String Str.newline EmptyString in
  ("def f(a, b, c, d, e, g):" ++ nl
   ++ "    try:" ++ nl
   ++ "        return 1000" ++ nl
   ++ "    except:" ++ nl
   ++ "        pass  # TODO" ++ nl)%string.

(** The issue [_analyze_code_quality_issues] reports for a rule at a line. *)
Definition smell (issue_type file : string) (line : Z) : CodeQualityIssue.t :=
  CodeQualityIssue.mk "code_smell" "minor" ("Potential " ++ issue_type ++ " issue")%string
    file line issue_type "5min".

(** *** Grades and thresholds *)

(** The grade that [count] findings in [total] files get, by the integer
    test of the thresholds 1%, 5%, 10% and 20%. *)
Definition grade_of_ratio (count total : Z) : string :=
  if 100 * count <? total then "A"
  else if 20 * count <? total then "B"
  else if 10 * count <? total then "C"
  else if 5 * count <? total then "D"
  else "E".

(** The rank of a grade, ['A'] the best. *)
Definition grade_rank (g : string) : nat :=
  if String.eqb g "A" then 0
  else if String.eqb g "B" then 1
  else if String.eqb g "C" then 2
  else if String.eqb g "D" then 3
  else 4.

(** The values of the threshold doubles, in units of [2^-1074]. *)
Definition W_0_01 : Z := 5764607523034235 * 2 ^ 1015.
Definition W_0_05 : Z := 7205759403792794 * 2 ^ 1017.
Definition W_0_1 : Z := 7205759403792794 * 2 ^ 1018.
Definition W_0_2 : Z := 7205759403792794 * 2 ^ 1019.

(** The grade of a ratio whose double has the value [W]. *)
Definition grade_of_val (W : Z) : string :=
  if W <? W_0_01 then "A"
  else if W <? W_0_05 then "B"
  else if W <? W_0_1 then "C"
  else if W <? W_0_2 then "D"
  else "E".

(** *** Hidden directories *)

(** An entry without the hidden directories below it: nothing when it is
    itself a hidden directory. *)
Fixpoint visible (e : entry) : list entry :=
  match e with
  | Dir n children =>
      if Str.startswith n "." then [] else [Dir n (flat_map visible children)]
  | _ => [e]
  end.

(** The tree without its hidden directories, at every depth. *)
Definition visible_tree (root : list entry) : list entry := flat_map visible root.

(** *** Skills of a profile ([github_scraper.py]) *)

(** [RepositoryMetrics], the two fields that the skill extraction reads:
    the [languages] dict (language to lines, in insertion order) and the
    [frameworks] list. *)
Module RepositoryMetrics.
Record t : Type := mk {
  languages : list (string * Z);
  frameworks : list string
}.
End RepositoryMetrics.

(** The [skills] dict as it is created, and the [skill_mapping] dict; both
    have the same six keys. *)
Definition skills_init : list (string * list string) :=
  [ ("Backend", []); ("Frontend", []); ("Machine Learning", []); ("DevOps", []);
    ("Mobile App", []); ("Location-based Services", []) ].

Definition skill_mapping : list (string * list string) :=
  [ ("Backend", ["express"; "django"; "flask"; "spring"; "rails"; "laravel"; "fastapi";
                 "node"; "python"; "java"; "go"; "rust"; "php"; "ruby"]);
    ("Frontend", ["react"; "vue"; "angular"; "nextjs"; "javascript"; "typescript";
                  "html"; "css"; "sass"; "less"]);
    ("Machine Learning", ["tensorflow"; "pytorch"; "pandas"; "numpy"; "scikit-learn";
                          "keras"; "opencv"; "matplotlib"; "seaborn"]);
    ("DevOps", ["docker"; "kubernetes"; "jenkins"; "github-actions"; "gitlab-ci";
                "terraform"; "ansible"; "aws"; "azure"; "gcp"]);
    ("Mobile App", ["react-native"; "flutter"; "ionic"; "cordova"; "xamarin"; "swift";
                    "kotlin"; "android"; "ios"]);
    ("Location-based Services", ["google-maps"; "mapbox"; "leaflet"; "geolocation";
                                 "gps"; "gis"]) ].

(** [skills[category]]; the keys of [skills] are those of [skill_mapping],
    so that the lookup never fails. *)
Fixpoint skills_get (skills : list (string * list string)) (category : string) : list string :=
  match skills with
  | [] => []
  | (k, members) :: rest =>
      if String.eqb k category then members else skills_get rest category
  end.

(** [skills[category].append(x)]. *)
Fixpoint skills_append (skills : list (string * list string)) (category x : string)
  : list (string * list string) :=
  match skills with
  | [] => []
  | (k, members) :: rest =>
      if String.eqb k category then (k, (members ++ [x])%list) :: rest
      else (k, members) :: skills_append rest category x
  end.

(** [x.lower() in [t.lower() for t in techs]]. *)
Definition in_techs (x : string) (techs : list string) : bool :=
  existsb (String.eqb (Str.lower x)) (map Str.lower techs).

(** [for category, techs in skill_mapping.items(): if x.lower() in [...]:
    if x not in skills[category]: skills[category].append(x)]. *)
Definition note_skill (x : string) (skills : list (string * list string))
  : list (string * list string) :=
  fold_left
    (fun sk (entry : string * list string) =>
       let (category, techs) := entry in
       if in_techs x techs then
         if existsb (String.eqb x) (skills_get sk category) then sk
         else skills_append sk category x
       else sk)
    skill_mapping skills.

Definition _extract_skills_from_repos (repos : list RepositoryMetrics.t)
  : list (string * list string) :=
  fold_left
    (fun sk repo =>
       let sk1 :=
         fold_left (fun s (item : string * Z) => note_skill (fst item) s)
                   (RepositoryMetrics.languages repo) sk in
       fold_left (fun s framework => note_skill framework s)
                 (RepositoryMetrics.frameworks repo) sk1)
    repos skills_init.

(** The names a repository brings: the keys of its languages, then its
    frameworks. *)
Definition repo_names (repo : RepositoryMetrics.t) : list string :=
  (map fst (RepositoryMetrics.languages repo) ++ RepositoryMetrics.frameworks repo)%list.

(** [x] belongs to [category] by the mapping, whatever its case. *)
Definition in_category (category x : string) : Prop :=
  exists techs, In (category, techs) skill_mapping /\ in_techs x techs = true.

(** *** Listing the repositories of a user ([github_scraper.py]) *)

Section Pagination.

(** A repository as the API returns it. *)
Variable repo : Type.

(** [self._make_request(url, params)] for a page: [None] for a request
    that failed (a status other than 200, or an exception), else the decoded
    list.  The loop asks for every page once. *)
Variable request : Z -> option (list repo).

(** The [while True] loop of [_get_all_repositories], from the state
    [(page, repos)]; [None] when the fuel runs out before a [break]. *)
Fixpoint get_all_loop (fuel : nat) (page : Z) (repos : list repo) : option (list repo) :=
  match fuel with
  | O => None
  | S fuel' =>
      match request page with
      | None => Some repos
      | Some response =>
          if len response =? 0 then Some repos
          else
            let repos' := (repos ++ response)%list in
            if len response <? 100 then Some repos'
            else get_all_loop fuel' (page + 1) repos'
      end
  end.

Definition _get_all_repositories (fuel : nat) : option (list repo) :=
  get_all_loop fuel 1 [].

(** What a page contributes, and whether it ends the loop. *)
Definition page_items (page : Z) : list repo :=
  match request page with
  | None => []
  | Some response => response
  end.

Definition full_page (page : Z) : Prop :=
  exists response, request page = Some response /\ 100 <= len response.

Definition last_page (page : Z) : Prop :=
  match request page with
  | None => True
  | Some response => len response < 100
  end.

End Pagination.

Arguments get_all_loop {repo}.
Arguments _get_all_repositories {repo}.
Arguments page_items {repo}.
Arguments full_page {repo}.
Arguments last_page {repo}.

(** A server with 103 repositories: a full first page, three on the
    second, nothing after. *)
Definition two_pages (page : Z) : option (list nat) :=
  if page =? 1 then Some (repeat 7%nat 100)
  else if page =? 2 then Some [8%nat; 9%nat; 10%nat]
  else None.

(** *** Framework detection *)

(** [s.replace(c, '')] for a one-character [c]. *)
Fixpoint remove_char (c : ascii) (s : string) : string :=
  match s with
  | EmptyString => EmptyString
  | String x s' => if Ascii.eqb x c then remove_char c s' else String x (remove_char c s')
  end.

(** The [framework_indicators] dict of [_extract_frameworks]
    ([github_scraper.py]) and that of [_extract_frameworks_advanced]. *)
Definition framework_indicators : list (string * list string) :=
  [ ("react", ["package.json"; "src/App.js"; "src/App.tsx"]);
    ("nextjs", ["next.config.js"; "pages/"; "app/"]);
    ("vue", ["vue.config.js"; "src/App.vue"]);
    ("angular", ["angular.json"; "src/app/"]);
    ("express", ["app.js"; "server.js"; "index.js"]);
    ("django", ["manage.py"; "settings.py"]);
    ("flask", ["app.py"; "requirements.txt"]);
    ("spring", ["pom.xml"; "build.gradle"]);
    ("rails", ["Gemfile"; "config/application.rb"]);
    ("laravel", ["artisan"; "composer.json"]);
    ("fastapi", ["main.py"; "requirements.txt"]);
    ("tensorflow", ["requirements.txt"; "*.py"]);
    ("pytorch", ["requirements.txt"; "*.py"]);
    ("pandas", ["requirements.txt"; "*.py"]);
    ("numpy", ["requirements.txt"; "*.py"]) ].

Definition framework_indicators_advanced : list (string * list string) :=
  [ ("react", ["package.json"; "src/App.js"; "src/App.tsx"; "jsx"]);
    ("nextjs", ["next.config.js"; "pages/"; "app/"; "next.config.mjs"]);
    ("vue", ["vue.config.js"; "src/App.vue"; "vue"]);
    ("angular", ["angular.json"; "src/app/"; "angular"]);
    ("express", ["app.js"; "server.js"; "index.js"; "express"]);
    ("django", ["manage.py"; "settings.py"; "django"]);
    ("flask", ["app.py"; "requirements.txt"; "flask"]);
    ("spring", ["pom.xml"; "build.gradle"; "spring"]);
    ("rails", ["Gemfile"; "config/application.rb"; "rails"]);
    ("laravel", ["artisan"; "composer.json"; "laravel"]);
    ("fastapi", ["main.py"; "requirements.txt"; "fastapi"]);
    ("tensorflow", ["requirements.txt"; "tensorflow"]);
    ("pytorch", ["requirements.txt"; "pytorch"]);
    ("pandas", ["requirements.txt"; "pandas"]);
    ("numpy", ["requirements.txt"; "numpy"]);
    ("selenium", ["requirements.txt"; "selenium"]);
    ("pytest", ["requirements.txt"; "pytest"]);
    ("jest", ["package.json"; "jest"]);
    ("cypress", ["package.json"; "cypress"]);
    ("docker", ["Dockerfile"; "docker-compose.yml"]);
    ("kubernetes", ["k8s/"; "kubernetes/"; "deployment.yaml"]);
    ("terraform", ["*.tf"; "terraform"]);
    ("ansible", ["playbook.yml"; "ansible"]) ].

Section Frameworks.

(** [os.path.exists(os.path.join(repo_dir, indicator))]. *)
Variable exists_at : string -> bool.

(** The [files] lists of [os.walk(repo_dir)], one for each directory that
    the walk visits; this walk is not pruned. *)
Variable walked_files : list (list string).

(** [for root, dirs, files in os.walk(repo_dir): if any(pattern in f for f
    in files): ...; break]. *)
Definition pattern_found (pattern : string) : bool :=
  existsb (fun files => existsb (Str.contains pattern) files) walked_files.

(** What the loop over the indicators of one framework appends: a pattern
    that is found appends and the loop goes on, a path that exists appends
    and ends the loop. *)
Fixpoint scan_indicators (framework : string) (indicators : list string) : list string :=
  match indicators with
  | [] => []
  | indicator :: rest =>
      if Str.contains "*" indicator then
        ((if pattern_found (remove_char "*" indicator) then [framework] else [])
           ++ scan_indicators framework rest)%list
      else if exists_at indicator then [framework]
      else scan_indicators framework rest
  end.

(** The list [frameworks] when the loops end. *)
Definition found_frameworks (table : list (string * list string)) : list string :=
  flat_map (fun entry : string * list string => scan_indicators (fst entry) (snd entry)) table.

(** [list(set(xs))]: the elements of [xs], each once, in an order that the
    language leaves open. *)
Definition list_of_set (xs result : list string) : Prop :=
  NoDup result /\ forall x, In x result <-> In x xs.

(** The two detectors, as relations to their possible results. *)
Definition _extract_frameworks (result : list string) : Prop :=
  list_of_set (found_frameworks framework_indicators) result.

Definition _extract_frameworks_advanced (result : list string) : Prop :=
  list_of_set (found_frameworks framework_indicators_advanced) result.

(** An indicator that counts for its framework. *)
Definition indicator_hit (indicator : string) : bool :=
  if Str.contains "*" indicator then pattern_found (remove_char "*" indicator)
  else exists_at indicator.

End Frameworks.

(** *** Dependencies of a [requirements.txt] *)

Module DependencyInfo.
Record t : Type := mk {
  name : string;
  version : string;
  type : string;
  vulnerabilities : list SecurityVulnerability.t;
  license : option string;
  last_updated : option string;
  maintainer : option string
}.
End DependencyInfo.






(** A line that is taken: not blank, and no comment. *)
Definition nonempty (s : string) : bool :=
  match s with EmptyString => false | _ => true end.





(** *** File structure *)

Module FileStructure.
Record t : Type := mk {
  directories : list string;
  files_by_extension : list (string * Z);
  depth : Z;
  organization_score : Z
}.
End FileStructure.

(** [os.path.splitext(p)[1]]: the text from the last dot of the last
    component, unless only dots come before it. *)
Fixpoint basename (s : string) : string :=
  match s with
  | EmptyString => EmptyString
  | String c s' => if Str.contains "/" s then basename s' else s
  end.

Fixpoint last_dot (s : string) : option string :=
  match s with
  | EmptyString => None
  | String c s' =>
      match last_dot s' with
      | Some e => Some e
      | None => if Ascii.eqb c "." then Some s else None
      end
  end.

Fixpoint lstrip_dots (s : string) : string :=
  match s with
  | EmptyString => EmptyString
  | String c s' => if Ascii.eqb c "." then lstrip_dots s' else s
  end.

Definition splitext_ext (p : string) : string :=
  let name := basename p in
  match last_dot name with
  | None => EmptyString
  | Some e =>
      if (String.length (lstrip_dots name) <=? String.length e)%nat then EmptyString else e
  end.

(** [s.replace(old, '')]: the occurrences of [old] are removed, from the
    left, [skip] being what is left to drop of the one found. *)
Fixpoint remove_sub (old : string) (skip : nat) (s : string) : string :=
  match s with
  | EmptyString => EmptyString
  | String c s' =>
      match skip with
      | S k => remove_sub old k s'
      | O =>
          if nonempty old && prefix old s then remove_sub old (String.length old - 1) s'
          else String c (remove_sub old 0 s')
      end
  end.

(** The [root] of each step of the pruned [os.walk], the top first. *)
Fixpoint dir_roots (top : string) (e : entry) : list string :=
  match e with
  | File _ _ | Symlink _ _ => []
  | Dir n children =>
      if Str.startswith n "." then []
      else
        let sub := path_join top n in
        sub :: flat_map (dir_roots sub) children
  end.

Definition walk_roots (repo_dir : string) (root : list entry) : list string :=
  repo_dir :: flat_map (dir_roots repo_dir) root.

(** [d[k] = d.get(k, 0) + 1]. *)
Fixpoint dict_incr (d : list (string * Z)) (k : string) : list (string * Z) :=
  match d with
  | [] => [(k, 1)]
  | (k', v) :: rest =>
      if String.eqb k' k then (k', v + 1) :: rest else (k', v) :: dict_incr rest k
  end.

(** The extensions that count, in the order of the walk. *)
Definition walked_extensions (repo_dir : string) (root : list entry) : list string :=
  filter nonempty
         (map (fun item : string * string * option string => splitext_ext (snd (fst item)))
              (os_walk repo_dir root)).

Definition organization_indicators (root : list entry) : Z :=
  (if path_exists root "src" then 1 else 0) + (if path_exists root "tests" then 1 else 0)
  + (if path_exists root "docs" then 1 else 0) + (if path_exists root "config" then 1 else 0).

Definition _analyze_file_structure (repo_dir : string) (root : list entry) : FileStructure.t :=
  let max_depth :=
    fold_left (fun m dirpath =>
                 Z.max m (Str.count_char "/" (remove_sub repo_dir 0 dirpath)))
              (walk_roots repo_dir root) 0 in
  let file_extensions := fold_left dict_incr (walked_extensions repo_dir root) [] in
  FileStructure.mk [] file_extensions max_depth
                   (Z.min 100 (organization_indicators root * 25)).

(** The number of times [k] occurs in [ks]. *)
Definition occurrences (k : string) (ks : list string) : Z :=
  len (filter (String.eqb k) ks).


(* ================================================================== *)
(** ** Binary64 rounding *)

Lemma fexp_eq e : fexp Py.prec Py.emax e = Z.max (e - 53) (-1074).
Proof. reflexivity. Qed.

Lemma digits2_pos_size p : digits2_pos p = Pos.size p.
Proof. induction p; simpl; congruence. Qed.

Lemma Zdigits2_bounds z : 0 < z -> 2 ^ (Zdigits2 z - 1) <= z < 2 ^ Zdigits2 z.
Proof.
  destruct z as [|p|p]; try lia. intros _.
  change (Zdigits2 (Z.pos p)) with (Z.pos (digits2_pos p)). rewrite digits2_pos_size.
  pose proof (Pos.size_gt p) as Hgt. pose proof (Pos.size_le p) as Hle.
  apply Pos2Z.pos_lt_pos in Hgt. apply Pos2Z.pos_le_pos in Hle.
  rewrite Pos2Z.inj_pow in Hgt, Hle.
  replace (Z.pos (Pos.size p)) with (Z.succ (Z.pos (Pos.size p) - 1)) in Hle at 1 by lia.
  rewrite Z.pow_succ_r in Hle by lia.
  change (Z.pos p~0) with (2 * Z.pos p) in Hle. lia.
Qed.

Lemma Zdigits2_pos z : 0 < z -> 0 < Zdigits2 z.
Proof. destruct z; simpl; lia. Qed.

Lemma pow2_lt_inv a b : 0 <= b -> 2 ^ a < 2 ^ b -> a < b.
Proof.
  intros Hb H. destruct (Z_lt_le_dec a b) as [|Hle]; [assumption|].
  apply (Z.pow_le_mono_r 2) in Hle; lia.
Qed.

Lemma Zdigits2_unique z k : 2 ^ (k - 1) <= z < 2 ^ k -> 0 < k -> Zdigits2 z = k.
Proof.
  intros [Hlo Hhi] Hk.
  assert (Hz : 0 < z) by (pose proof (Z.pow_pos_nonneg 2 (k - 1)); lia).
  pose proof (Zdigits2_bounds z Hz) as [Hl Hh]. pose proof (Zdigits2_pos z Hz) as Hd.
  assert (Zdigits2 z - 1 < k) by (apply pow2_lt_inv; lia).
  assert (k - 1 < Zdigits2 z) by (apply pow2_lt_inv; lia).
  lia.
Qed.

Lemma Zdigits2_le a b : 0 < a -> a <= b -> Zdigits2 a <= Zdigits2 b.
Proof.
  intros Ha Hab.
  pose proof (Zdigits2_bounds a Ha) as [Hl _].
  pose proof (Zdigits2_bounds b ltac:(lia)) as [_ Hh].
  pose proof (Zdigits2_pos b ltac:(lia)).
  assert (Zdigits2 a - 1 < Zdigits2 b) by (apply pow2_lt_inv; lia). lia.
Qed.

Lemma Zdigits2_mul_pow2 m k : 0 < m -> 0 <= k -> Zdigits2 (m * 2 ^ k) = Zdigits2 m + k.
Proof.
  intros Hm Hk. pose proof (Zdigits2_bounds m Hm) as [Hl Hh].
  pose proof (Zdigits2_pos m Hm).
  apply Zdigits2_unique; [|lia].
  replace (Zdigits2 m + k - 1) with ((Zdigits2 m - 1) + k) by lia.
  rewrite !Z.pow_add_r by lia.
  pose proof (Z.pow_pos_nonneg 2 k). nia.
Qed.

(** iter_pos as Nat.iter *)
Lemma iter_pos_nat {A} (f : A -> A) p x : iter_pos f p x = Nat.iter (Pos.to_nat p) f x.
Proof.
  revert x. induction p as [p IH|p IH|]; intros x.
  - change (iter_pos f p~1 x) with (iter_pos f p (iter_pos f p (f x))).
    rewrite !IH, Pos2Nat.inj_xI, <- Nat.iter_add.
    replace (S (2 * Pos.to_nat p)) with (S (Pos.to_nat p + Pos.to_nat p))%nat by lia.
    now rewrite Nat.iter_succ_r.
  - change (iter_pos f p~0 x) with (iter_pos f p (iter_pos f p x)).
    rewrite !IH, Pos2Nat.inj_xO, <- Nat.iter_add. f_equal. lia.
  - reflexivity.
Qed.

Lemma shr_1_m mrs : 0 <= shr_m mrs -> shr_m (shr_1 mrs) = shr_m mrs / 2.
Proof.
  destruct mrs as [m r s]. simpl. intros Hm.
  destruct m as [|[p|p|]|p]; simpl; try lia; try reflexivity.
  - rewrite Pos2Z.inj_xI. apply Z.div_unique with 1; lia.
  - rewrite Pos2Z.inj_xO. apply Z.div_unique with 0; lia.
Qed.

Lemma shr_1_r mrs : 0 <= shr_m mrs -> shr_r (shr_1 mrs) = Z.odd (shr_m mrs).
Proof.
  destruct mrs as [m r s]. simpl. intros Hm.
  destruct m as [|[p|p|]|p]; simpl; try lia; reflexivity.
Qed.

Lemma shr_1_s mrs : shr_s (shr_1 mrs) = shr_r mrs || shr_s mrs.
Proof.
  destruct mrs as [m r s]. simpl.
  destruct m as [|[p|p|]|[p|p|]]; reflexivity.
Qed.

Lemma iter_shr_m n mrs :
  0 <= shr_m mrs -> shr_m (Nat.iter n shr_1 mrs) = shr_m mrs / 2 ^ Z.of_nat n.
Proof.
  intros Hm. induction n as [|n IH].
  - simpl. now rewrite Z.div_1_r.
  - rewrite Nat.iter_succ, shr_1_m, IH.
    + rewrite Nat2Z.inj_succ, Z.pow_succ_r by lia.
      rewrite Z.div_div by lia. f_equal. lia.
    + rewrite IH. apply Z.div_pos; lia.
Qed.

Lemma iter_shr_bits n m :
  0 <= m ->
  let mrs := Nat.iter (S n) shr_1 (Build_shr_record m false false) in
  shr_r mrs = Z.odd (m / 2 ^ Z.of_nat n) /\
  shr_s mrs = negb (m mod 2 ^ Z.of_nat n =? 0).
Proof.
  intros Hm. induction n as [|n [IHr IHs]].
  - simpl. split.
    + rewrite Z.div_1_r. destruct m as [|[p|p|]|p]; simpl; try lia; reflexivity.
    + rewrite Z.mod_1_r. destruct m as [|[p|p|]|p]; simpl; try lia; reflexivity.
  - cbv zeta. rewrite Nat.iter_succ. split.
    + rewrite shr_1_r; rewrite iter_shr_m; simpl shr_m;
        try (apply Z.div_pos; lia); try assumption.
      reflexivity.
    + rewrite shr_1_s. cbv zeta in IHr, IHs. rewrite IHr, IHs.
      rewrite (Nat2Z.inj_succ n), Z.pow_succ_r by lia.
      rewrite (Z.mul_comm 2), Z.rem_mul_r by lia.
      set (a := m mod 2 ^ Z.of_nat n). set (b := m / 2 ^ Z.of_nat n).
      rewrite Zodd_mod.
      pose proof (Z.mod_pos_bound b 2 ltac:(lia)).
      pose proof (Z.mod_pos_bound m (2 ^ Z.of_nat n) ltac:(lia)). fold a in H0.
      destruct (Z.eqb_spec (b mod 2) 1), (Z.eqb_spec a 0); simpl;
        destruct (Z.eqb_spec (a + 2 ^ Z.of_nat n * (b mod 2)) 0); try reflexivity; nia.
Qed.

Lemma iter_shr_loc n m :
  0 <= m ->
  loc_of_shr_record (Nat.iter (S n) shr_1 (Build_shr_record m false false))
  = loc_of m (Z.of_nat (S n)).
Proof.
  intros Hm. pose proof (iter_shr_bits n m Hm) as H. cbv zeta in H.
  destruct H as [Hr Hs].
  destruct (Nat.iter (S n) shr_1 _) as [m' r s]. cbn [shr_r shr_s] in Hr, Hs.
  subst r s. unfold loc_of, loc_of_shr_record.
  rewrite (Nat2Z.inj_succ n), Z.pow_succ_r by lia.
  rewrite (Z.mul_comm 2), Z.rem_mul_r by lia.
  set (a := m mod 2 ^ Z.of_nat n). set (b := m / 2 ^ Z.of_nat n).
  rewrite Zodd_mod.
  pose proof (Z.mod_pos_bound b 2 ltac:(lia)).
  pose proof (Z.mod_pos_bound m (2 ^ Z.of_nat n) ltac:(lia)) as Ha. fold a in Ha.
  set (P := 2 ^ Z.of_nat n) in *.
  destruct (Z.eqb_spec (b mod 2) 1) as [E|E], (Z.eqb_spec a 0) as [E'|E'];
    cbn [negb orb];
    destruct (Z.eqb_spec (a + P * (b mod 2)) 0); try nia; try reflexivity;
    f_equal; symmetry;
    first [ apply Z.compare_eq_iff; nia | apply Z.compare_lt_iff; nia
          | apply Z.compare_gt_iff; nia ].
Qed.

Lemma round_loc_of m n :
  0 <= n -> round_nearest_even (m / 2 ^ n) (loc_of m n) = rne m n.
Proof.
  intros Hn. unfold loc_of, rne. cbv zeta.
  pose proof (Z.pow_pos_nonneg 2 n ltac:(lia) Hn) as Hp.
  destruct (Z.eqb_spec (m mod 2 ^ n) 0) as [E|E].
  - rewrite E. cbn [round_nearest_even].
    destruct (Z.compare_spec (2 * 0) (2 ^ n)); try lia; reflexivity.
  - cbn [round_nearest_even].
    destruct (2 * (m mod 2 ^ n) ?= 2 ^ n); reflexivity.
Qed.

Lemma rne_bounds m n : 0 <= n -> m / 2 ^ n <= rne m n <= m / 2 ^ n + 1.
Proof.
  intros Hn. unfold rne. cbv zeta.
  destruct (2 * (m mod 2 ^ n) ?= 2 ^ n); [destruct (Z.even _)| |]; lia.
Qed.

Lemma rne_exact m n : 0 <= n -> m mod 2 ^ n = 0 -> rne m n = m / 2 ^ n.
Proof.
  intros Hn E. unfold rne. cbv zeta. rewrite E.
  pose proof (Z.pow_pos_nonneg 2 n ltac:(lia) Hn).
  destruct (Z.compare_spec (2 * 0) (2 ^ n)); try lia; reflexivity.
Qed.

Lemma rne_mono m m' n : 0 <= n -> m <= m' -> rne m n <= rne m' n.
Proof.
  intros Hn Hm.
  pose proof (Z.pow_pos_nonneg 2 n ltac:(lia) Hn) as HP.
  pose proof (rne_bounds m n Hn) as B. pose proof (rne_bounds m' n Hn) as B'.
  pose proof (Z.div_le_mono m m' (2 ^ n) HP Hm) as Hq.
  destruct (Z.eq_dec (m / 2 ^ n) (m' / 2 ^ n)) as [E|E]; [|lia].
  assert (Hr : m mod 2 ^ n <= m' mod 2 ^ n).
  { rewrite !Z.mod_eq by lia. rewrite E. lia. }
  unfold rne. cbv zeta. rewrite <- E.
  destruct (Z.compare_spec (2 * (m mod 2 ^ n)) (2 ^ n)),
           (Z.compare_spec (2 * (m' mod 2 ^ n)) (2 ^ n));
    destruct (Z.even (m / 2 ^ n)); lia.
Qed.

Lemma rne_scale m n k : 0 <= n -> 0 <= k -> rne (m * 2 ^ k) (n + k) = rne m n.
Proof.
  intros Hn Hk. unfold rne. cbv zeta.
  pose proof (Z.pow_pos_nonneg 2 n ltac:(lia) Hn) as HP.
  pose proof (Z.pow_pos_nonneg 2 k ltac:(lia) Hk) as HK.
  rewrite Z.pow_add_r by lia.
  rewrite Z.div_mul_cancel_r by lia.
  rewrite Z.mul_mod_distr_r by lia.
  rewrite Z.mul_assoc, <- Zmult_compare_compat_r by lia. reflexivity.
Qed.

Lemma rne_ge_pow m n k : 0 <= n <= k -> 2 ^ k <= m -> 2 ^ (k - n) <= rne m n.
Proof.
  intros Hn Hm. pose proof (rne_bounds m n ltac:(lia)).
  enough (2 ^ (k - n) <= m / 2 ^ n) by lia.
  apply Z.div_le_lower_bound; [apply Z.pow_pos_nonneg; lia|].
  rewrite <- Z.pow_add_r by lia. replace (n + (k - n)) with k by lia. assumption.
Qed.

Lemma rne_le_pow m n k : 0 <= n <= k -> m < 2 ^ k -> rne m n <= 2 ^ (k - n).
Proof.
  intros Hn Hm. pose proof (rne_bounds m n ltac:(lia)).
  enough (m / 2 ^ n < 2 ^ (k - n)) by lia.
  apply Z.div_lt_upper_bound; [apply Z.pow_pos_nonneg; lia|].
  rewrite <- Z.pow_add_r by lia. replace (n + (k - n)) with k by lia. assumption.
Qed.

Lemma pow2_split a b : 0 <= b <= a -> 2 ^ a = 2 ^ (a - b) * 2 ^ b.
Proof. intros H. rewrite <- Z.pow_add_r by lia. f_equal. lia. Qed.

Lemma rnd_int_lower V : 0 < V -> 2 ^ (Zdigits2 V - 1) <= rnd_int V.
Proof.
  intros HV. unfold rnd_int. cbv zeta.
  pose proof (Zdigits2_bounds V HV) as [Hl Hh]. pose proof (Zdigits2_pos V HV) as Hd.
  set (n := Z.max (Zdigits2 V - 53) 0).
  pose proof (rne_ge_pow V n (Zdigits2 V - 1) ltac:(lia) Hl) as H.
  rewrite (pow2_split (Zdigits2 V - 1) n) by lia.
  apply Z.mul_le_mono_nonneg_r; [apply Z.pow_nonneg|]; lia.
Qed.

Lemma rnd_int_upper V : 0 < V -> rnd_int V <= 2 ^ Zdigits2 V.
Proof.
  intros HV. unfold rnd_int. cbv zeta.
  pose proof (Zdigits2_bounds V HV) as [Hl Hh]. pose proof (Zdigits2_pos V HV) as Hd.
  set (n := Z.max (Zdigits2 V - 53) 0).
  pose proof (rne_le_pow V n (Zdigits2 V) ltac:(lia) Hh) as H.
  rewrite (pow2_split (Zdigits2 V) n) by lia.
  apply Z.mul_le_mono_nonneg_r; [apply Z.pow_nonneg|]; lia.
Qed.

Lemma rnd_int_mono V1 V2 : 0 < V1 -> V1 <= V2 -> rnd_int V1 <= rnd_int V2.
Proof.
  intros H1 H12.
  pose proof (Zdigits2_le V1 V2 H1 H12) as Hd.
  destruct (Z.eq_dec (Zdigits2 V1) (Zdigits2 V2)) as [E|E].
  - unfold rnd_int. cbv zeta. rewrite E.
    apply Z.mul_le_mono_nonneg_r; [apply Z.pow_nonneg; lia|].
    apply rne_mono; lia.
  - pose proof (rnd_int_upper V1 H1). pose proof (rnd_int_lower V2 ltac:(lia)).
    pose proof (Z.pow_le_mono_r 2 (Zdigits2 V1) (Zdigits2 V2 - 1) ltac:(lia) ltac:(lia)).
    lia.
Qed.

Lemma rnd_int_exact V :
  0 < V -> V mod 2 ^ Z.max (Zdigits2 V - 53) 0 = 0 -> rnd_int V = V.
Proof.
  intros HV E. unfold rnd_int. cbv zeta. rewrite rne_exact by (assumption || lia).
  pose proof (Z.div_mod V (2 ^ Z.max (Zdigits2 V - 53) 0)
                ltac:(apply Z.pow_nonzero; lia)). lia.
Qed.

Lemma bounded_inv m e :
  bounded Py.prec Py.emax m e = true ->
  -1074 <= e <= 971 /\ Zdigits2 (Z.pos m) <= 53 /\
  (Zdigits2 (Z.pos m) = 53 \/ e = -1074).
Proof.
  unfold bounded, canonical_mantissa. rewrite andb_true_iff, fexp_eq.
  intros [Hc He]. apply Z.eqb_eq in Hc. apply Z.leb_le in He.
  change (Z.pos (digits2_pos m)) with (Zdigits2 (Z.pos m)) in Hc.
  change (Py.emax - Py.prec) with 971 in He. lia.
Qed.

Lemma bounded_intro m e :
  -1074 <= e <= 971 -> Zdigits2 (Z.pos m) <= 53 ->
  (Zdigits2 (Z.pos m) = 53 \/ e = -1074) ->
  bounded Py.prec Py.emax m e = true.
Proof.
  intros He Hd Hc. unfold bounded, canonical_mantissa. rewrite andb_true_iff, fexp_eq.
  change (Z.pos (digits2_pos m)) with (Zdigits2 (Z.pos m)).
  change (Py.emax - Py.prec) with 971. split; [apply Z.eqb_eq|apply Z.leb_le]; lia.
Qed.

Lemma canonical_lt m1 e1 m2 e2 :
  bounded Py.prec Py.emax m1 e1 = true -> bounded Py.prec Py.emax m2 e2 = true ->
  e1 < e2 -> Z.pos m1 * 2 ^ (e1 + 1074) < Z.pos m2 * 2 ^ (e2 + 1074).
Proof.
  intros B1 B2 He.
  apply bounded_inv in B1. apply bounded_inv in B2.
  destruct B1 as (R1 & D1 & C1). destruct B2 as (R2 & D2 & C2).
  assert (E2 : Zdigits2 (Z.pos m2) = 53) by lia.
  pose proof (Zdigits2_bounds (Z.pos m1) ltac:(lia)) as [_ U1].
  pose proof (Zdigits2_bounds (Z.pos m2) ltac:(lia)) as [L2 _].
  rewrite E2 in L2. change (53 - 1) with 52 in L2.
  assert (U1' : Z.pos m1 < 2 ^ 53).
  { eapply Z.lt_le_trans; [exact U1|]. apply Z.pow_le_mono_r; lia. }
  rewrite (pow2_split (e2 + 1074) (e1 + 1074)) by lia.
  replace (e2 + 1074 - (e1 + 1074)) with (e2 - e1) by lia.
  pose proof (Z.pow_pos_nonneg 2 (e1 + 1074) ltac:(lia) ltac:(lia)) as HP.
  pose proof (Z.pow_le_mono_r 2 1 (e2 - e1) ltac:(lia) ltac:(lia)) as HQ.
  change (2 ^ 1) with 2 in HQ. change (2 ^ 52) with 4503599627370496 in L2.
  change (2 ^ 53) with 9007199254740992 in U1'.
  rewrite Z.mul_assoc. apply Z.mul_lt_mono_pos_r; [assumption|]. nia.
Qed.

Lemma reprs_compare F1 W1 F2 W2 :
  reprs false F1 W1 -> reprs false F2 W2 -> SFcompare F1 F2 = Some (W1 ?= W2).
Proof.
  intros (m1 & e1 & -> & B1 & <-) (m2 & e2 & -> & B2 & <-).
  cbn [SFcompare]. f_equal.
  destruct (Z.compare_spec e1 e2) as [E|E|E].
  - subst e2. change (Pos.compare_cont Eq m1 m2) with (Pos.compare m1 m2).
    pose proof (bounded_inv _ _ B1).
    rewrite Pos2Z.inj_compare. apply Zmult_compare_compat_r.
    apply Z.lt_gt, Z.pow_pos_nonneg; lia.
  - symmetry. apply Z.compare_lt_iff. now apply canonical_lt.
  - symmetry. apply Z.compare_gt_iff. now apply canonical_lt.
Qed.

Lemma shr_exact_round mx ex n :
  0 <= mx -> 0 <= n ->
  forall mrs e', shr (Build_shr_record mx false false) ex n = (mrs, e') ->
  round_nearest_even (shr_m mrs) (loc_of_shr_record mrs) = rne mx n /\ e' = ex + n.
Proof.
  intros Hm Hn mrs e' H. destruct n as [|p|p]; try lia.
  - injection H as <- <-. cbn [shr_m loc_of_shr_record round_nearest_even].
    rewrite rne_exact by (rewrite ?Z.mod_1_r; lia).
    rewrite Z.div_1_r. lia.
  - cbn [shr] in H. injection H as <- <-. split; [|reflexivity].
    rewrite iter_pos_nat.
    destruct (Pos.to_nat p) as [|k] eqn:Ek; [lia|].
    rewrite iter_shr_m by (simpl; lia). cbn [shr_m].
    rewrite iter_shr_loc by assumption.
    rewrite <- Ek, positive_nat_Z. apply round_loc_of. lia.
Qed.

Lemma shr_any_m mrs ex n :
  0 <= shr_m mrs -> 
  forall mrs' e', shr mrs ex n = (mrs', e') ->
  shr_m mrs' = shr_m mrs / 2 ^ Z.max n 0 /\ e' = ex + Z.max n 0.
Proof.
  intros Hm mrs' e' H. destruct n as [|p|p]; cbn [shr] in H; injection H as <- <-.
  - simpl. rewrite Z.div_1_r. lia.
  - rewrite iter_pos_nat, iter_shr_m, positive_nat_Z by assumption.
    rewrite Z.max_l by lia. split; reflexivity.
  - simpl. rewrite Z.div_1_r. lia.
Qed.

Lemma binary_round_aux_exact s mx ex :
  0 < mx -> -1074 <= ex -> ex <= fexp Py.prec Py.emax (Zdigits2 mx + ex) ->
  rounds_to s (binary_round_aux Py.prec Py.emax s mx ex loc_Exact)
            (rnd_int (mx * 2 ^ (ex + 1074))).
Proof.
  intros Hm He Hc. rewrite fexp_eq in Hc.
  pose proof (Zdigits2_pos mx Hm) as Hd.
  pose proof (Zdigits2_bounds mx Hm) as [Hlo Hhi].
  set (d := Zdigits2 mx) in *.
  set (n1 := Z.max (d + ex - 53) (-1074) - ex).
  assert (Hn1 : 0 <= n1) by (unfold n1; lia).
  (* the value being rounded *)
  assert (HW : rnd_int (mx * 2 ^ (ex + 1074)) = rne mx n1 * 2 ^ (n1 + (ex + 1074))).
  { unfold rnd_int. cbv zeta. rewrite Zdigits2_mul_pow2 by lia. fold d.
    replace (Z.max (d + (ex + 1074) - 53) 0) with (n1 + (ex + 1074)) by (unfold n1; lia).
    rewrite rne_scale by lia. reflexivity. }
  rewrite HW. clear HW.
  unfold binary_round_aux.
  destruct (shr_fexp Py.prec Py.emax mx ex loc_Exact) as [mrs1 e1] eqn:S1.
  unfold shr_fexp in S1. rewrite fexp_eq in S1. fold d in S1. fold n1 in S1.
  cbn [shr_record_of_loc] in S1.
  destruct (shr_exact_round mx ex n1 ltac:(lia) Hn1 _ _ S1) as [R1 E1].
  rewrite R1. clear S1 R1. subst e1.
  set (m1 := rne mx n1).
  destruct (Z.eq_dec n1 0) as [Z1|NZ1].
  - (* no bit is dropped *)
    assert (Em1 : m1 = mx).
    { unfold m1. rewrite Z1. rewrite rne_exact by (rewrite ?Z.mod_1_r; lia).
      apply Z.div_1_r. }
    rewrite Em1, Z1, Z.add_0_r, Z.add_0_l.
    unfold shr_fexp. rewrite fexp_eq. fold d.
    replace (Z.max (d + ex - 53) (-1074) - ex) with 0 by (unfold n1 in Z1; lia).
    cbn [shr shr_record_of_loc shr_m].
    destruct mx as [|p|p]; try lia.
    assert (Hdig : Zdigits2 (Z.pos p * 2 ^ (ex + 1074)) = d + ex + 1074).
    { rewrite Zdigits2_mul_pow2 by lia. fold d. lia. }
    change (Py.emax - Py.prec) with 971.
    destruct (Z.leb_spec ex 971) as [L|L].
    + left. split; [unfold n1 in Z1; lia|].
      exists p, ex. split; [reflexivity|]. split; [|reflexivity].
      apply bounded_intro; fold d; unfold n1 in Z1; lia.
    + right. split; [unfold n1 in Z1; lia|reflexivity].
  - (* at least one bit is dropped: the result is normal *)
    assert (En1 : n1 = d - 53) by (unfold n1 in *; lia).
    assert (Hm1 : 2 ^ 52 <= m1 <= 2 ^ 53).
    { unfold m1. split.
      - replace 52 with (d - 1 - n1) by lia. apply rne_ge_pow; [lia|assumption].
      - replace 53 with (d - n1) by lia. apply rne_le_pow; [lia|assumption]. }
    change (2 ^ 52) with 4503599627370496 in Hm1.
    change (2 ^ 53) with 9007199254740992 in Hm1.
    destruct (Z.eq_dec m1 9007199254740992) as [C|C].
    + (* the increment carries into a new binade *)
      rewrite C. unfold shr_fexp. rewrite fexp_eq.
      change (Zdigits2 9007199254740992) with 54.
      replace (Z.max (54 + (ex + n1) - 53) (-1074) - (ex + n1)) with 1 by lia.
      cbn [shr shr_record_of_loc iter_pos shr_1 shr_m].
      change (Py.emax - Py.prec) with 971.
      assert (Hdig : Zdigits2 (9007199254740992 * 2 ^ (n1 + (ex + 1074)))
                     = 54 + n1 + ex + 1074).
      { rewrite Zdigits2_mul_pow2 by lia. change (Zdigits2 9007199254740992) with 54. lia. }
      destruct (Z.leb_spec (ex + n1 + 1) 971) as [L|L].
      * left. split; [lia|].
        exists 4503599627370496%positive, (ex + n1 + 1). split; [reflexivity|].
        split; [apply bounded_intro; change (Zdigits2 _) with 53; lia|].
        replace (ex + n1 + 1 + 1074) with (Z.succ (n1 + (ex + 1074))) by lia.
        rewrite Z.pow_succ_r by lia. lia.
      * right. split; [lia|reflexivity].
    + assert (Hd1 : Zdigits2 m1 = 53).
      { apply Zdigits2_unique; [|lia]. change (2 ^ (53 - 1)) with 4503599627370496.
        change (2 ^ 53) with 9007199254740992. lia. }
      unfold shr_fexp. rewrite fexp_eq, Hd1.
      replace (Z.max (53 + (ex + n1) - 53) (-1074) - (ex + n1)) with 0 by lia.
      cbn [shr shr_record_of_loc shr_m].
      destruct m1 as [|p|p] eqn:Ep; try lia.
      change (Py.emax - Py.prec) with 971.
      assert (Hdig : Zdigits2 (Z.pos p * 2 ^ (n1 + (ex + 1074))) = 53 + n1 + ex + 1074).
      { rewrite Zdigits2_mul_pow2 by lia. rewrite Hd1. lia. }
      destruct (Z.leb_spec (ex + n1) 971) as [L|L].
      * left. split; [lia|].
        exists p, (ex + n1). split; [reflexivity|].
        split; [apply bounded_intro; rewrite ?Hd1; lia|].
        f_equal. f_equal. lia.
      * right. split; [lia|reflexivity].
Qed.

Lemma iter_xO_pow m d : Z.pos (Pos.iter xO m d) = Z.pos m * 2 ^ Z.pos d.
Proof.
  induction d as [|d IH] using Pos.peano_ind.
  - change (Pos.iter xO m 1) with (m~0)%positive. change (2 ^ 1) with 2. lia.
  - rewrite Pos.iter_succ, Pos2Z.inj_xO, IH, Pos2Z.inj_succ, Z.pow_succ_r; lia.
Qed.

Lemma shl_align_spec mx ex ex' :
  forall mz ez, shl_align mx ex ex' = (mz, ez) ->
  ez = Z.min ex ex' /\ Z.pos mz = Z.pos mx * 2 ^ (ex - ez).
Proof.
  intros mz ez H. unfold shl_align in H.
  destruct (ex' - ex) as [|p|p] eqn:E; injection H as <- <-.
  - split; [lia|]. rewrite Z.sub_diag. lia.
  - split; [lia|]. rewrite Z.sub_diag. lia.
  - split; [lia|]. rewrite iter_xO_pow. f_equal. f_equal. lia.
Qed.

Lemma binary_round_exact s mx ex :
  -1074 <= ex ->
  rounds_to s (binary_round Py.prec Py.emax s mx ex) (rnd_int (Z.pos mx * 2 ^ (ex + 1074))).
Proof.
  intros He. unfold binary_round.
  destruct (shl_align mx ex _) as [mz ez] eqn:A.
  apply shl_align_spec in A. destruct A as [Ez Em].
  change (Z.pos (digits2_pos mx)) with (Zdigits2 (Z.pos mx)) in Ez.
  rewrite fexp_eq in Ez.
  assert (Hv : Z.pos mx * 2 ^ (ex + 1074) = Z.pos mz * 2 ^ (ez + 1074)).
  { rewrite Em, <- Z.mul_assoc, <- Z.pow_add_r by lia. f_equal. f_equal. lia. }
  rewrite Hv. apply binary_round_aux_exact; try lia.
  rewrite fexp_eq, Em, Zdigits2_mul_pow2 by lia. lia.
Qed.

Lemma binary_round_aux_sign s mx ex l :
  has_sign s (binary_round_aux Py.prec Py.emax s mx ex l).
Proof.
  unfold binary_round_aux.
  destruct (shr_fexp Py.prec Py.emax mx ex l) as [mrs1 e1].
  destruct (shr_fexp Py.prec Py.emax _ e1 loc_Exact) as [mrs2 e2].
  destruct (shr_m mrs2); [reflexivity| |exact I].
  destruct (e2 <=? Py.emax - Py.prec); reflexivity.
Qed.

Lemma round_nearest_even_bounds m l :
  m <= round_nearest_even m l <= m + 1.
Proof. destruct l as [|[]]; simpl; try destruct (Z.even m); lia. Qed.

(** A rounding whose input is below [2^1022] does not overflow. *)
Lemma binary_round_aux_finite s mx ex l :
  0 <= mx -> Zdigits2 mx + ex <= 1022 -> ex <= 971 ->
  forall s', binary_round_aux Py.prec Py.emax s mx ex l <> S754_infinity s'.
Proof.
  intros Hm Hd He s'. unfold binary_round_aux.
  destruct (shr_fexp Py.prec Py.emax mx ex l) as [mrs1 e1] eqn:S1.
  unfold shr_fexp in S1. rewrite fexp_eq in S1.
  apply shr_any_m in S1; [|destruct l as [|[]]; simpl; lia].
  destruct S1 as [M1 E1].
  replace (shr_m (shr_record_of_loc mx l)) with mx in M1 by (destruct l as [|[]]; reflexivity).
  remember (Z.max (Z.max (Zdigits2 mx + ex - 53) (-1074) - ex) 0) as n1 eqn:En1.
  pose proof (round_nearest_even_bounds (shr_m mrs1) (loc_of_shr_record mrs1)) as RB.
  remember (round_nearest_even (shr_m mrs1) (loc_of_shr_record mrs1)) as m1 eqn:Em1.
  destruct (shr_fexp Py.prec Py.emax m1 e1 loc_Exact) as [mrs2 e2] eqn:S2.
  unfold shr_fexp in S2. rewrite fexp_eq in S2.
  assert (Hn1 : 0 <= n1) by lia.
  assert (Hq : 0 <= shr_m mrs1).
  { rewrite M1. apply Z.div_pos; [lia|apply Z.pow_pos_nonneg; lia]. }
  apply shr_any_m in S2; [|simpl; lia]. destruct S2 as [M2 E2].
  destruct (shr_m mrs2) eqn:Em2'; try discriminate.
  change (Py.emax - Py.prec) with 971.
  destruct (Z.leb_spec e2 971) as [L|L]; [discriminate|]. exfalso.
  (* digits of the rounded mantissa *)
  assert (Hm1 : 0 < m1).
  { destruct (Z.eq_dec m1 0) as [Z0|]; [|lia].
    cbn [shr_record_of_loc shr_m] in M2. rewrite Z0, Z.div_0_l in M2; [lia|].
    apply Z.pow_nonzero; lia. }
  assert (Hdm : Zdigits2 m1 + e1 <= 1024).
  { destruct (Z.eq_dec mx 0) as [Z0|NZ].
    - subst mx. rewrite Z.div_0_l in M1 by (apply Z.pow_nonzero; lia).
      assert (m1 = 1) by lia. replace m1 with 1 by lia.
      change (Zdigits2 1) with 1. change (Zdigits2 0) with 0 in *. lia.
    - pose proof (Zdigits2_bounds mx ltac:(lia)) as [_ Hhi].
      pose proof (Zdigits2_pos mx ltac:(lia)) as Hdp.
      pose proof (Zdigits2_bounds m1 Hm1) as [Hlo1 _].
      pose proof (Zdigits2_pos m1 Hm1) as Hdp1.
      destruct (Z_le_gt_dec n1 (Zdigits2 mx)) as [Hs|Hs].
      + assert (shr_m mrs1 < 2 ^ (Zdigits2 mx - n1)).
        { rewrite M1. apply Z.div_lt_upper_bound; [apply Z.pow_pos_nonneg; lia|].
          rewrite <- Z.pow_add_r by lia.
          replace (n1 + (Zdigits2 mx - n1)) with (Zdigits2 mx) by lia. assumption. }
        assert (Zdigits2 m1 - 1 < Zdigits2 mx - n1 + 1).
        { apply pow2_lt_inv; [lia|]. rewrite Z.pow_add_r by lia. lia. }
        lia.
      + assert (shr_m mrs1 = 0).
        { rewrite M1. apply Z.div_small. split; [lia|].
          eapply Z.lt_le_trans; [exact Hhi|]. apply Z.pow_le_mono_r; lia. }
        assert (m1 = 1) by lia. replace m1 with 1 by lia.
        change (Zdigits2 1) with 1. lia. }
  cbn [shr_record_of_loc shr_m] in M2. lia.
Qed.

(* ================================================================== *)
(** ** Conversions and operations on the doubles of the scoring code *)

Lemma binary_round_sign s mx ex : has_sign s (binary_round Py.prec Py.emax s mx ex).
Proof.
  unfold binary_round. destruct (shl_align mx ex _) as [mz ez].
  apply binary_round_aux_sign.
Qed.

Lemma binary_round_finite s mx ex :
  Zdigits2 (Z.pos mx) + ex <= 1022 -> ex <= 971 ->
  forall s', binary_round Py.prec Py.emax s mx ex <> S754_infinity s'.
Proof.
  intros Hd He s'. unfold binary_round.
  destruct (shl_align mx ex _) as [mz ez] eqn:A.
  apply shl_align_spec in A. destruct A as [Ez Em].
  change (Z.pos (digits2_pos mx)) with (Zdigits2 (Z.pos mx)) in Ez.
  rewrite fexp_eq in Ez.
  apply binary_round_aux_finite; try lia.
  rewrite Em, Zdigits2_mul_pow2 by lia. lia.
Qed.

Lemma reprs_pos s F W : reprs s F W -> 0 < W.
Proof.
  intros (m & e & _ & B & <-). apply bounded_inv in B.
  apply Z.mul_pos_pos; [lia|apply Z.pow_pos_nonneg; lia].
Qed.

Lemma reprs_digits s F W : reprs s F W -> Zdigits2 W <= 2098.
Proof.
  intros (m & e & _ & B & <-). apply bounded_inv in B.
  rewrite Zdigits2_mul_pow2 by lia. lia.
Qed.

Lemma reprs_exact s F W : reprs s F W -> rnd_int W = W.
Proof.
  intros (m & e & _ & B & <-). apply bounded_inv in B.
  assert (Hp : 0 < Z.pos m * 2 ^ (e + 1074)).
  { apply Z.mul_pos_pos; [lia|apply Z.pow_pos_nonneg; lia]. }
  apply rnd_int_exact; [assumption|].
  rewrite Zdigits2_mul_pow2 by lia.
  replace (Z.max (Zdigits2 (Z.pos m) + (e + 1074) - 53) 0) with (e + 1074) by lia.
  apply Z.mod_mul. apply Z.pow_nonzero; lia.
Qed.

Lemma rounds_to_small s F W : rounds_to s F W -> Zdigits2 W <= 2098 -> reprs s F W.
Proof. intros [[_ H]|[H _]] N; [assumption|lia]. Qed.

Lemma rnd_int_pos V : 0 < V -> 0 < rnd_int V.
Proof.
  intros HV. pose proof (rnd_int_lower V HV).
  pose proof (Zdigits2_pos V HV).
  pose proof (Z.pow_pos_nonneg 2 (Zdigits2 V - 1) ltac:(lia) ltac:(lia)). lia.
Qed.

Lemma rnd_int_digits V k : 0 < V -> V < 2 ^ k -> Zdigits2 (rnd_int V) <= k + 1.
Proof.
  intros HV Hk. pose proof (rnd_int_upper V HV) as U.
  pose proof (rnd_int_pos V HV) as P.
  pose proof (Zdigits2_bounds V HV) as [L _]. pose proof (Zdigits2_pos V HV) as D.
  assert (Hdk : Zdigits2 V <= k).
  { destruct (Z_le_gt_dec 0 k) as [K|K].
    - enough (Zdigits2 V - 1 < k) by lia. apply pow2_lt_inv; lia.
    - rewrite Z.pow_neg_r in Hk by lia. lia. }
  pose proof (Zdigits2_bounds (rnd_int V) P) as [L' _].
  pose proof (Zdigits2_pos (rnd_int V) P).
  pose proof (Z.pow_le_mono_r 2 (Zdigits2 V) k ltac:(lia) Hdk).
  enough (Zdigits2 (rnd_int V) - 1 < k + 1) by lia.
  apply pow2_lt_inv; [lia|]. rewrite Z.pow_add_r by lia. lia.
Qed.

(** *** [float(z)] *)

Lemma float_of_int_0 : Py.float_of_int 0 = Py.Ok (S754_zero false).
Proof. reflexivity. Qed.

Lemma float_of_int_pos z F :
  0 < z -> Py.float_of_int z = Py.Ok F -> reprs false F (rnd_int (z * 2 ^ 1074)).
Proof.
  intros Hz H. destruct z as [|p|p]; try lia.
  unfold Py.float_of_int in H. cbn [binary_normalize] in H.
  pose proof (binary_round_exact false p 0 ltac:(lia)) as R.
  change (0 + 1074) with 1074 in R.
  destruct (binary_round Py.prec Py.emax false p 0) eqn:E; try discriminate;
    injection H as <-; destruct R as [[_ R]|[_ R]]; (assumption || discriminate).
Qed.

Lemma float_of_int_neg z F :
  z < 0 -> Py.float_of_int z = Py.Ok F -> nonpos F.
Proof.
  intros Hz H. destruct z as [|p|p]; try lia.
  unfold Py.float_of_int in H. cbn [binary_normalize] in H.
  pose proof (binary_round_sign true p 0) as R.
  destruct (binary_round Py.prec Py.emax true p 0) eqn:E; try discriminate;
    injection H as <-; simpl in *; auto.
Qed.

Lemma float_of_int_total z :
  Z.abs z < 2 ^ 1022 -> exists F, Py.float_of_int z = Py.Ok F.
Proof.
  intros Hz. unfold Py.float_of_int.
  destruct z as [|p|p]; cbn [binary_normalize].
  - eexists. reflexivity.
  - pose proof (binary_round_finite false p 0) as N.
    destruct (binary_round Py.prec Py.emax false p 0) eqn:E; try (eexists; reflexivity).
    exfalso. eapply N; [|lia|reflexivity].
    pose proof (Zdigits2_bounds (Z.pos p) ltac:(lia)) as [L _].
    enough (Zdigits2 (Z.pos p) - 1 < 1022) by lia. apply pow2_lt_inv; lia.
  - pose proof (binary_round_finite true p 0) as N.
    destruct (binary_round Py.prec Py.emax true p 0) eqn:E; try (eexists; reflexivity).
    exfalso. eapply N; [|lia|reflexivity].
    pose proof (Zdigits2_bounds (Z.pos p) ltac:(lia)) as [L _].
    enough (Zdigits2 (Z.pos p) - 1 < 1022) by lia. apply pow2_lt_inv; lia.
Qed.

(** Integers below [2^53] convert exactly. *)
Lemma rnd_int_small_int z : 0 < z < 2 ^ 53 -> rnd_int (z * 2 ^ 1074) = z * 2 ^ 1074.
Proof.
  intros Hz.
  pose proof (Zdigits2_bounds z ltac:(lia)) as [L _].
  pose proof (Zdigits2_pos z ltac:(lia)) as D.
  assert (Zdigits2 z <= 53).
  { enough (Zdigits2 z - 1 < 53) by lia. apply pow2_lt_inv; lia. }
  apply rnd_int_exact.
  - apply Z.mul_pos_pos; lia.
  - rewrite Zdigits2_mul_pow2 by lia.
    set (n := Z.max (Zdigits2 z + 1074 - 53) 0).
    rewrite (pow2_split 1074 n) by (unfold n; lia).
    rewrite Z.mul_assoc. apply Z.mod_mul. apply Z.pow_nonzero; unfold n; lia.
Qed.

Lemma float_of_int_small z F :
  0 < z < 2 ^ 53 -> Py.float_of_int z = Py.Ok F -> reprs false F (z * 2 ^ 1074).
Proof.
  intros Hz H. rewrite <- (rnd_int_small_int z Hz). apply float_of_int_pos; [lia|assumption].
Qed.

(** *** Comparisons with zero and between scores *)

Lemma gt_zero_reprs F W : reprs false F W -> Py.gt (Py.Float F) (Py.Int 0) = true.
Proof.
  intros (m & e & -> & _ & _). unfold Py.gt, Py.compare, Py.float_cmp_int.
  cbn [cond_Zopp]. destruct (Z.leb_spec 0 e); [|reflexivity].
  pose proof (Z.pow_pos_nonneg 2 e ltac:(lia) ltac:(lia)).
  destruct (Z.compare_spec (Z.pos m * 2 ^ e) 0); try nia; reflexivity.
Qed.

Lemma le_zero_reprs F W : reprs false F W -> Py.le (Py.Int 0) (Py.Float F) = true.
Proof.
  intros (m & e & -> & B & _). apply bounded_inv in B.
  unfold Py.le, Py.compare, Py.float_cmp_int. cbn [cond_Zopp option_map].
  destruct (Z.leb_spec 0 e); [|reflexivity].
  pose proof (Z.pow_pos_nonneg 2 e ltac:(lia) ltac:(lia)).
  destruct (Z.compare_spec (Z.pos m * 2 ^ e) 0); try nia; reflexivity.
Qed.

Lemma gt_zero_nonpos F : nonpos F -> Py.gt (Py.Float F) (Py.Int 0) = false.
Proof.
  unfold Py.gt, Py.compare, Py.float_cmp_int.
  destruct F as [s|s| |s m e]; cbn [nonpos]; intros H; subst; try reflexivity.
  cbn [cond_Zopp Z.opp]. destruct (Z.leb_spec 0 e); [|reflexivity].
  pose proof (Z.pow_pos_nonneg 2 e ltac:(lia) ltac:(lia)).
  destruct (Z.compare_spec (Z.neg m * 2 ^ e) 0); try nia; reflexivity.
Qed.

Lemma le_reprs F1 W1 F2 W2 :
  reprs false F1 W1 -> reprs false F2 W2 -> W1 <= W2 ->
  Py.le (Py.Float F1) (Py.Float F2) = true.
Proof.
  intros R1 R2 H. unfold Py.le, Py.compare. rewrite (reprs_compare _ _ _ _ R1 R2).
  destruct (Z.compare_spec W1 W2); try lia; reflexivity.
Qed.

Lemma num_val_le x W y W' :
  num_val x W -> num_val y W' -> W <= W' -> Py.le x y = true.
Proof.
  intros [[-> ->]|[Hx (F & -> & R)]] [[-> ->]|[Hy (G & -> & S)]] H; try lia.
  - reflexivity.
  - eapply le_zero_reprs; eassumption.
  - eapply le_reprs; eassumption.
Qed.

Lemma num_val_nonneg x W : num_val x W -> Py.le (Py.Int 0) x = true /\ 0 <= W.
Proof.
  intros [[-> ->]|[Hx (F & -> & R)]].
  - split; [reflexivity|lia].
  - split; [eapply le_zero_reprs; eassumption|lia].
Qed.

Lemma clamp_round_mono X Y : X <= Y -> clamp_round X <= clamp_round Y.
Proof.
  intros H. unfold clamp_round.
  destruct (Z.ltb_spec 0 X), (Z.ltb_spec 0 Y); try lia.
  - apply rnd_int_mono; lia.
  - pose proof (rnd_int_pos Y ltac:(lia)). lia.
Qed.

Lemma rnd_int_0 : rnd_int 0 = 0.
Proof. reflexivity. Qed.

Lemma rnd_int_mono0 V1 V2 : 0 <= V1 -> V1 <= V2 -> rnd_int V1 <= rnd_int V2.
Proof.
  intros H1 H12. destruct (Z.eq_dec V1 0) as [->|N].
  - rewrite rnd_int_0. destruct (Z.eq_dec V2 0) as [->|N2]; [rewrite rnd_int_0; lia|].
    pose proof (rnd_int_pos V2 ltac:(lia)). lia.
  - apply rnd_int_mono; lia.
Qed.

(** *** [float(s) * c] for a double [c] between 0 and 1/4 *)

Lemma mul_const_val fs Ws mc ec :
  reprs false fs Ws -> 2 ^ 1074 <= Ws ->
  Zdigits2 (Z.pos mc) = 53 -> -1000 <= ec <= -55 ->
  reprs false (SFmul Py.prec Py.emax fs (S754_finite false mc ec))
        (rnd_int (Ws * Z.pos mc / 2 ^ (- ec))).
Proof.
  intros (m & e & -> & B & <-) HW Hmc Hec.
  apply bounded_inv in B. destruct B as (He & Hd & Hc).
  pose proof (Zdigits2_bounds (Z.pos m) ltac:(lia)) as [Lm Um].
  pose proof (Zdigits2_bounds (Z.pos mc) ltac:(lia)) as [Lc Uc].
  rewrite Hmc in Lc, Uc.
  (* the value is at least one, so the exponent is not small *)
  assert (He' : -52 <= e).
  { destruct (Z_le_gt_dec (-52) e) as [|G]; [assumption|exfalso].
    assert (Z.pos m < 2 ^ 53).
    { eapply Z.lt_le_trans; [exact Um|apply Z.pow_le_mono_r; lia]. }
    assert (2 ^ (e + 1074) * 2 ^ 53 <= 2 ^ 1074).
    { rewrite <- Z.pow_add_r by lia. apply Z.pow_le_mono_r; lia. }
    pose proof (Z.pow_pos_nonneg 2 (e + 1074) ltac:(lia) ltac:(lia)). nia. }
  assert (Hdm : Zdigits2 (Z.pos m) = 53) by lia.
  rewrite Hdm in Lm, Um.
  change (2 ^ (53 - 1)) with 4503599627370496 in Lm, Lc.
  change (2 ^ 53) with 9007199254740992 in Um, Uc.
  (* the exact product *)
  assert (EV : Z.pos m * 2 ^ (e + 1074) * Z.pos mc / 2 ^ (- ec)
               = Z.pos (m * mc) * 2 ^ (e + ec + 1074)).
  { rewrite (pow2_split (e + 1074) (- ec)) by lia.
    replace (e + 1074 - - ec) with (e + ec + 1074) by lia.
    rewrite Pos2Z.inj_mul.
    replace (Z.pos m * (2 ^ (e + ec + 1074) * 2 ^ (- ec)) * Z.pos mc)
      with (Z.pos m * Z.pos mc * 2 ^ (e + ec + 1074) * 2 ^ (- ec)) by ring.
    apply Z.div_mul. apply Z.pow_nonzero; lia. }
  rewrite EV. cbn [SFmul xorb].
  assert (Hprod : 2 ^ 104 <= Z.pos (m * mc) < 2 ^ 106).
  { rewrite Pos2Z.inj_mul. change (2 ^ 104) with (4503599627370496 * 4503599627370496).
    change (2 ^ 106) with (9007199254740992 * 9007199254740992). nia. }
  assert (Hdp : 105 <= Zdigits2 (Z.pos (m * mc))).
  { change 105 with (Zdigits2 (2 ^ 104)). apply Zdigits2_le; [reflexivity|lia]. }
  apply rounds_to_small.
  - apply binary_round_aux_exact; try lia. rewrite fexp_eq. lia.
  - apply (Z.le_trans _ (106 + (e + ec + 1074) + 1)); [|lia].
    apply rnd_int_digits.
    + apply Z.mul_pos_pos; [lia|apply Z.pow_pos_nonneg; lia].
    + rewrite (Z.pow_add_r 2 106 (e + ec + 1074)) by lia.
      apply Z.mul_lt_mono_pos_r; [apply Z.pow_pos_nonneg; lia|lia].
Qed.

Lemma fval_nonneg t T : fval t T -> 0 <= T.
Proof. intros [[_ ->]|[H _]]; lia. Qed.

Lemma mul_int_const s mc ec r :
  0 <= s -> Zdigits2 (Z.pos mc) = 53 -> -1000 <= ec <= -55 ->
  Py.mul (Py.Int s) (Py.Float (S754_finite false mc ec)) = Py.Ok r ->
  exists t, r = Py.Float t /\ fval t (scaled_val (Z.pos mc) (- ec) s).
Proof.
  intros Hs Hmc Hec H. unfold Py.mul, Py.to_float in H.
  destruct (Py.float_of_int s) as [fs|] eqn:E; cbn [Py.bind] in H; [|discriminate].
  injection H as <-. eexists. split; [reflexivity|].
  unfold scaled_val. destruct (Z.eqb_spec s 0) as [->|N].
  - rewrite float_of_int_0 in E. injection E as <-. left. split; reflexivity.
  - pose proof (float_of_int_pos s fs ltac:(lia) E) as R.
    assert (HW : 2 ^ 1074 <= rnd_int (s * 2 ^ 1074)).
    { replace (2 ^ 1074) with (rnd_int (1 * 2 ^ 1074)) at 1
        by (apply rnd_int_small_int; split; reflexivity).
      apply rnd_int_mono; [reflexivity|]. apply Z.mul_le_mono_nonneg_r; lia. }
    pose proof (mul_const_val fs _ mc ec R HW Hmc Hec) as M.
    right. split; [eapply reprs_pos; eassumption|assumption].
Qed.

Lemma scaled_val_mono mc k s s' :
  0 < mc -> 0 <= k -> 0 <= s <= s' -> scaled_val mc k s <= scaled_val mc k s'.
Proof.
  intros Hm Hk Hs. unfold scaled_val.
  assert (HN : forall z, 0 <= z -> 0 <= rnd_int (z * 2 ^ 1074) * mc / 2 ^ k).
  { intros z Hz. apply Z.div_pos; [|apply Z.pow_pos_nonneg; lia].
    apply Z.mul_nonneg_nonneg; [|lia].
    rewrite <- rnd_int_0. apply rnd_int_mono0; lia. }
  destruct (Z.eqb_spec s 0) as [->|N], (Z.eqb_spec s' 0) as [->|N']; try lia.
  - rewrite <- rnd_int_0 at 1. apply rnd_int_mono0; [lia|]. apply HN; lia.
  - apply rnd_int_mono0; [apply HN; lia|].
    apply Z.div_le_mono; [apply Z.pow_pos_nonneg; lia|].
    apply Z.mul_le_mono_nonneg_r; [lia|].
    apply rnd_int_mono0; [lia|]. apply Z.mul_le_mono_nonneg_r; lia.
Qed.

(** *** [max(0, float(I) - t)] *)

Lemma has_sign_nonpos F : has_sign true F -> nonpos F.
Proof. destruct F; simpl; auto. Qed.

Lemma sub_nonpos x t :
  nonpos x -> (t = S754_zero false \/ exists m e, t = S754_finite false m e) ->
  nonpos (SFsub Py.prec Py.emax x t).
Proof.
  intros Hx [->|(m & e & ->)]; destruct x as [sx|sx| |sx mx ex]; cbn in Hx |- *;
    subst; try exact I; try reflexivity.
  - destruct sx; exact I.
  - apply has_sign_nonpos.
    destruct (shl_align mx ex _) as [a ?], (shl_align m e _) as [b ?]. cbn [fst].
    change (Z.neg a - Z.pos b) with (Z.neg (a + b)). cbn [binary_normalize].
    apply binary_round_sign.
Qed.

Lemma sub_val fI VI t T :
  reprs false fI VI -> fval t T ->
  (0 < VI - T -> reprs false (SFsub Py.prec Py.emax fI t) (rnd_int (VI - T))) /\
  (VI - T <= 0 -> nonpos (SFsub Py.prec Py.emax fI t)).
Proof.
  intros RI Ft.
  pose proof (reprs_pos _ _ _ RI) as PI. pose proof (reprs_exact _ _ _ RI) as EI.
  pose proof (reprs_digits _ _ _ RI) as DI.
  destruct Ft as [[-> ->]|[PT RT]].
  - rewrite Z.sub_0_r, EI. destruct RI as (m & e & -> & B & <-). cbn [SFsub].
    split; [intros _; exists m, e; auto|lia].
  - pose proof RI as RI'. destruct RI as (m & e & -> & B & EVI).
    destruct RT as (mt & et & -> & Bt & EVT).
    pose proof (bounded_inv _ _ B) as (He & _). pose proof (bounded_inv _ _ Bt) as (Het & _).
    cbn [SFsub cond_Zopp].
    destruct (shl_align m e (Z.min e et)) as [a ea] eqn:A1.
    destruct (shl_align mt et (Z.min e et)) as [b eb] eqn:A2. cbn [fst].
    apply shl_align_spec in A1, A2. destruct A1 as [Ea Ha], A2 as [Eb Hb].
    set (ez := Z.min e et) in *.
    assert (EX : VI - T = (Z.pos a - Z.pos b) * 2 ^ (ez + 1074)).
    { rewrite <- EVI, <- EVT, Ha, Hb, Z.mul_sub_distr_r.
      rewrite <- !Z.mul_assoc, <- !Z.pow_add_r by lia.
      f_equal; f_equal; f_equal; lia. }
    pose proof (Z.pow_pos_nonneg 2 (ez + 1074) ltac:(lia) ltac:(lia)) as HP.
    destruct (Z.pos a - Z.pos b) as [|d|d] eqn:ED; cbn [binary_normalize].
    + split; [lia|intros _; exact I].
    + split; [intros HX|nia].
      rewrite EX. apply rounds_to_small; [apply binary_round_exact; lia|].
      rewrite <- EX.
      apply (Z.le_trans _ (Zdigits2 VI)); [|assumption].
      apply Zdigits2_le; [apply rnd_int_pos; lia|].
      rewrite <- EI. apply rnd_int_mono; lia.
    + split; [nia|intros _]. apply has_sign_nonpos, binary_round_sign.
Qed.

Lemma max_zero_float_pos F W :
  reprs false F W -> Py.max (Py.Int 0) (Py.Float F) = Py.Float F.
Proof. intros R. unfold Py.max. now rewrite (gt_zero_reprs F W R). Qed.

Lemma max_zero_float_nonpos F :
  nonpos F -> Py.max (Py.Int 0) (Py.Float F) = Py.Int 0.
Proof. intros R. unfold Py.max. now rewrite (gt_zero_nonpos F R). Qed.

Lemma max_zero_int a : Py.max (Py.Int 0) (Py.Int a) = Py.Int (Z.max 0 a).
Proof.
  unfold Py.max, Py.gt, Py.compare.
  destruct (Z.compare_spec a 0); f_equal; lia.
Qed.

Lemma clamp_sub I fI t T :
  I < 2 ^ 53 -> Py.float_of_int I = Py.Ok fI -> fval t T ->
  num_val (Py.max (Py.Int 0) (Py.Float (SFsub Py.prec Py.emax fI t)))
          (clamp_round (I * 2 ^ 1074 - T)).
Proof.
  intros HI EI Ft. pose proof (fval_nonneg _ _ Ft) as HT.
  assert (Ht : t = S754_zero false \/ exists m e, t = S754_finite false m e).
  { destruct Ft as [[-> _]|[_ (m & e & -> & _)]]; [left|right; exists m, e]; reflexivity. }
  unfold clamp_round.
  destruct (Z_lt_le_dec 0 I) as [P|N].
  - pose proof (float_of_int_small I fI ltac:(lia) EI) as RI.
    destruct (sub_val _ _ _ _ RI Ft) as [Hpos Hneg].
    destruct (Z.ltb_spec 0 (I * 2 ^ 1074 - T)) as [X|X].
    + specialize (Hpos X). rewrite (max_zero_float_pos _ _ Hpos).
      right. split; [eapply reprs_pos; eassumption|]. eexists. split; [reflexivity|assumption].
    + rewrite (max_zero_float_nonpos _ (Hneg X)). left. split; reflexivity.
  - assert (NI : nonpos fI).
    { destruct (Z.eq_dec I 0) as [->|NZ].
      - rewrite float_of_int_0 in EI. injection EI as <-. exact I.
      - apply (float_of_int_neg I); [lia|assumption]. }
    rewrite (max_zero_float_nonpos _ (sub_nonpos _ _ NI Ht)).
    destruct (Z.ltb_spec 0 (I * 2 ^ 1074 - T)) as [X|X]; [nia|].
    left. split; reflexivity.
Qed.

Lemma SFmul_comm x y : SFmul Py.prec Py.emax x y = SFmul Py.prec Py.emax y x.
Proof.
  destruct x as [sx|sx| |sx mx ex], y as [sy|sy| |sy my ey]; cbn [SFmul];
    rewrite ?(xorb_comm sx sy); try reflexivity.
  now rewrite (Pos.mul_comm mx my), (Z.add_comm ex ey).
Qed.

(* ================================================================== *)
(** ** Integer true division *)

Lemma div_core_spec mx my :
  let e' := Z.min (fexp Py.prec Py.emax (Zdigits2 (Z.pos mx) - Zdigits2 (Z.pos my))) 0 in
  SFdiv_core_binary Py.prec Py.emax (Z.pos mx) 0 (Z.pos my) 0
  = ((Z.pos mx * 2 ^ (- e')) / Z.pos my, e',
     new_location (Z.pos my) ((Z.pos mx * 2 ^ (- e')) mod Z.pos my)).
Proof.
  cbv zeta. unfold SFdiv_core_binary.
  rewrite !Z.add_0_r. change (0 - 0) with 0.
  set (e' := Z.min _ 0). rewrite Z.sub_0_l.
  assert (He : e' <= 0) by (unfold e'; lia).
  assert (Hm : match - e' with
               | 0 => Z.pos mx
               | Z.pos _ => Z.shiftl (Z.pos mx) (- e')
               | Z.neg _ => 0
               end = Z.pos mx * 2 ^ (- e')).
  { destruct (- e') as [|p|p] eqn:E; try lia.
    apply Z.shiftl_mul_pow2. lia. }
  rewrite Hm. unfold Z.div, Z.modulo.
  destruct (Z.div_eucl _ _) as [q r]. reflexivity.
Qed.

Lemma int_truediv_zero b : b <> 0 -> exists s, Py.int_truediv 0 b = Py.Ok (S754_zero s).
Proof.
  intros Hb. unfold Py.int_truediv. destruct (Z.eqb_spec b 0); [contradiction|].
  destruct b; [contradiction| |]; eexists; reflexivity.
Qed.

Lemma div_finite s mx my :
  Zdigits2 (Z.pos mx) <= 1022 ->
  forall s', SFdiv Py.prec Py.emax (S754_finite s mx 0) (S754_finite s' my 0)
             <> S754_infinity (xorb s s') /\
             SFdiv Py.prec Py.emax (S754_finite s mx 0) (S754_finite s' my 0)
             <> S754_infinity (negb (xorb s s')).
Proof.
  intros Hd s'. cbn [SFdiv]. rewrite div_core_spec. cbv zeta.
  set (e' := Z.min _ 0). assert (He : e' <= 0) by (unfold e'; lia).
  set (q := Z.pos mx * 2 ^ (- e') / Z.pos my).
  pose proof (Z.pow_pos_nonneg 2 (- e') ltac:(lia) ltac:(lia)) as HP.
  assert (Hq : 0 <= q) by (apply Z.div_pos; nia).
  assert (Hdq : Zdigits2 q + e' <= 1022).
  { destruct (Z.eq_dec q 0) as [->|N]; [change (Zdigits2 0) with 0; lia|].
    assert (q <= Z.pos mx * 2 ^ (- e')).
    { unfold q. apply Z.div_le_upper_bound; [lia|]. nia. }
    pose proof (Zdigits2_le q _ ltac:(lia) H) as L.
    rewrite Zdigits2_mul_pow2 in L by lia. lia. }
  split; apply binary_round_aux_finite; lia.
Qed.

Lemma int_truediv_total a b :
  b <> 0 -> Z.abs a < 2 ^ 1022 -> exists q, Py.int_truediv a b = Py.Ok q.
Proof.
  intros Hb Ha. destruct (Z.eq_dec a 0) as [->|Na].
  - destruct (int_truediv_zero b Hb) as [s E]. eauto.
  - unfold Py.int_truediv. destruct (Z.eqb_spec b 0); [contradiction|].
    assert (Hd : forall p, Z.pos p < 2 ^ 1022 -> Zdigits2 (Z.pos p) <= 1022).
    { intros p Hp. pose proof (Zdigits2_bounds (Z.pos p) ltac:(lia)) as [L _].
      enough (Zdigits2 (Z.pos p) - 1 < 1022) by lia. apply pow2_lt_inv; lia. }
    destruct a as [|p|p], b as [|p'|p']; try contradiction; cbn [Py.raw_of_int];
      match goal with
      | |- context [SFdiv _ _ (S754_finite ?s p 0) (S754_finite ?s' p' 0)] =>
          pose proof (div_finite s p p' ltac:(apply Hd; lia) s') as [N1 N2];
          destruct (SFdiv Py.prec Py.emax (S754_finite s p 0) (S754_finite s' p' 0))
            as [| [|] | |] eqn:E; try (eexists; reflexivity); exfalso;
          cbn in N1, N2; congruence
      end.
Qed.

(** The location of a remainder does not change when the dividend and the
    divisor are scaled together. *)
Lemma new_location_scale c k r :
  0 < c -> 0 < k -> 0 <= r < k -> new_location (k * c) (c * r) = new_location k r.
Proof.
  intros Hc Hk Hr. unfold new_location. rewrite Z.even_mul.
  assert (Heq : (c * r =? 0) = (r =? 0)).
  { destruct (Z.eqb_spec (c * r) 0), (Z.eqb_spec r 0); try reflexivity; nia. }
  assert (HA : 2 * r + 1 <= k -> 2 * (c * r) + c <= k * c) by nia.
  assert (HB : k + 1 <= 2 * r -> k * c + c <= 2 * (c * r)) by nia.
  assert (HC : 2 * r = k -> 2 * (c * r) = k * c) by nia.
  destruct (Z.even k) eqn:Ek; cbn [orb]; [|destruct (Z.even c)];
    unfold new_location_even, new_location_odd; rewrite Heq;
    destruct (Z.eqb_spec r 0) as [E0|N0]; try reflexivity; f_equal.
  - destruct (Z.compare_spec (2 * r) k), (Z.compare_spec (2 * (c * r)) (k * c));
      try reflexivity; lia.
  - assert (Hodd : k mod 2 = 1).
    { rewrite <- Z.negb_odd in Ek. apply negb_false_iff in Ek.
      rewrite Zodd_mod in Ek. now apply Z.eqb_eq in Ek. }
    assert (Hne : 2 * r <> k).
    { intros E. rewrite <- E, Z.mul_comm, Z.mod_mul in Hodd; lia. }
    destruct (Z.compare_spec (2 * r + 1) k), (Z.compare_spec (2 * (c * r)) (k * c));
      try reflexivity; lia.
  - destruct (Z.compare_spec (2 * r + 1) k), (Z.compare_spec (2 * (c * r) + 1) (k * c));
      try reflexivity; lia.
Qed.

Lemma digits_scale c k :
  0 < c -> 0 < k ->
  Zdigits2 (k * c) - Zdigits2 c = Zdigits2 k - 1 \/ Zdigits2 (k * c) - Zdigits2 c = Zdigits2 k.
Proof.
  intros Hc Hk.
  pose proof (Zdigits2_bounds c Hc) as [Lc Uc]. pose proof (Zdigits2_pos c Hc) as Dc.
  pose proof (Zdigits2_bounds k Hk) as [Lk Uk]. pose proof (Zdigits2_pos k Hk) as Dk.
  pose proof (Zdigits2_bounds (k * c) ltac:(nia)) as [L U].
  pose proof (Zdigits2_pos (k * c) ltac:(nia)) as D.
  assert (Zdigits2 (k * c) - 1 < Zdigits2 k + Zdigits2 c).
  { apply pow2_lt_inv; [lia|]. rewrite Z.pow_add_r by lia.
    pose proof (Z.pow_pos_nonneg 2 (Zdigits2 k) ltac:(lia) ltac:(lia)). nia. }
  assert (Zdigits2 k - 1 + (Zdigits2 c - 1) < Zdigits2 (k * c)).
  { apply pow2_lt_inv; [lia|]. rewrite Z.pow_add_r by lia.
    pose proof (Z.pow_pos_nonneg 2 (Zdigits2 k - 1) ltac:(lia) ltac:(lia)).
    pose proof (Z.pow_pos_nonneg 2 (Zdigits2 c - 1) ltac:(lia) ltac:(lia)). nia. }
  lia.
Qed.

(** The quotient [c / (k * c)], from the digit count of [k * c]. *)
Lemma div_scaled c k :
  0 < c -> 0 < k ->
  let s := - Z.min (fexp Py.prec Py.emax (Zdigits2 c - Zdigits2 (k * c))) 0 in
  SFdiv Py.prec Py.emax (Py.raw_of_int c) (Py.raw_of_int (k * c))
  = binary_round_aux Py.prec Py.emax false (2 ^ s / k) (- s) (new_location k (2 ^ s mod k)).
Proof.
  intros Hc Hk. cbv zeta.
  destruct c as [|pc|pc]; try lia. destruct (k * Z.pos pc) as [|pk|pk] eqn:Ek; try lia.
  cbn [Py.raw_of_int SFdiv xorb]. rewrite div_core_spec. cbv zeta.
  set (e' := Z.min _ 0). assert (He : e' <= 0) by (unfold e'; lia).
  rewrite Z.opp_involutive.
  pose proof (Z.pow_pos_nonneg 2 (- e') ltac:(lia) ltac:(lia)) as HP.
  rewrite <- Ek.
  rewrite (Z.mul_comm k (Z.pos pc)), Z.div_mul_cancel_l, Z.mul_mod_distr_l by lia.
  rewrite (Z.mul_comm (Z.pos pc) k), new_location_scale;
    [reflexivity|lia|lia|apply Z.mod_pos_bound; lia].
Qed.

Lemma int_truediv_scaled c k F :
  0 < c -> 0 < k ->
  (forall j, j = Zdigits2 k - 1 \/ j = Zdigits2 k ->
     let s := - Z.min (fexp Py.prec Py.emax (- j)) 0 in
     binary_round_aux Py.prec Py.emax false (2 ^ s / k) (- s) (new_location k (2 ^ s mod k))
     = F) ->
  (forall s, F <> S754_infinity s) ->
  Py.int_truediv c (k * c) = Py.Ok F.
Proof.
  intros Hc Hk HF Hfin. unfold Py.int_truediv.
  destruct (Z.eqb_spec (k * c) 0); [nia|].
  rewrite (div_scaled c k Hc Hk). cbv zeta.
  replace (Zdigits2 c - Zdigits2 (k * c)) with (- (Zdigits2 (k * c) - Zdigits2 c)) by lia.
  rewrite (HF _ (digits_scale c k Hc Hk)).
  destruct F; try reflexivity. exfalso. eapply Hfin. reflexivity.
Qed.

Lemma int_truediv_100 c : 0 < c -> Py.int_truediv c (100 * c) = Py.Ok Py.f_0_01.
Proof.
  intros Hc. apply int_truediv_scaled; try lia; try discriminate.
  intros j [->| ->]; vm_compute; reflexivity.
Qed.

Lemma int_truediv_20 c : 0 < c -> Py.int_truediv c (20 * c) = Py.Ok Py.f_0_05.
Proof.
  intros Hc. apply int_truediv_scaled; try lia; try discriminate.
  intros j [->| ->]; vm_compute; reflexivity.
Qed.

Lemma int_truediv_10 c : 0 < c -> Py.int_truediv c (10 * c) = Py.Ok Py.f_0_1.
Proof.
  intros Hc. apply int_truediv_scaled; try lia; try discriminate.
  intros j [->| ->]; vm_compute; reflexivity.
Qed.

Lemma int_truediv_5 c : 0 < c -> Py.int_truediv c (5 * c) = Py.Ok Py.f_0_2.
Proof.
  intros Hc. apply int_truediv_scaled; try lia; try discriminate.
  intros j [->| ->]; vm_compute; reflexivity.
Qed.

(* ================================================================== *)
(** ** Correct rounding of the true division *)

Lemma rnd_div_bounds A D : A / D <= rnd_div A D <= A / D + 1.
Proof.
  unfold rnd_div. cbv zeta.
  destruct (2 * (A mod D) ?= D); [destruct (Z.even _)| |]; lia.
Qed.

Lemma rnd_div_pow2 m n : rnd_div m (2 ^ n) = rne m n.
Proof. reflexivity. Qed.

Lemma div_cross_le A D A' D' :
  0 < D -> 0 < D' -> A * D' <= A' * D -> A / D <= A' / D'.
Proof.
  intros HD HD' H.
  pose proof (Z.div_mod A D ltac:(lia)) as E.
  pose proof (Z.mod_pos_bound A D HD) as B.
  apply Z.div_le_lower_bound; [assumption|].
  nia.
Qed.

Lemma rnd_div_mono A D A' D' :
  0 < D -> 0 < D' -> A * D' <= A' * D -> rnd_div A D <= rnd_div A' D'.
Proof.
  intros HD HD' H.
  pose proof (div_cross_le A D A' D' HD HD' H) as Hq.
  pose proof (rnd_div_bounds A D) as B. pose proof (rnd_div_bounds A' D') as B'.
  destruct (Z.eq_dec (A / D) (A' / D')) as [E|E]; [|lia].
  pose proof (Z.div_mod A D ltac:(lia)) as EA.
  pose proof (Z.mod_pos_bound A D HD) as RA.
  pose proof (Z.div_mod A' D' ltac:(lia)) as EA'.
  pose proof (Z.mod_pos_bound A' D' HD') as RA'.
  assert (Hr : (A mod D) * D' <= (A' mod D') * D) by nia.
  unfold rnd_div. cbv zeta. rewrite <- E.
  destruct (Z.compare_spec (2 * (A mod D)) D) as [C|C|C];
    destruct (Z.compare_spec (2 * (A' mod D')) D') as [C'|C'|C'];
    try destruct (Z.even (A / D)); try lia; exfalso; nia.
Qed.

Lemma rnd_div_scale A D c : 0 < D -> 0 < c -> rnd_div (A * c) (D * c) = rnd_div A D.
Proof.
  intros HD Hc. unfold rnd_div. cbv zeta.
  rewrite Z.div_mul_cancel_r by lia.
  rewrite Z.mul_mod_distr_r by lia.
  replace (2 * (A mod D * c)) with (2 * (A mod D) * c) by ring.
  rewrite <- (Zmult_compare_compat_r (2 * (A mod D)) D c) by lia.
  reflexivity.
Qed.

Lemma rnd_div_exact Y b n :
  0 < b -> 0 <= n -> rnd_div (Y * b) (b * 2 ^ n) = rne Y n.
Proof.
  intros Hb Hn. pose proof (Z.pow_pos_nonneg 2 n ltac:(lia) Hn) as HP.
  rewrite (Z.mul_comm b), rnd_div_scale by lia. reflexivity.
Qed.

Lemma new_location_cases b r :
  0 < b -> new_location b r = if r =? 0 then loc_Exact else loc_Inexact (2 * r ?= b).
Proof.
  intros Hb. unfold new_location, new_location_even, new_location_odd.
  destruct (Z.even b) eqn:Ev; [reflexivity|].
  destruct (r =? 0); [reflexivity|]. f_equal.
  assert (Ho : Z.odd b = true) by (rewrite <- Z.negb_even, Ev; reflexivity).
  apply Z.odd_spec in Ho. destruct Ho as [k Hk].
  destruct (Z.compare_spec (2 * r + 1) b); destruct (Z.compare_spec (2 * r) b);
    try reflexivity; lia.
Qed.

(** The quotient with its two extra bits rounds like the rational. *)
Lemma rne_loc_code A b k :
  0 <= A -> 0 < b -> 0 <= k ->
  rne (4 * (A / b) + loc_code (new_location b (A mod b))) (k + 2)
  = rnd_div A (b * 2 ^ k).
Proof.
  intros HA Hb Hk.
  pose proof (Z.pow_pos_nonneg 2 k ltac:(lia) Hk) as HP.
  pose proof (Z.div_mod A b ltac:(lia)) as EA.
  pose proof (Z.mod_pos_bound A b Hb) as RA.
  set (q := A / b) in *. set (r := A mod b) in *.
  pose proof (Z.div_mod q (2 ^ k) ltac:(lia)) as EQq.
  pose proof (Z.mod_pos_bound q (2 ^ k) HP) as Rq.
  set (Q := q / 2 ^ k) in *. set (R := q mod 2 ^ k) in *.
  rewrite new_location_cases by assumption.
  set (c := loc_code _).
  assert (Hc : 0 <= c <= 3 /\ (c = 0 <-> r = 0) /\
               ((c ?= 2) = if r =? 0 then Lt else (2 * r ?= b))).
  { unfold c. destruct (Z.eqb_spec r 0) as [E|E]; cbn [loc_code].
    - repeat split; try lia.
    - destruct (Z.compare_spec (2 * r) b); cbn [loc_code]; repeat split; try lia. }
  destruct Hc as (Hc1 & Hc0 & Hc2).
  assert (D1 : (4 * q + c) / 2 ^ (k + 2) = Q).
  { rewrite Z.pow_add_r by lia. change (2 ^ 2) with 4.
    symmetry. apply (Z.div_unique _ _ Q (4 * R + c)); [nia|nia]. }
  assert (M1 : (4 * q + c) mod 2 ^ (k + 2) = 4 * R + c).
  { rewrite Z.pow_add_r by lia. change (2 ^ 2) with 4.
    symmetry. apply (Z.mod_unique _ _ Q (4 * R + c)); [nia|nia]. }
  assert (D2 : A / (b * 2 ^ k) = Q).
  { symmetry. apply (Z.div_unique _ _ Q (R * b + r)); [nia|nia]. }
  assert (M2 : A mod (b * 2 ^ k) = R * b + r).
  { symmetry. apply (Z.mod_unique _ _ Q (R * b + r)); [nia|nia]. }
  unfold rne, rnd_div. cbv zeta. rewrite D1, M1, D2, M2.
  assert (HC : (2 * (4 * R + c) ?= 2 ^ (k + 2)) = (2 * (R * b + r) ?= b * 2 ^ k)).
  { rewrite Z.pow_add_r by lia. change (2 ^ 2) with 4.
    destruct (Z.eq_dec k 0) as [K|K].
    - (* no shift: the code against 2 *)
      subst k. change (2 ^ 0) with 1 in *. assert (R = 0) by lia.
      replace (2 * (4 * R + c)) with (2 * c) by lia.
      replace (2 * (R * b + r)) with (2 * r) by nia.
      replace (b * 1) with b by lia. change (1 * 4) with (2 * 2).
      rewrite <- (Zmult_compare_compat_l c 2 2) by lia. rewrite Hc2.
      destruct (Z.eqb_spec r 0) as [E|E]; [|reflexivity].
      symmetry. apply Z.compare_lt_iff. lia.
    - assert (Ev : exists h, 2 ^ k = 2 * h).
      { exists (2 ^ (k - 1)). rewrite <- Z.pow_succ_r by lia. f_equal. lia. }
      destruct Ev as [h Eh].
      destruct (Z.compare_spec R h) as [C|C|C].
      + (* exactly half: decided by the low bits *)
        destruct (Z.eq_dec r 0) as [Z|NZ].
        * assert (c = 0) by (apply Hc0; assumption).
          transitivity Datatypes.Eq; [apply Z.compare_eq_iff; lia|symmetry; apply Z.compare_eq_iff; nia].
        * assert (c <> 0) by (intros X; apply Hc0 in X; contradiction).
          transitivity Gt; [apply Z.compare_gt_iff; lia|symmetry; apply Z.compare_gt_iff; nia].
      + transitivity Lt; [apply Z.compare_lt_iff; lia|symmetry; apply Z.compare_lt_iff; nia].
      + transitivity Gt; [apply Z.compare_gt_iff; lia|symmetry; apply Z.compare_gt_iff; nia]. }
  rewrite HC. reflexivity.
Qed.

Lemma shr_record_two q l :
  0 < q ->
  Nat.iter 2 shr_1 (Build_shr_record (4 * q + loc_code l) false false)
  = shr_record_of_loc q l.
Proof.
  destruct q as [|p|p]; try lia. intros _. destruct l as [|[| |]]; reflexivity.
Qed.

Lemma Zdigits2_quad q c : 0 < q -> 0 <= c <= 3 -> Zdigits2 (4 * q + c) = Zdigits2 q + 2.
Proof.
  intros Hq Hc. pose proof (Zdigits2_bounds q Hq) as [L U].
  pose proof (Zdigits2_pos q Hq) as P.
  apply Zdigits2_unique; [|lia].
  replace (Zdigits2 q + 2 - 1) with (Zdigits2 q - 1 + 2) by lia.
  rewrite !Z.pow_add_r by lia. change (2 ^ 2) with 4. lia.
Qed.

Lemma loc_code_range l : 0 <= loc_code l <= 3.
Proof. destruct l as [|[| |]]; cbn; lia. Qed.

Lemma shr_fexp_loc q e l :
  0 < q -> e <= fexp Py.prec Py.emax (Zdigits2 q + e) ->
  shr_fexp Py.prec Py.emax q e l
  = shr_fexp Py.prec Py.emax (4 * q + loc_code l) (e - 2) loc_Exact.
Proof.
  intros Hq He. unfold shr_fexp.
  rewrite (Zdigits2_quad q _ Hq (loc_code_range l)).
  replace (Zdigits2 q + 2 + (e - 2)) with (Zdigits2 q + e) by lia.
  set (f := fexp Py.prec Py.emax (Zdigits2 q + e)) in *.
  cbn [shr_record_of_loc].
  rewrite <- (shr_record_two q l Hq).
  destruct (f - e) as [|p|p] eqn:E; try lia.
  - replace (f - (e - 2)) with 2 by lia. cbn [shr]. rewrite iter_pos_nat.
    f_equal. lia.
  - replace (f - (e - 2)) with (Z.pos (p + 2)) by lia. cbn [shr].
    rewrite !iter_pos_nat, Pos2Nat.inj_add, Nat.iter_add. f_equal. lia.
Qed.

Lemma binary_round_aux_loc s q e l :
  0 < q -> e <= fexp Py.prec Py.emax (Zdigits2 q + e) ->
  binary_round_aux Py.prec Py.emax s q e l
  = binary_round_aux Py.prec Py.emax s (4 * q + loc_code l) (e - 2) loc_Exact.
Proof.
  intros Hq He. unfold binary_round_aux. now rewrite shr_fexp_loc.
Qed.

Lemma Zdigits2_lt_pow z k : 0 < z -> z < 2 ^ k -> Zdigits2 z <= k.
Proof.
  intros Hz H. pose proof (Zdigits2_bounds z Hz) as [L _].
  destruct (Z_lt_le_dec k 0) as [N|N].
  - rewrite Z.pow_neg_r in H by assumption. lia.
  - enough (Zdigits2 z - 1 < k) by lia. apply pow2_lt_inv; lia.
Qed.

Lemma Zdigits2_ge_pow z k : 0 <= k -> 2 ^ k <= z -> k + 1 <= Zdigits2 z.
Proof.
  intros Hk H. pose proof (Z.pow_pos_nonneg 2 k ltac:(lia) Hk).
  pose proof (Zdigits2_bounds z ltac:(lia)) as [_ U].
  pose proof (Zdigits2_pos z ltac:(lia)).
  enough (k < Zdigits2 z) by lia. apply pow2_lt_inv; lia.
Qed.

Lemma div_scale_bounds A b P lo hi :
  0 < b -> 0 < P -> lo <= A / b < hi -> lo * P <= A * P / b < hi * P.
Proof.
  intros Hb HP [L U].
  pose proof (Z.div_mod A b ltac:(lia)) as E.
  pose proof (Z.mod_pos_bound A b Hb) as R.
  assert (L' : b * lo <= A) by nia.
  assert (U' : A < b * hi) by nia.
  split.
  - apply Z.div_le_lower_bound; [assumption|].
    replace (b * (lo * P)) with (b * lo * P) by ring.
    apply Z.mul_le_mono_nonneg_r; lia.
  - apply Z.div_lt_upper_bound; [assumption|].
    replace (b * (hi * P)) with (b * hi * P) by ring.
    apply Z.mul_lt_mono_pos_r; lia.
Qed.

Lemma div_le_self A b : 0 <= A -> 0 < b -> A / b <= A.
Proof.
  intros HA Hb. apply Z.div_le_upper_bound; [assumption|]. nia.
Qed.

Lemma pow2_pos k : 0 <= k -> 0 < 2 ^ k.
Proof. intros H. apply Z.pow_pos_nonneg; lia. Qed.

(** The value rounded by the division is the rational. *)
Lemma div_rounded_value a b e' :
  0 < a -> 0 < b -> -1072 <= e' <= 0 ->
  2 ^ 52 <= a * 2 ^ (- e') / b ->
  let A := a * 2 ^ (- e') in
  rnd_int ((4 * (A / b) + loc_code (new_location b (A mod b))) * 2 ^ (e' + 1072))
  = rnd_quot a b.
Proof.
  intros Ha Hb He Hq52. cbv zeta.
  set (A := a * 2 ^ (- e')) in *. set (q := A / b) in *.
  set (l := new_location b (A mod b)).
  pose proof (pow2_pos (- e') ltac:(lia)) as HP.
  assert (HA : 0 < A) by (unfold A; apply Z.mul_pos_pos; assumption).
  assert (Hq : 0 < q) by (change (2 ^ 52) with 4503599627370496 in Hq52; lia).
  pose proof (Zdigits2_ge_pow q 52 ltac:(lia) Hq52) as Dq.
  pose proof (Zdigits2_bounds q Hq) as Bq.
  pose proof (loc_code_range l) as Hl.
  pose proof (Zdigits2_quad q (loc_code l) Hq Hl) as D4.
  set (c := loc_code l) in *. set (dq := Zdigits2 q) in *.
  set (j := e' + 1072). assert (Hj : 0 <= j) by (unfold j; lia).
  set (k := dq - 53). assert (Hk : 0 <= k) by (unfold k; lia).
  pose proof (pow2_pos j Hj) as HPj. pose proof (pow2_pos k Hk) as HPk.
  pose proof (pow2_pos (j + 2) ltac:(lia)) as HP2.
  unfold rnd_int, rnd_quot. cbv zeta.
  rewrite Zdigits2_mul_pow2 by lia. rewrite D4.
  assert (EX : a * 2 ^ 1074 = A * 2 ^ (j + 2)).
  { unfold A. rewrite <- Z.mul_assoc, <- Z.pow_add_r by lia.
    f_equal. f_equal. unfold j. lia. }
  rewrite EX.
  assert (DX : Zdigits2 (A * 2 ^ (j + 2) / b) = dq + (j + 2)).
  { apply Zdigits2_unique; [|lia].
    replace (dq + (j + 2) - 1) with (dq - 1 + (j + 2)) by lia.
    rewrite (Z.pow_add_r 2 (dq - 1) (j + 2)), (Z.pow_add_r 2 dq (j + 2)) by lia.
    apply div_scale_bounds; [assumption|assumption|exact Bq]. }
  rewrite DX.
  replace (Z.max (dq + 2 + j - 53) 0) with (k + 2 + j) by (unfold k; lia).
  replace (Z.max (dq + (j + 2) - 53) 0) with (k + 2 + j) by (unfold k; lia).
  f_equal.
  rewrite rne_scale by lia.
  unfold c, l, q. rewrite rne_loc_code by lia.
  replace (2 ^ (k + 2 + j)) with (2 ^ k * 2 ^ (j + 2))
    by (rewrite <- Z.pow_add_r by lia; f_equal; lia).
  rewrite Z.mul_assoc.
  rewrite rnd_div_scale; [reflexivity| |assumption].
  apply Z.mul_pos_pos; assumption.
Qed.

(** The quotient of two positive ints is the double nearest to the
    rational. *)
Lemma int_truediv_val a b :
  0 < a < 2 ^ 1022 -> 0 < b < 2 ^ 1000 ->
  exists F, Py.int_truediv a b = Py.Ok F /\ reprs false F (rnd_quot a b).
Proof.
  intros Ha Hb.
  pose proof (Zdigits2_pos a ltac:(lia)) as Pa.
  pose proof (Zdigits2_pos b ltac:(lia)) as Pb.
  pose proof (Zdigits2_lt_pow a 1022 ltac:(lia) ltac:(lia)) as Da.
  pose proof (Zdigits2_lt_pow b 1000 ltac:(lia) ltac:(lia)) as Db.
  pose proof (Zdigits2_bounds a ltac:(lia)) as [La Ua].
  pose proof (Zdigits2_bounds b ltac:(lia)) as [Lb Ub].
  assert (Ha0 : 0 < a) by lia. assert (Hb0 : 0 < b) by lia. clear Ha Hb.
  unfold Py.int_truediv. destruct (Z.eqb_spec b 0) as [|_]; [lia|].
  destruct a as [|pa|pa]; try lia. destruct b as [|pb|pb]; try lia.
  cbn [Py.raw_of_int SFdiv xorb]. rewrite div_core_spec. cbv zeta.
  rewrite fexp_eq.
  set (da := Zdigits2 (Z.pos pa)) in *. set (db := Zdigits2 (Z.pos pb)) in *.
  set (e' := Z.min (Z.max (da - db - 53) (-1074)) 0).
  assert (He : -1052 <= e' <= 0) by (unfold e'; lia).
  assert (He' : e' = Z.min (da - db - 53) 0) by (unfold e'; lia).
  set (A := Z.pos pa * 2 ^ (- e')).
  pose proof (pow2_pos (- e') ltac:(lia)) as HP.
  assert (HA : 0 < A) by (unfold A; apply Z.mul_pos_pos; lia).
  set (q := A / Z.pos pb).
  (* the quotient has at least 53 digits *)
  assert (HA52 : 2 ^ 52 * Z.pos pb <= A).
  { unfold A.
    apply (Z.le_trans _ (2 ^ 52 * 2 ^ db)); [apply Z.mul_le_mono_nonneg_l; lia|].
    apply (Z.le_trans _ (2 ^ (da - 1) * 2 ^ (- e')));
      [|apply Z.mul_le_mono_nonneg_r; lia].
    rewrite <- !Z.pow_add_r by lia. apply Z.pow_le_mono_r; lia. }
  assert (Hq52 : 2 ^ 52 <= q).
  { unfold q. apply Z.div_le_lower_bound; lia. }
  assert (Hq : 0 < q) by (change (2 ^ 52) with 4503599627370496 in Hq52; lia).
  pose proof (Zdigits2_ge_pow q 52 ltac:(lia) Hq52) as Dq.
  set (l := new_location (Z.pos pb) (A mod Z.pos pb)).
  rewrite (binary_round_aux_loc false q e' l Hq) by (rewrite fexp_eq; lia).
  pose proof (loc_code_range l) as Hl.
  pose proof (Zdigits2_quad q (loc_code l) Hq Hl) as D4.
  pose proof (binary_round_aux_exact false (4 * q + loc_code l) (e' - 2)
                ltac:(lia) ltac:(lia)) as R.
  specialize (R ltac:(rewrite fexp_eq, D4; lia)).
  replace (e' - 2 + 1074) with (e' + 1072) in R by lia.
  pose proof (div_rounded_value (Z.pos pa) (Z.pos pb) e' Ha0 Hb0 ltac:(lia) Hq52) as EV.
  cbv zeta in EV. fold A in EV. fold q in EV. fold l in EV.
  assert (Hdig : Zdigits2 (rnd_int ((4 * q + loc_code l) * 2 ^ (e' + 1072))) <= 2098).
  { pose proof (pow2_pos (e' + 1072) ltac:(lia)) as HPj.
    assert (P4 : 0 < (4 * q + loc_code l) * 2 ^ (e' + 1072))
      by (apply Z.mul_pos_pos; lia).
    apply (Z.le_trans _ (Zdigits2 q + 2 + (e' + 1072) + 1)).
    - apply rnd_int_digits; [assumption|].
      rewrite <- D4, <- Zdigits2_mul_pow2 by lia.
      apply Zdigits2_bounds. assumption.
    - (* the quotient is below 2^(1022 + s) *)
      assert (HqA : q <= A) by (apply div_le_self; lia).
      assert (HA2 : A < 2 ^ (da - e')).
      { unfold A. replace (da - e') with (da + - e') by lia.
        rewrite Z.pow_add_r by lia.
        apply Z.mul_lt_mono_pos_r; assumption. }
      pose proof (Zdigits2_lt_pow q (da - e') Hq ltac:(lia)). lia. }
  rewrite EV in R, Hdig.
  pose proof (rounds_to_small _ _ _ R Hdig) as RP.
  destruct RP as (m & e & E & B & V).
  exists (S754_finite false m e). rewrite E. split; [reflexivity|].
  exists m, e. auto.
Qed.

(** *** The rounded quotient as a function of the rational *)

Lemma rnd_quot_lower a b :
  0 < b -> 0 < a * 2 ^ 1074 / b ->
  2 ^ (Zdigits2 (a * 2 ^ 1074 / b) - 1) <= rnd_quot a b.
Proof.
  intros Hb HY. unfold rnd_quot. cbv zeta.
  set (X := a * 2 ^ 1074) in *. set (Y := X / b) in *.
  pose proof (Zdigits2_bounds Y HY) as [L U]. pose proof (Zdigits2_pos Y HY) as D.
  set (d := Zdigits2 Y) in *. set (n := Z.max (d - 53) 0).
  assert (Hn : 0 <= n <= d - 1) by (unfold n; lia).
  pose proof (pow2_pos n ltac:(lia)) as HP.
  pose proof (rnd_div_bounds X (b * 2 ^ n)) as [B _].
  rewrite <- Z.div_div in B by lia. fold Y in B.
  rewrite (pow2_split (d - 1) n) by lia.
  apply Z.mul_le_mono_nonneg_r; [lia|].
  apply (Z.le_trans _ (Y / 2 ^ n)); [|assumption].
  apply Z.div_le_lower_bound; [assumption|].
  rewrite Z.mul_comm, <- pow2_split by lia. assumption.
Qed.

Lemma rnd_quot_upper a b :
  0 < b -> 0 < a * 2 ^ 1074 / b ->
  rnd_quot a b <= 2 ^ Zdigits2 (a * 2 ^ 1074 / b).
Proof.
  intros Hb HY. unfold rnd_quot. cbv zeta.
  set (X := a * 2 ^ 1074) in *. set (Y := X / b) in *.
  pose proof (Zdigits2_bounds Y HY) as [L U]. pose proof (Zdigits2_pos Y HY) as D.
  set (d := Zdigits2 Y) in *. set (n := Z.max (d - 53) 0).
  assert (Hn : 0 <= n <= d - 1) by (unfold n; lia).
  pose proof (pow2_pos n ltac:(lia)) as HP.
  pose proof (rnd_div_bounds X (b * 2 ^ n)) as [_ B].
  rewrite <- Z.div_div in B by lia. fold Y in B.
  rewrite (pow2_split d n) by lia.
  apply Z.mul_le_mono_nonneg_r; [lia|].
  enough (Y / 2 ^ n < 2 ^ (d - n)) by lia.
  apply Z.div_lt_upper_bound; [assumption|].
  rewrite Z.mul_comm, <- pow2_split by lia. assumption.
Qed.

(** The rounded quotient grows with the rational. *)
Lemma rnd_quot_mono a b a' b' :
  0 < b -> 0 < b' -> 0 < a * 2 ^ 1074 / b -> a * b' <= a' * b ->
  rnd_quot a b <= rnd_quot a' b'.
Proof.
  intros Hb Hb' HY H.
  pose proof (pow2_pos 1074 ltac:(lia)) as HP.
  assert (HX : a * 2 ^ 1074 * b' <= a' * 2 ^ 1074 * b).
  { replace (a * 2 ^ 1074 * b') with (a * b' * 2 ^ 1074) by ring.
    replace (a' * 2 ^ 1074 * b) with (a' * b * 2 ^ 1074) by ring.
    apply Z.mul_le_mono_nonneg_r; lia. }
  pose proof (div_cross_le _ _ _ _ Hb Hb' HX) as HYY.
  assert (HY' : 0 < a' * 2 ^ 1074 / b') by lia.
  pose proof (Zdigits2_le _ _ HY HYY) as Hd.
  destruct (Z.eq_dec (Zdigits2 (a * 2 ^ 1074 / b)) (Zdigits2 (a' * 2 ^ 1074 / b'))) as [E|E].
  - unfold rnd_quot. cbv zeta. rewrite E.
    set (n := Z.max _ 0). pose proof (pow2_pos n ltac:(unfold n; lia)) as HPn.
    apply Z.mul_le_mono_nonneg_r; [lia|].
    apply rnd_div_mono; try (apply Z.mul_pos_pos; assumption).
    replace (a * 2 ^ 1074 * (b' * 2 ^ n)) with (a * 2 ^ 1074 * b' * 2 ^ n) by ring.
    replace (a' * 2 ^ 1074 * (b * 2 ^ n)) with (a' * 2 ^ 1074 * b * 2 ^ n) by ring.
    apply Z.mul_le_mono_nonneg_r; lia.
  - apply (Z.le_trans _ (2 ^ Zdigits2 (a * 2 ^ 1074 / b)));
      [apply rnd_quot_upper; assumption|].
    apply (Z.le_trans _ (2 ^ (Zdigits2 (a' * 2 ^ 1074 / b') - 1)));
      [|apply rnd_quot_lower; assumption].
    pose proof (Zdigits2_pos _ HY). apply Z.pow_le_mono_r; lia.
Qed.

(** A quotient that is a dyadic number rounds like that number. *)
Lemma rnd_quot_exact a b :
  0 < b -> (a * 2 ^ 1074) mod b = 0 -> rnd_quot a b = rnd_int (a * 2 ^ 1074 / b).
Proof.
  intros Hb HM. unfold rnd_quot, rnd_int. cbv zeta.
  set (X := a * 2 ^ 1074) in *. set (n := Z.max _ 0).
  assert (EX : X = X / b * b).
  { pose proof (Z.div_mod X b ltac:(lia)). lia. }
  rewrite EX at 1. rewrite rnd_div_exact by (unfold n; lia). reflexivity.
Qed.

Lemma rnd_quot_int z : 0 < z < 2 ^ 53 -> rnd_quot z 1 = z * 2 ^ 1074.
Proof.
  intros Hz. rewrite rnd_quot_exact by (rewrite ?Z.mod_1_r; lia).
  rewrite Z.div_1_r. now apply rnd_int_small_int.
Qed.

Lemma quot_pos a b : 0 < a -> 0 < b < 2 ^ 1000 -> 0 < a * 2 ^ 1074 / b.
Proof.
  intros Ha Hb. apply (Z.lt_le_trans _ 1); [lia|].
  apply Z.div_le_lower_bound; [lia|].
  apply (Z.le_trans _ (2 ^ 1000)); [lia|].
  apply (Z.le_trans _ (1 * 2 ^ 1074)).
  - rewrite Z.mul_1_l. apply Z.pow_le_mono_r; lia.
  - apply Z.mul_le_mono_nonneg_r; [apply Z.pow_nonneg|]; lia.
Qed.

(** *** Comparison of a double with an int *)

Lemma float_cmp_int_reprs F W z :
  reprs false F W -> Py.float_cmp_int F z = Some (W ?= z * 2 ^ 1074).
Proof.
  intros (m & e & -> & B & <-). apply bounded_inv in B. destruct B as (He & _).
  cbn [Py.float_cmp_int cond_Zopp]. f_equal.
  destruct (Z.leb_spec 0 e) as [P|N].
  - rewrite (Zmult_compare_compat_r _ _ (2 ^ 1074)) by (apply Z.lt_gt, pow2_pos; lia).
    rewrite <- Z.mul_assoc, <- Z.pow_add_r by lia. reflexivity.
  - rewrite (Zmult_compare_compat_r _ _ (2 ^ (e + 1074))) by (apply Z.lt_gt, pow2_pos; lia).
    rewrite <- Z.mul_assoc, <- Z.pow_add_r by lia.
    replace (- e + (e + 1074)) with 1074 by lia. reflexivity.
Qed.

Lemma le_int_reprs z F W :
  reprs false F W -> z * 2 ^ 1074 <= W -> Py.le (Py.Int z) (Py.Float F) = true.
Proof.
  intros R H. unfold Py.le, Py.compare. rewrite (float_cmp_int_reprs F W z R).
  cbn [option_map]. destruct (Z.compare_spec W (z * 2 ^ 1074)); cbn [CompOpp]; try reflexivity.
  lia.
Qed.

Lemma num_val_le_int x V z :
  num_val x V -> 0 <= z -> V <= z * 2 ^ 1074 -> Py.le x (Py.Int z) = true.
Proof.
  intros [[-> ->]|[P (F & -> & R)]] Hz H.
  - unfold Py.le, Py.compare. destruct (Z.compare_spec 0 z); try reflexivity. lia.
  - unfold Py.le, Py.compare. rewrite (float_cmp_int_reprs F V z R).
    destruct (Z.compare_spec V (z * 2 ^ 1074)); try reflexivity. lia.
Qed.

Lemma num_val_zero x : num_val x 0 -> x = Py.Int 0.
Proof. intros [[-> _]|[P _]]; [reflexivity|lia]. Qed.

(** *** A double at least 1 times a double constant at least 1 *)

Lemma mul_val fs Ws mc ec :
  reprs false fs Ws -> 2 ^ 1074 <= Ws -> Zdigits2 Ws <= 1900 ->
  Zdigits2 (Z.pos mc) = 53 -> -52 <= ec <= 0 ->
  reprs false (SFmul Py.prec Py.emax fs (S754_finite false mc ec))
        (rnd_int (Ws * Z.pos mc / 2 ^ (- ec))).
Proof.
  intros (m & e & -> & B & <-) HW HD Hmc Hec.
  apply bounded_inv in B. destruct B as (He & Hd & Hc).
  pose proof (Zdigits2_bounds (Z.pos m) ltac:(lia)) as [Lm Um].
  pose proof (Zdigits2_bounds (Z.pos mc) ltac:(lia)) as [Lc Uc].
  rewrite Hmc in Lc, Uc.
  rewrite Zdigits2_mul_pow2 in HD by lia.
  assert (He' : -52 <= e).
  { destruct (Z_le_gt_dec (-52) e) as [|G]; [assumption|exfalso].
    assert (Z.pos m < 2 ^ 53).
    { eapply Z.lt_le_trans; [exact Um|apply Z.pow_le_mono_r; lia]. }
    assert (2 ^ (e + 1074) * 2 ^ 53 <= 2 ^ 1074).
    { rewrite <- Z.pow_add_r by lia. apply Z.pow_le_mono_r; lia. }
    pose proof (pow2_pos (e + 1074) ltac:(lia)). nia. }
  assert (Hdm : Zdigits2 (Z.pos m) = 53) by lia.
  rewrite Hdm in Lm, Um, HD.
  change (2 ^ (53 - 1)) with 4503599627370496 in Lm, Lc.
  change (2 ^ 53) with 9007199254740992 in Um, Uc.
  assert (EV : Z.pos m * 2 ^ (e + 1074) * Z.pos mc / 2 ^ (- ec)
               = Z.pos (m * mc) * 2 ^ (e + ec + 1074)).
  { rewrite (pow2_split (e + 1074) (- ec)) by lia.
    replace (e + 1074 - - ec) with (e + ec + 1074) by lia.
    rewrite Pos2Z.inj_mul.
    replace (Z.pos m * (2 ^ (e + ec + 1074) * 2 ^ (- ec)) * Z.pos mc)
      with (Z.pos m * Z.pos mc * 2 ^ (e + ec + 1074) * 2 ^ (- ec)) by ring.
    apply Z.div_mul. apply Z.pow_nonzero; lia. }
  rewrite EV. cbn [SFmul xorb].
  assert (Hprod : 2 ^ 104 <= Z.pos (m * mc) < 2 ^ 106).
  { rewrite Pos2Z.inj_mul. change (2 ^ 104) with (4503599627370496 * 4503599627370496).
    change (2 ^ 106) with (9007199254740992 * 9007199254740992). nia. }
  assert (Hdp : 105 <= Zdigits2 (Z.pos (m * mc))).
  { change 105 with (Zdigits2 (2 ^ 104)). apply Zdigits2_le; [reflexivity|lia]. }
  apply rounds_to_small.
  - apply binary_round_aux_exact; try lia. rewrite fexp_eq. lia.
  - apply (Z.le_trans _ (106 + (e + ec + 1074) + 1)); [|lia].
    apply rnd_int_digits.
    + apply Z.mul_pos_pos; [lia|apply Z.pow_pos_nonneg; lia].
    + rewrite (Z.pow_add_r 2 106 (e + ec + 1074)) by lia.
      apply Z.mul_lt_mono_pos_r; [apply Z.pow_pos_nonneg; lia|lia].
Qed.

Lemma float_of_int_10 : Py.float_of_int 10 = Py.Ok f_10.
Proof. vm_compute. reflexivity. Qed.

(** *** The maintainability index is clamped *)

Lemma complexity_clamped f c l :
  0 < f -> 0 <= c -> 0 <= l -> c + l + f < 2 ^ 64 ->
  exists cyc index,
    complexity_of_counts f c l
    = Py.Ok (ComplexityMetrics.mk (Py.Float cyc) (Py.Int 0) index) /\
    Py.le (Py.Int 1) (Py.Float cyc) = true /\
    Py.le (Py.Int 0) index = true /\
    Py.le index (Py.Int 90) = true /\
    (9 * f <= c + l -> index = Py.Int 0).
Proof.
  intros Hf Hc Hl Hb.
  set (N := c + l + f) in *.
  assert (H64 : 2 ^ 64 < 2 ^ 1000) by (apply Z.pow_lt_mono_r; lia).
  assert (H1022 : 2 ^ 64 < 2 ^ 1022) by (apply Z.pow_lt_mono_r; lia).
  destruct (int_truediv_val N f ltac:(unfold N in *; lia) ltac:(unfold N in *; lia))
    as (cyc & Ediv & Rc).
  set (W := rnd_quot N f) in *.
  pose proof (quot_pos N f ltac:(unfold N; lia) ltac:(unfold N in *; lia)) as QP.
  (* at least one *)
  assert (W1 : 1 * 2 ^ 1074 <= W).
  { rewrite <- (rnd_quot_int 1) by (split; reflexivity).
    apply rnd_quot_mono; try lia. apply quot_pos; lia. }
  (* and below 2^64 *)
  assert (WU : W <= 2 ^ 64 * 2 ^ 1074).
  { apply (Z.le_trans _ (rnd_quot (2 ^ 64) 1)).
    - apply rnd_quot_mono; lia.
    - rewrite rnd_quot_exact by (rewrite ?Z.mod_1_r; lia). rewrite Z.div_1_r.
      rewrite rnd_int_exact; [lia|reflexivity|].
      rewrite <- Z.pow_add_r by lia. vm_compute. reflexivity. }
  assert (WD : Zdigits2 W <= 1900).
  { apply (Z.le_trans _ 1139); [|lia]. apply Zdigits2_lt_pow.
    - eapply reprs_pos; eassumption.
    - rewrite <- Z.pow_add_r in WU by lia.
      eapply Z.le_lt_trans; [exact WU|]. apply Z.pow_lt_mono_r; lia. }
  pose proof (mul_val cyc W 5629499534213120%positive (-49) Rc
                ltac:(lia) WD ltac:(reflexivity) ltac:(lia)) as RT.
  set (T := rnd_int (W * Z.pos 5629499534213120 / 2 ^ (- -49))) in *.
  assert (ET : W * Z.pos 5629499534213120 / 2 ^ (- -49) = W * 10).
  { change (Z.pos 5629499534213120) with (10 * 2 ^ 49). change (- -49) with 49.
    rewrite Z.mul_assoc. apply Z.div_mul. apply Z.pow_nonzero; lia. }
  assert (T10 : 10 * 2 ^ 1074 <= T).
  { unfold T. rewrite ET.
    rewrite <- (rnd_int_small_int 10) by (split; reflexivity).
    apply rnd_int_mono; [reflexivity|]. lia. }
  assert (FT : fval (SFmul Py.prec Py.emax cyc f_10) T).
  { right. split; [|exact RT]. eapply reprs_pos. exact RT. }
  destruct (Py.float_of_int 100) as [f100|] eqn:E100; [|discriminate].
  pose proof (clamp_sub 100 f100 _ T ltac:(reflexivity) E100 FT) as NV.
  exists cyc, (Py.max (Py.Int 0)
                 (Py.Float (SFsub Py.prec Py.emax f100 (SFmul Py.prec Py.emax cyc f_10)))).
  split; [|split; [|split; [|split]]].
  - unfold complexity_of_counts. destruct (Z.ltb_spec 0 f) as [_|]; [|lia].
    fold N. rewrite Ediv. cbn [Py.bind Py.mul Py.to_float].
    rewrite float_of_int_10. cbn [Py.bind Py.sub Py.to_float].
    rewrite E100. reflexivity.
  - apply (le_int_reprs 1 cyc W); assumption.
  - eapply num_val_nonneg. exact NV.
  - apply (num_val_le_int _ _ 90 NV); [lia|].
    apply (Z.le_trans _ (clamp_round (90 * 2 ^ 1074))).
    + apply clamp_round_mono. lia.
    + unfold clamp_round. destruct (Z.ltb_spec 0 (90 * 2 ^ 1074)); [|lia].
      rewrite rnd_int_small_int by (split; reflexivity). lia.
  - intros H9. apply num_val_zero.
    assert (W10 : 10 * 2 ^ 1074 <= W).
    { rewrite <- (rnd_quot_int 10) by (split; reflexivity).
      apply rnd_quot_mono; first [lia | apply quot_pos; lia | unfold N; lia]. }
    assert (T100 : 100 * 2 ^ 1074 <= T).
    { unfold T. rewrite ET.
      rewrite <- (rnd_int_small_int 100) by (split; reflexivity).
      apply rnd_int_mono; [reflexivity|]. lia. }
    replace 0 with (clamp_round (100 * 2 ^ 1074 - T)) at 2; [exact NV|].
    unfold clamp_round. destruct (Z.ltb_spec 0 (100 * 2 ^ 1074 - T)); [lia|reflexivity].
Qed.

(* ================================================================== *)
(** ** Grade banding *)

Lemma bind_ok {A B : Type} (r : Py.result A) (k : A -> Py.result B) b :
  Py.bind r k = Py.Ok b -> exists a, r = Py.Ok a /\ k a = Py.Ok b.
Proof. destruct r as [a|e]; cbn [Py.bind]; [eauto|discriminate]. Qed.

Lemma get_grade_bands count total ratio :
  total <> 0 -> Py.int_truediv count total = Py.Ok ratio ->
  get_grade count total =
  Py.Ok (if Py.flt ratio Py.f_0_01 then "A"
         else if Py.flt ratio Py.f_0_05 then "B"
         else if Py.flt ratio Py.f_0_1 then "C"
         else if Py.flt ratio Py.f_0_2 then "D" else "E")%string.
Proof.
  intros Ht E. unfold get_grade. destruct (Z.eqb_spec total 0); [contradiction|].
  rewrite E. cbn [Py.bind].
  repeat match goal with |- context [if ?c then _ else _] => destruct c end; reflexivity.
Qed.

Lemma get_grade_total count total :
  Z.abs count < 2 ^ 1022 -> exists g, get_grade count total = Py.Ok g.
Proof.
  intros Hc. destruct (Z.eq_dec total 0) as [->|N].
  - exists "A"%string. reflexivity.
  - destruct (int_truediv_total count total N Hc) as [r E].
    rewrite (get_grade_bands _ _ _ N E). eauto.
Qed.

(** C1. [get_grade(count, total)] returns ['A'] whenever [total == 0];
    otherwise the quotient [ratio = count / total] exists (for every count
    below [2^1022] in magnitude) and the grade is ['A'] if [ratio < 0.01],
    ['B'] if [ratio < 0.05], ['C'] if [ratio < 0.10], ['D'] if
    [ratio < 0.20] and ['E'] otherwise, the thresholds being tried in
    ascending order and the first match winning.  A ratio exactly equal to
    a threshold falls in the band above it: equal to [0.01] gives ['B'],
    to [0.05] ['C'], to [0.10] ['D'], to [0.20] ['E'], both for the double
    equal to the threshold and for counts in the exact proportions
    [1/100], [1/20], [1/10], [1/5]. *)
Theorem get_grade_banding :
  (forall count, get_grade count 0 = Py.Ok "A"%string) /\
  (forall count total, total <> 0 -> Z.abs count < 2 ^ 1022 ->
     exists ratio, Py.int_truediv count total = Py.Ok ratio) /\
  (forall count total ratio,
     total <> 0 -> Py.int_truediv count total = Py.Ok ratio ->
     (Py.flt ratio Py.f_0_01 = true -> get_grade count total = Py.Ok "A"%string) /\
     (Py.flt ratio Py.f_0_01 = false -> Py.flt ratio Py.f_0_05 = true ->
      get_grade count total = Py.Ok "B"%string) /\
     (Py.flt ratio Py.f_0_01 = false -> Py.flt ratio Py.f_0_05 = false ->
      Py.flt ratio Py.f_0_1 = true -> get_grade count total = Py.Ok "C"%string) /\
     (Py.flt ratio Py.f_0_01 = false -> Py.flt ratio Py.f_0_05 = false ->
      Py.flt ratio Py.f_0_1 = false -> Py.flt ratio Py.f_0_2 = true ->
      get_grade count total = Py.Ok "D"%string) /\
     (Py.flt ratio Py.f_0_01 = false -> Py.flt ratio Py.f_0_05 = false ->
      Py.flt ratio Py.f_0_1 = false -> Py.flt ratio Py.f_0_2 = false ->
      get_grade count total = Py.Ok "E"%string)) /\
  (forall count total,
     total <> 0 ->
     (Py.int_truediv count total = Py.Ok Py.f_0_01 -> get_grade count total = Py.Ok "B"%string) /\
     (Py.int_truediv count total = Py.Ok Py.f_0_05 -> get_grade count total = Py.Ok "C"%string) /\
     (Py.int_truediv count total = Py.Ok Py.f_0_1 -> get_grade count total = Py.Ok "D"%string) /\
     (Py.int_truediv count total = Py.Ok Py.f_0_2 -> get_grade count total = Py.Ok "E"%string)) /\
  (forall count,
     0 < count ->
     get_grade count (100 * count) = Py.Ok "B"%string /\
     get_grade count (20 * count) = Py.Ok "C"%string /\
     get_grade count (10 * count) = Py.Ok "D"%string /\
     get_grade count (5 * count) = Py.Ok "E"%string).
Proof.
  split; [reflexivity|]. split; [intros; now apply int_truediv_total|].
  split; [|split].
  - intros count total ratio Ht E. rewrite (get_grade_bands _ _ _ Ht E).
    repeat split; intros; repeat match goal with H : Py.flt _ _ = _ |- _ => rewrite H end;
      reflexivity.
  - intros count total Ht.
    repeat split; intros E; rewrite (get_grade_bands _ _ _ Ht E); reflexivity.
  - intros count Hc.
    repeat split;
      [ rewrite (get_grade_bands count (100 * count) Py.f_0_01 ltac:(lia) (int_truediv_100 count Hc))
      | rewrite (get_grade_bands count (20 * count) Py.f_0_05 ltac:(lia) (int_truediv_20 count Hc))
      | rewrite (get_grade_bands count (10 * count) Py.f_0_1 ltac:(lia) (int_truediv_10 count Hc))
      | rewrite (get_grade_bands count (5 * count) Py.f_0_2 ltac:(lia) (int_truediv_5 count Hc)) ];
      reflexivity.
Qed.

Lemma get_grade_banding_witness :
  get_grade 2 12 = Py.Ok "D"%string /\ get_grade 3 300 = Py.Ok "B"%string.
Proof.
  split.
  - refine (proj1 (proj2 (proj2 (proj2
      (proj1 (proj2 (proj2 get_grade_banding)) 2 12
         (S754_finite false 6004799503160661 (-55)) _ _)))) _ _ _ _);
      first [discriminate | reflexivity].
  - exact (proj1 (proj2 (proj2 (proj2 (proj2 get_grade_banding))) 3 ltac:(reflexivity))).
Defined.

(* ================================================================== *)
(** ** The score formulas *)

Lemma mul_int_int a b : Py.mul (Py.Int a) (Py.Int b) = Py.Ok (Py.Int (a * b)).
Proof. reflexivity. Qed.

Lemma sub_int_int a b : Py.sub (Py.Int a) (Py.Int b) = Py.Ok (Py.Int (a - b)).
Proof. reflexivity. Qed.

Lemma mul_comm_num x y : Py.mul x y = Py.mul y x.
Proof.
  destruct x as [a|f], y as [b|g]; unfold Py.mul, Py.to_float; cbn [Py.bind].
  - now rewrite Z.mul_comm.
  - destruct (Py.float_of_int a); cbn [Py.bind]; [now rewrite SFmul_comm|reflexivity].
  - destruct (Py.float_of_int b); cbn [Py.bind]; [now rewrite SFmul_comm|reflexivity].
  - now rewrite SFmul_comm.
Qed.

Lemma quality_score_spec b v s : quality_score_of b v s = spec_quality b v s.
Proof.
  unfold quality_score_of, spec_quality.
  now rewrite (mul_comm_num (Py.Int b)), (mul_comm_num (Py.Int v)), (mul_comm_num (Py.Int s)).
Qed.

Lemma security_score_spec v : security_score_of v = spec_security v.
Proof. unfold security_score_of, spec_security. now rewrite (mul_comm_num (Py.Int v)). Qed.

Lemma maintainability_score_spec s : maintainability_score_of s = spec_maintainability s.
Proof.
  unfold maintainability_score_of, spec_maintainability.
  now rewrite (mul_comm_num (Py.Int s)).
Qed.

Lemma reliability_score_spec b : reliability_score_of b = spec_reliability b.
Proof. unfold reliability_score_of, spec_reliability. now rewrite (mul_comm_num (Py.Int b)). Qed.

(** The two integer scores, in closed form. *)
Lemma security_score_int v : security_score_of v = Py.Ok (Py.Int (Z.max 0 (100 - v * 30))).
Proof.
  unfold security_score_of. rewrite mul_int_int. cbn [Py.bind].
  rewrite sub_int_int. cbn [Py.bind]. now rewrite max_zero_int.
Qed.

Lemma reliability_score_int b : reliability_score_of b = Py.Ok (Py.Int (Z.max 0 (100 - b * 10))).
Proof.
  unfold reliability_score_of. rewrite mul_int_int. cbn [Py.bind].
  rewrite sub_int_int. cbn [Py.bind]. now rewrite max_zero_int.
Qed.

(** The two float scores, by value. *)
Lemma quality_score_val b v s q :
  0 <= b -> 0 <= v -> 0 <= s -> quality_score_of b v s = Py.Ok q ->
  num_val q (clamp_round ((100 - b * 5 - v * 20) * 2 ^ 1074
                          - scaled_val 7205759403792794 56 s)).
Proof.
  intros Hb Hv Hs H. unfold quality_score_of in H.
  py_ints_in H.
  apply bind_ok in H. destruct H as (t3 & E3 & H).
  apply (mul_int_const s 7205759403792794%positive (-56)) in E3;
    [|assumption|reflexivity|lia].
  destruct E3 as (t & -> & Ft).
  unfold Py.sub, Py.to_float in H.
  destruct (Py.float_of_int (100 - b * 5 - v * 20)) as [fI|] eqn:EI;
    cbn [Py.bind] in H; [|discriminate].
  injection H as <-. apply clamp_sub; try assumption.
  change (2 ^ 53) with 9007199254740992. lia.
Qed.

Lemma maintainability_score_val s q :
  0 <= s -> maintainability_score_of s = Py.Ok q ->
  num_val q (clamp_round (100 * 2 ^ 1074 - scaled_val 7205759403792794 55 s)).
Proof.
  intros Hs H. unfold maintainability_score_of in H.
  apply bind_ok in H. destruct H as (t3 & E3 & H).
  apply (mul_int_const s 7205759403792794%positive (-55)) in E3;
    [|assumption|reflexivity|lia].
  destruct E3 as (t & -> & Ft).
  unfold Py.sub, Py.to_float in H.
  destruct (Py.float_of_int 100) as [fI|] eqn:EI; cbn [Py.bind] in H; [|discriminate].
  injection H as <-. apply clamp_sub; try assumption. reflexivity.
Qed.

(** The scores are computed for every count that [len] can return. *)
Lemma mul_int_float_total s c :
  Z.abs s < 2 ^ 1022 -> exists t, Py.mul (Py.Int s) (Py.Float c) = Py.Ok (Py.Float t).
Proof.
  intros Hs. unfold Py.mul, Py.to_float.
  destruct (float_of_int_total s Hs) as [fs ->]. cbn [Py.bind]. eauto.
Qed.

Lemma sub_int_float_total a t :
  Z.abs a < 2 ^ 1022 -> exists r, Py.sub (Py.Int a) (Py.Float t) = Py.Ok (Py.Float r).
Proof.
  intros Ha. unfold Py.sub, Py.to_float.
  destruct (float_of_int_total a Ha) as [fa ->]. cbn [Py.bind]. eauto.
Qed.

Lemma len_bound_small z : 0 <= z <= Py.PY_SSIZE_T_MAX -> z < 2 ^ 63.
Proof. unfold Py.PY_SSIZE_T_MAX. lia. Qed.

Lemma abs_small z : -2 ^ 70 < z < 2 ^ 70 -> Z.abs z < 2 ^ 1022.
Proof.
  intros H. assert (2 ^ 70 <= 2 ^ 1022) by (apply Z.pow_le_mono_r; lia). lia.
Qed.

Lemma quality_score_total b v s :
  0 <= b <= Py.PY_SSIZE_T_MAX -> 0 <= v <= Py.PY_SSIZE_T_MAX ->
  0 <= s <= Py.PY_SSIZE_T_MAX -> exists q, quality_score_of b v s = Py.Ok q.
Proof.
  intros Hb Hv Hs.
  pose proof (len_bound_small b Hb). pose proof (len_bound_small v Hv).
  pose proof (len_bound_small s Hs).
  unfold quality_score_of.
  py_ints.
  assert (P70 : 2 ^ 70 = 128 * 2 ^ 63) by reflexivity.
  destruct (mul_int_float_total s Py.f_0_1) as [t ->]; [apply abs_small; lia|].
  cbn [Py.bind].
  destruct (sub_int_float_total (100 - b * 5 - v * 20) t) as [r ->];
    [apply abs_small; lia|].
  cbn [Py.bind]. eauto.
Qed.

Lemma maintainability_score_total s :
  0 <= s <= Py.PY_SSIZE_T_MAX -> exists q, maintainability_score_of s = Py.Ok q.
Proof.
  intros Hs. pose proof (len_bound_small s Hs). unfold maintainability_score_of.
  assert (P70 : 2 ^ 70 = 128 * 2 ^ 63) by reflexivity.
  destruct (mul_int_float_total s Py.f_0_2) as [t ->]; [apply abs_small; lia|].
  cbn [Py.bind].
  destruct (sub_int_float_total 100 t) as [r ->]; [apply abs_small; lia|].
  cbn [Py.bind]. eauto.
Qed.

Lemma len_nonneg {A : Type} (xs : list A) : 0 <= len xs.
Proof. unfold len. lia. Qed.

Lemma len_filter_le {A : Type} (f : A -> bool) (xs : list A) : len (filter f xs) <= len xs.
Proof. unfold len. pose proof (filter_length_le f xs). lia. Qed.

Lemma acid_detailed_inv code_metrics vulnerabilities quality_issues card :
  _calculate_acid_scores_detailed code_metrics vulnerabilities quality_issues = Py.Ok card ->
  let total_files := dict_get code_metrics "total_files" 0 in
  let b := len (filter (fun issue => String.eqb (CodeQualityIssue.type issue) "bug")
                  quality_issues) in
  let v := len vulnerabilities in
  let s := len (filter (fun issue => String.eqb (CodeQualityIssue.type issue) "code_smell")
                  quality_issues) in
  exists bg vg sg q sec m r,
    get_grade b total_files = Py.Ok bg /\ get_grade v total_files = Py.Ok vg /\
    get_grade s total_files = Py.Ok sg /\
    quality_score_of b v s = Py.Ok q /\ security_score_of v = Py.Ok sec /\
    maintainability_score_of s = Py.Ok m /\ reliability_score_of b = Py.Ok r /\
    card = AcidScores.mk b v s bg vg sg q sec m (Some r).
Proof.
  unfold _calculate_acid_scores_detailed. intros H. cbv zeta.
  repeat (apply bind_ok in H; let x := fresh "x" in let E := fresh "E" in
          destruct H as (x & E & H)).
  injection H as <-. exists x, x0, x1, x2, x3, x4, x5.
  repeat (split; [assumption|]). reflexivity.
Qed.

Lemma acid_detailed_total code_metrics vulnerabilities quality_issues :
  len vulnerabilities <= Py.PY_SSIZE_T_MAX -> len quality_issues <= Py.PY_SSIZE_T_MAX ->
  exists card,
    _calculate_acid_scores_detailed code_metrics vulnerabilities quality_issues = Py.Ok card.
Proof.
  intros Hv Hq. unfold _calculate_acid_scores_detailed.
  set (tf := dict_get code_metrics "total_files" 0).
  set (b := len (filter _ quality_issues)).
  set (s := len (filter _ quality_issues)).
  set (v := len vulnerabilities).
  assert (Hb : 0 <= b <= Py.PY_SSIZE_T_MAX).
  { unfold b. split; [apply len_nonneg|]. eapply Z.le_trans; [apply len_filter_le|assumption]. }
  assert (Hs : 0 <= s <= Py.PY_SSIZE_T_MAX).
  { unfold s. split; [apply len_nonneg|]. eapply Z.le_trans; [apply len_filter_le|assumption]. }
  assert (Hv' : 0 <= v <= Py.PY_SSIZE_T_MAX) by (split; [apply len_nonneg|assumption]).
  assert (Hab : forall z, 0 <= z <= Py.PY_SSIZE_T_MAX -> Z.abs z < 2 ^ 1022).
  { intros z Hz. apply abs_small. pose proof (len_bound_small z Hz).
    assert (2 ^ 70 = 128 * 2 ^ 63) by reflexivity. lia. }
  destruct (get_grade_total b tf (Hab b Hb)) as [bg ->].
  destruct (get_grade_total v tf (Hab v Hv')) as [vg ->].
  destruct (get_grade_total s tf (Hab s Hs)) as [sg ->].
  destruct (quality_score_total b v s Hb Hv' Hs) as [q ->].
  rewrite security_score_int.
  destruct (maintainability_score_total s Hs) as [m ->].
  rewrite reliability_score_int. cbn [Py.bind]. eauto.
Qed.

Lemma acid_scores_inv code_metrics card :
  _calculate_acid_scores code_metrics = Py.Ok card ->
  quality_score_of (AcidScores.bugs card) (AcidScores.vulnerabilities card)
    (AcidScores.code_smells card) = Py.Ok (AcidScores.quality_score card) /\
  security_score_of (AcidScores.vulnerabilities card)
  = Py.Ok (AcidScores.security_score card) /\
  maintainability_score_of (AcidScores.code_smells card)
  = Py.Ok (AcidScores.maintainability_score card) /\
  AcidScores.reliability_score card = None.
Proof.
  unfold _calculate_acid_scores. intros H.
  repeat (apply bind_ok in H; let x := fresh "x" in let E := fresh "E" in
          destruct H as (x & E & H)).
  injection H as <-. cbn. auto.
Qed.

Lemma estimate_nonneg total_lines d k z : estimate total_lines d k = Py.Ok z -> 0 <= z.
Proof.
  unfold estimate. intros H.
  apply bind_ok in H. destruct H as (r & _ & H).
  apply bind_ok in H. destruct H as (n & _ & H).
  injection H as <-. lia.
Qed.

Lemma acid_scores_counts code_metrics card :
  _calculate_acid_scores code_metrics = Py.Ok card ->
  0 <= AcidScores.bugs card /\ 0 <= AcidScores.vulnerabilities card /\
  0 <= AcidScores.code_smells card.
Proof.
  unfold _calculate_acid_scores. intros H.
  apply bind_ok in H. destruct H as (b & Eb & H).
  apply bind_ok in H. destruct H as (v & Ev & H).
  apply bind_ok in H. destruct H as (s & Es & H).
  repeat (apply bind_ok in H; let x := fresh "x" in let E := fresh "E" in
          destruct H as (x & E & H)).
  injection H as <-. cbn.
  repeat split; eapply estimate_nonneg; eassumption.
Qed.

Lemma clamp_round_int I : I < 2 ^ 53 -> clamp_round (I * 2 ^ 1074) = Z.max 0 I * 2 ^ 1074.
Proof.
  intros HI. unfold clamp_round.
  pose proof (pow2_pos 1074 ltac:(lia)) as HP.
  destruct (Z.ltb_spec 0 (I * 2 ^ 1074)) as [P|N].
  - assert (0 < I) by nia. rewrite rnd_int_small_int by lia. f_equal. lia.
  - assert (I <= 0) by nia. replace (Z.max 0 I) with 0 by lia. reflexivity.
Qed.

Lemma num_val_eqb_int x z :
  num_val x (z * 2 ^ 1074) -> Py.eqb x (Py.Int z) = true.
Proof.
  pose proof (pow2_pos 1074 ltac:(lia)) as HP.
  intros [[-> E]|[P (F & -> & R)]].
  - assert (z = 0) by nia. subst z. reflexivity.
  - unfold Py.eqb, Py.compare. rewrite (float_cmp_int_reprs F _ z R).
    now rewrite Z.compare_refl.
Qed.

Lemma scaled_val_nonneg mc k s : 0 < mc -> 0 <= k -> 0 <= s -> 0 <= scaled_val mc k s.
Proof.
  intros Hm Hk Hs.
  replace 0 with (scaled_val mc k 0) at 1 by reflexivity.
  apply scaled_val_mono; lia.
Qed.

(** The closed forms of the four scores, from the score expressions. *)
Lemma scores_closed_forms b v s q sec m :
  0 <= b -> 0 <= v -> 0 <= s ->
  quality_score_of b v s = Py.Ok q -> security_score_of v = Py.Ok sec ->
  maintainability_score_of s = Py.Ok m ->
  sec = Py.Int (Z.max 0 (100 - 30 * v)) /\
  num_val q (clamp_round ((100 - 5 * b - 20 * v) * 2 ^ 1074 - tenth_of s)) /\
  num_val m (clamp_round (100 * 2 ^ 1074 - fifth_of s)) /\
  Py.le q (Py.Int 100) = true /\ Py.le m (Py.Int 100) = true /\
  (s = 0 -> Py.eqb q (Py.Int (Z.max 0 (100 - 5 * b - 20 * v))) = true /\
            Py.eqb m (Py.Int 100) = true).
Proof.
  intros Hb Hv Hs Hq Hsec Hm.
  pose proof (quality_score_val b v s q Hb Hv Hs Hq) as Vq.
  pose proof (maintainability_score_val s m Hs Hm) as Vm.
  replace (100 - b * 5 - v * 20) with (100 - 5 * b - 20 * v) in Vq by lia.
  fold (tenth_of s) in Vq. fold (fifth_of s) in Vm.
  pose proof (scaled_val_nonneg 7205759403792794 56 s ltac:(lia) ltac:(lia) Hs) as T1.
  pose proof (scaled_val_nonneg 7205759403792794 55 s ltac:(lia) ltac:(lia) Hs) as T2.
  fold (tenth_of s) in T1. fold (fifth_of s) in T2.
  pose proof (pow2_pos 1074 ltac:(lia)) as HP.
  assert (C100 : clamp_round (100 * 2 ^ 1074) = 100 * 2 ^ 1074)
    by (rewrite clamp_round_int; reflexivity).
  split; [|split; [|split; [|split; [|split]]]].
  - rewrite security_score_int in Hsec.
    replace sec with (Py.Int (Z.max 0 (100 - v * 30))) by congruence. f_equal. lia.
  - exact Vq.
  - exact Vm.
  - apply (num_val_le_int _ _ 100 Vq); [lia|]. rewrite <- C100.
    apply clamp_round_mono. nia.
  - apply (num_val_le_int _ _ 100 Vm); [lia|]. rewrite <- C100.
    apply clamp_round_mono. lia.
  - intros ->. change (tenth_of 0) with 0 in Vq. change (fifth_of 0) with 0 in Vm.
    rewrite Z.sub_0_r in Vq, Vm.
    rewrite clamp_round_int in Vq by lia. rewrite C100 in Vm.
    split; apply num_val_eqb_int; assumption.
Qed.

(** C2. The four scores of [_calculate_acid_scores_detailed] are exactly
    [max(0, 100 - 5*b - 20*v - 0.1*s)], [max(0, 100 - 30*v)],
    [max(0, 100 - 0.2*s)] and [max(0, 100 - 10*b)] for the counts [b], [v],
    [s] of the aggregation (the quality issues typed ['bug'], the
    vulnerabilities, the quality issues typed ['code_smell']); the only
    clamp is the [max] with 0.  The scores are computed whenever the two
    lists have a length that [len] can return.  The three scores of
    [_calculate_acid_scores] follow the same formulas on its counts.

    In closed form: the security and reliability scores are the ints
    [Z.max 0 (100 - 30 * v)] and [Z.max 0 (100 - 10 * b)]; the quality
    score is the int [0] when [(100 - 5*b - 20*v) - tenth_of s] is not
    positive and otherwise the double nearest to it, [tenth_of s] being
    the value of the double product [s * 0.1] (values in units of
    [2^-1074]); likewise the maintainability score with [100] and
    [fifth_of s].  Neither exceeds 100, and without code smells they equal
    [max(0, 100 - 5*b - 20*v)] and [100]. *)
Theorem scores_follow_formulas :
  forall code_metrics vulnerabilities quality_issues,
    let b := len (filter (fun issue => String.eqb (CodeQualityIssue.type issue) "bug")
                    quality_issues) in
    let v := len vulnerabilities in
    let s := len (filter (fun issue => String.eqb (CodeQualityIssue.type issue) "code_smell")
                    quality_issues) in
    (len vulnerabilities <= Py.PY_SSIZE_T_MAX -> len quality_issues <= Py.PY_SSIZE_T_MAX ->
     exists card,
       _calculate_acid_scores_detailed code_metrics vulnerabilities quality_issues
       = Py.Ok card) /\
    (forall card,
       _calculate_acid_scores_detailed code_metrics vulnerabilities quality_issues
       = Py.Ok card ->
       AcidScores.bugs card = b /\ AcidScores.vulnerabilities card = v /\
       AcidScores.code_smells card = s /\
       spec_quality b v s = Py.Ok (AcidScores.quality_score card) /\
       spec_security v = Py.Ok (AcidScores.security_score card) /\
       spec_maintainability s = Py.Ok (AcidScores.maintainability_score card) /\
       (exists r, AcidScores.reliability_score card = Some r /\ spec_reliability b = Py.Ok r) /\
       AcidScores.security_score card = Py.Int (Z.max 0 (100 - 30 * v)) /\
       AcidScores.reliability_score card = Some (Py.Int (Z.max 0 (100 - 10 * b))) /\
       num_val (AcidScores.quality_score card)
         (clamp_round ((100 - 5 * b - 20 * v) * 2 ^ 1074 - tenth_of s)) /\
       num_val (AcidScores.maintainability_score card)
         (clamp_round (100 * 2 ^ 1074 - fifth_of s)) /\
       Py.le (AcidScores.quality_score card) (Py.Int 100) = true /\
       Py.le (AcidScores.maintainability_score card) (Py.Int 100) = true /\
       (s = 0 ->
        Py.eqb (AcidScores.quality_score card) (Py.Int (Z.max 0 (100 - 5 * b - 20 * v)))
        = true /\
        Py.eqb (AcidScores.maintainability_score card) (Py.Int 100) = true)) /\
    (forall card,
       _calculate_acid_scores code_metrics = Py.Ok card ->
       let b' := AcidScores.bugs card in
       let v' := AcidScores.vulnerabilities card in
       let s' := AcidScores.code_smells card in
       spec_quality b' v' s' = Py.Ok (AcidScores.quality_score card) /\
       spec_security v' = Py.Ok (AcidScores.security_score card) /\
       spec_maintainability s' = Py.Ok (AcidScores.maintainability_score card) /\
       AcidScores.security_score card = Py.Int (Z.max 0 (100 - 30 * v')) /\
       num_val (AcidScores.quality_score card)
         (clamp_round ((100 - 5 * b' - 20 * v') * 2 ^ 1074 - tenth_of s')) /\
       num_val (AcidScores.maintainability_score card)
         (clamp_round (100 * 2 ^ 1074 - fifth_of s')) /\
       Py.le (AcidScores.quality_score card) (Py.Int 100) = true /\
       Py.le (AcidScores.maintainability_score card) (Py.Int 100) = true).
Proof.
  intros code_metrics vulnerabilities quality_issues b v s.
  split; [apply acid_detailed_total|]. split.
  - intros card H. apply acid_detailed_inv in H. cbv zeta in H.
    destruct H as (bg & vg & sg & q & sec & m & r & _ & _ & _ & Hq & Hsec & Hm & Hr & ->).
    fold b in Hq, Hr. fold v in Hq, Hsec. fold s in Hq, Hm.
    cbn [AcidScores.bugs AcidScores.vulnerabilities AcidScores.code_smells
         AcidScores.quality_score AcidScores.security_score
         AcidScores.maintainability_score AcidScores.reliability_score].
    destruct (scores_closed_forms b v s q sec m
                ltac:(apply len_nonneg) ltac:(apply len_nonneg) ltac:(apply len_nonneg)
                Hq Hsec Hm) as (C1 & C2 & C3 & C4 & C5 & C6).
    rewrite <- quality_score_spec, <- security_score_spec,
      <- maintainability_score_spec, <- reliability_score_spec.
    do 3 (split; [reflexivity|]). do 3 (split; [assumption|]).
    split; [eauto|]. split; [assumption|].
    split.
    { rewrite reliability_score_int in Hr.
      replace r with (Py.Int (Z.max 0 (100 - b * 10))) by congruence. do 2 f_equal. lia. }
    repeat (split; [assumption|]). assumption.
  - intros card H. cbv zeta.
    pose proof (acid_scores_counts _ _ H) as (Nb & Nv & Ns).
    apply acid_scores_inv in H. destruct H as (Hq & Hsec & Hm & _).
    destruct (scores_closed_forms _ _ _ _ _ _ Nb Nv Ns Hq Hsec Hm)
      as (C1 & C2 & C3 & C4 & C5 & _).
    rewrite <- quality_score_spec, <- security_score_spec, <- maintainability_score_spec.
    repeat (split; [assumption|]). assumption.
Qed.

Lemma scores_follow_formulas_witness :
  _calculate_acid_scores_detailed [("total_files"%string, 12)] [jquery_finding]
    [smell "todo_comments" "a.py" 3]
  = Py.Ok (AcidScores.mk 0 1 1 "A" "C" "C" (Py.Float f_79_9) (Py.Int 70)
             (Py.Float f_99_8) (Some (Py.Int 100))) /\
  spec_quality 0 1 1 = Py.Ok (Py.Float f_79_9) /\
  spec_security 1 = Py.Ok (Py.Int 70) /\
  num_val (Py.Float f_79_9) (clamp_round ((100 - 5 * 0 - 20 * 1) * 2 ^ 1074 - tenth_of 1)) /\
  num_val (Py.Float f_99_8) (clamp_round (100 * 2 ^ 1074 - fifth_of 1)).
Proof.
  pose proof (scores_follow_formulas [("total_files"%string, 12)] [jquery_finding]
    [smell "todo_comments" "a.py" 3]) as H.
  cbv zeta in H. destruct H as (T & F & _).
  destruct T as [card E]; [discriminate|discriminate|].
  assert (E' : _calculate_acid_scores_detailed [("total_files"%string, 12)] [jquery_finding]
                 [smell "todo_comments" "a.py" 3]
               = Py.Ok (AcidScores.mk 0 1 1 "A" "C" "C" (Py.Float f_79_9) (Py.Int 70)
                          (Py.Float f_99_8) (Some (Py.Int 100))))
    by (vm_compute; reflexivity).
  destruct (F card E) as (_ & _ & _ & Hq & Hs & _ & _ & _ & _ & Vq & Vm & _).
  rewrite E' in E. injection E as <-.
  split; [exact E'|]. split; [exact Hq|]. split; [exact Hs|]. split; [exact Vq|exact Vm].
Defined.

(* ================================================================== *)
(** ** Monotonicity and non-negativity of the scores *)

Lemma le_int_int a b : a <= b -> Py.le (Py.Int a) (Py.Int b) = true.
Proof.
  intros H. unfold Py.le, Py.compare. destruct (Z.compare_spec a b); try lia; reflexivity.
Qed.

Lemma quality_score_mono b v s b' v' s' q q' :
  0 <= b <= b' -> 0 <= v <= v' -> 0 <= s <= s' ->
  quality_score_of b v s = Py.Ok q -> quality_score_of b' v' s' = Py.Ok q' ->
  Py.le q' q = true.
Proof.
  intros Hb Hv Hs E E'.
  apply quality_score_val in E; try lia. apply quality_score_val in E'; try lia.
  eapply num_val_le; [exact E'|exact E|]. apply clamp_round_mono.
  pose proof (scaled_val_mono 7205759403792794 56 s s' ltac:(lia) ltac:(lia) Hs).
  assert (100 - b' * 5 - v' * 20 <= 100 - b * 5 - v * 20) by lia.
  pose proof (Z.pow_pos_nonneg 2 1074 ltac:(lia) ltac:(lia)). nia.
Qed.

Lemma maintainability_score_mono s s' q q' :
  0 <= s <= s' ->
  maintainability_score_of s = Py.Ok q -> maintainability_score_of s' = Py.Ok q' ->
  Py.le q' q = true.
Proof.
  intros Hs E E'.
  apply maintainability_score_val in E; try lia.
  apply maintainability_score_val in E'; try lia.
  eapply num_val_le; [exact E'|exact E|]. apply clamp_round_mono.
  pose proof (scaled_val_mono 7205759403792794 55 s s' ltac:(lia) ltac:(lia) Hs). lia.
Qed.

(** C7. Each score is non-increasing in the counts that drive it: the
    quality score in bugs, vulnerabilities and code smells (jointly, hence
    in each of them), the security score in vulnerabilities, the
    maintainability score in code smells, the reliability score in bugs;
    and no score is below 0.  This holds for all non-negative counts for
    which the scores are computed, and they are computed for every count up
    to [sys.maxsize]. *)
Theorem scores_monotone_nonneg :
  forall b v s b' v' s',
    0 <= b <= b' -> 0 <= v <= v' -> 0 <= s <= s' ->
    (forall q q', quality_score_of b v s = Py.Ok q ->
                  quality_score_of b' v' s' = Py.Ok q' -> Py.le q' q = true) /\
    (forall x x', security_score_of v = Py.Ok x ->
                  security_score_of v' = Py.Ok x' -> Py.le x' x = true) /\
    (forall m m', maintainability_score_of s = Py.Ok m ->
                  maintainability_score_of s' = Py.Ok m' -> Py.le m' m = true) /\
    (forall r r', reliability_score_of b = Py.Ok r ->
                  reliability_score_of b' = Py.Ok r' -> Py.le r' r = true) /\
    (forall q, quality_score_of b v s = Py.Ok q -> Py.le (Py.Int 0) q = true) /\
    (forall x, security_score_of v = Py.Ok x -> Py.le (Py.Int 0) x = true) /\
    (forall m, maintainability_score_of s = Py.Ok m -> Py.le (Py.Int 0) m = true) /\
    (forall r, reliability_score_of b = Py.Ok r -> Py.le (Py.Int 0) r = true) /\
    (b <= Py.PY_SSIZE_T_MAX -> v <= Py.PY_SSIZE_T_MAX -> s <= Py.PY_SSIZE_T_MAX ->
     (exists q, quality_score_of b v s = Py.Ok q) /\
     (exists x, security_score_of v = Py.Ok x) /\
     (exists m, maintainability_score_of s = Py.Ok m) /\
     (exists r, reliability_score_of b = Py.Ok r)).
Proof.
  intros b v s b' v' s' Hb Hv Hs.
  split; [intros q q'; now apply quality_score_mono|].
  split.
  { intros x x'. rewrite !security_score_int. intros E E'.
    replace x with (Py.Int (Z.max 0 (100 - v * 30))) by congruence.
    replace x' with (Py.Int (Z.max 0 (100 - v' * 30))) by congruence.
    apply le_int_int. lia. }
  split; [intros m m'; now apply maintainability_score_mono|].
  split.
  { intros r r'. rewrite !reliability_score_int. intros E E'.
    replace r with (Py.Int (Z.max 0 (100 - b * 10))) by congruence.
    replace r' with (Py.Int (Z.max 0 (100 - b' * 10))) by congruence.
    apply le_int_int. lia. }
  split.
  { intros q E. apply quality_score_val in E; try lia. now apply num_val_nonneg in E. }
  split.
  { intros x. rewrite security_score_int. intros E.
    replace x with (Py.Int (Z.max 0 (100 - v * 30))) by congruence.
    apply le_int_int. lia. }
  split.
  { intros m E. apply maintainability_score_val in E; try lia. now apply num_val_nonneg in E. }
  split.
  { intros r. rewrite reliability_score_int. intros E.
    replace r with (Py.Int (Z.max 0 (100 - b * 10))) by congruence.
    apply le_int_int. lia. }
  intros Mb Mv Ms.
  split; [apply quality_score_total; lia|].
  split; [rewrite security_score_int; eauto|].
  split; [apply maintainability_score_total; lia|].
  rewrite reliability_score_int; eauto.
Qed.

Lemma scores_monotone_nonneg_witness :
  (exists q q', quality_score_of 1 1 3 = Py.Ok q /\ quality_score_of 2 1 40 = Py.Ok q' /\
                Py.le q' q = true /\ Py.le (Py.Int 0) q' = true) /\
  (exists m m', maintainability_score_of 499 = Py.Ok m /\
                maintainability_score_of 501 = Py.Ok m' /\ Py.le m' m = true).
Proof.
  pose proof (scores_monotone_nonneg 1 1 3 2 1 40 ltac:(lia) ltac:(lia) ltac:(lia))
    as (Hq & _ & _ & _ & _).
  pose proof (scores_monotone_nonneg 2 1 40 2 1 40 ltac:(lia) ltac:(lia) ltac:(lia))
    as (_ & _ & _ & _ & Hn & _).
  pose proof (scores_monotone_nonneg 0 0 499 0 0 501 ltac:(lia) ltac:(lia) ltac:(lia))
    as (_ & _ & Hm & _).
  split.
  - eexists. eexists. split; [reflexivity|]. split; [reflexivity|].
    split; [apply Hq; reflexivity|apply Hn; reflexivity].
  - eexists. eexists. split; [reflexivity|]. split; [reflexivity|].
    apply Hm; reflexivity.
Defined.

(* ================================================================== *)
(** ** The empty tree *)

Lemma os_walk_nil repo_dir : os_walk repo_dir [] = [].
Proof. reflexivity. Qed.

(** C8. On an empty tree, that is [total_files = 0] with no security
    finding and no quality issue, the three grades are ['A'] and the four
    scores are 100 (the two that involve a float factor are the double
    [100.0], the other two the int [100]).  The analysis pass produces this
    card for an empty clone whose line counter reports no file, and when
    cloning failed. *)
Theorem empty_tree_scores :
  let card :=
    AcidScores.mk 0 0 0 "A" "A" "A"
      (Py.Float f_100) (Py.Int 100) (Py.Float f_100) (Some (Py.Int 100)) in
  (forall code_metrics,
     dict_get code_metrics "total_files" 0 = 0 ->
     _calculate_acid_scores_detailed code_metrics [] [] = Py.Ok card) /\
  (forall re_finditer repo_dir cloc_metrics,
     dict_get cloc_metrics "total_files" 0 = 0 ->
     analyze_repository_detailed re_finditer (Some (repo_dir, [])) cloc_metrics = Py.Ok card) /\
  (forall re_finditer cloc_metrics,
     analyze_repository_detailed re_finditer None cloc_metrics = Py.Ok card) /\
  Py.eqb (AcidScores.quality_score card) (Py.Int 100) = true /\
  Py.eqb (AcidScores.security_score card) (Py.Int 100) = true /\
  Py.eqb (AcidScores.maintainability_score card) (Py.Int 100) = true /\
  AcidScores.reliability_score card = Some (Py.Int 100).
Proof.
  cbv zeta.
  assert (H : forall code_metrics,
             dict_get code_metrics "total_files" 0 = 0 ->
             _calculate_acid_scores_detailed code_metrics [] []
             = Py.Ok (AcidScores.mk 0 0 0 "A" "A" "A" (Py.Float f_100) (Py.Int 100)
                        (Py.Float f_100) (Some (Py.Int 100)))).
  { intros code_metrics H. unfold _calculate_acid_scores_detailed. rewrite H. reflexivity. }
  split; [exact H|]. split; [|split].
  - intros re_finditer repo_dir cloc_metrics E. unfold analyze_repository_detailed.
    unfold _analyze_security_vulnerabilities, _analyze_code_quality_issues.
    rewrite os_walk_nil. cbn [flat_map]. now apply H.
  - intros re_finditer cloc_metrics. unfold analyze_repository_detailed. now apply H.
  - repeat split; reflexivity.
Qed.

Lemma empty_tree_scores_witness :
  _calculate_acid_scores_detailed [("total_lines"%string, 0); ("total_files"%string, 0)] [] []
  = Py.Ok (AcidScores.mk 0 0 0 "A" "A" "A"
             (Py.Float f_100) (Py.Int 100) (Py.Float f_100) (Some (Py.Int 100))).
Proof.
  exact (proj1 empty_tree_scores [("total_lines"%string, 0); ("total_files"%string, 0)]
           ltac:(reflexivity)).
Defined.

(* ================================================================== *)
(** ** Quality issues are code smells *)

Lemma scan_quality_type re_finditer file_path content issue :
  In issue (scan_quality re_finditer file_path content) ->
  CodeQualityIssue.type issue = "code_smell"%string.
Proof.
  unfold scan_quality. intros H. apply in_flat_map in H.
  destruct H as ([issue_type pattern] & _ & H). apply in_map_iff in H.
  destruct H as (start & <- & _). reflexivity.
Qed.

Lemma quality_issues_type re_finditer repo_dir root issue :
  In issue (_analyze_code_quality_issues re_finditer repo_dir root) ->
  CodeQualityIssue.type issue = "code_smell"%string.
Proof.
  unfold _analyze_code_quality_issues. intros H. apply in_flat_map in H.
  destruct H as ([[top file] content] & _ & H).
  destruct (Str.endswith_any file source_extensions); [|contradiction].
  destruct content as [c|]; [|contradiction].
  eapply scan_quality_type; eassumption.
Qed.

Lemma no_bug_among_smells (issues : list CodeQualityIssue.t) :
  (forall issue, In issue issues -> CodeQualityIssue.type issue = "code_smell"%string) ->
  filter (fun issue => String.eqb (CodeQualityIssue.type issue) "bug") issues = [].
Proof.
  intros H. induction issues as [|i issues IH]; [reflexivity|].
  cbn [filter]. rewrite (H i (or_introl eq_refl)). cbn.
  apply IH. intros issue Hi. apply H. now right.
Qed.

Lemma get_grade_zero total : get_grade 0 total = Py.Ok "A"%string.
Proof.
  destruct (Z.eq_dec total 0) as [->|N]; [reflexivity|].
  destruct (int_truediv_zero total N) as [s E].
  rewrite (get_grade_bands 0 total _ N E). destruct s; reflexivity.
Qed.

(** C9. Every issue that [_analyze_code_quality_issues] emits is typed
    ['code_smell'], none ['bug']; hence in every analysis pass the bugs
    count is 0, the reliability score is 100 and the bugs grade is ['A'].
    The pass yields its scores whenever the two finding lists have a
    length that [len] can return. *)
Theorem quality_issues_are_smells :
  forall re_finditer : string -> string -> list Re.flag -> list nat,
    (forall repo_dir root issue,
       In issue (_analyze_code_quality_issues re_finditer repo_dir root) ->
       CodeQualityIssue.type issue = "code_smell"%string /\
       String.eqb (CodeQualityIssue.type issue) "bug" = false) /\
    (forall repo cloc_metrics card,
       analyze_repository_detailed re_finditer repo cloc_metrics = Py.Ok card ->
       AcidScores.bugs card = 0 /\
       AcidScores.reliability_score card = Some (Py.Int 100) /\
       AcidScores.bugs_grade card = "A"%string) /\
    (forall repo_dir root cloc_metrics,
       len (_analyze_security_vulnerabilities re_finditer repo_dir root)
         <= Py.PY_SSIZE_T_MAX ->
       len (_analyze_code_quality_issues re_finditer repo_dir root)
         <= Py.PY_SSIZE_T_MAX ->
       exists card,
         analyze_repository_detailed re_finditer (Some (repo_dir, root)) cloc_metrics
         = Py.Ok card).
Proof.
  intros re_finditer. split; [|split].
  - intros repo_dir root issue H. apply quality_issues_type in H.
    split; [assumption|]. now rewrite H.
  - intros repo cloc_metrics card H. unfold analyze_repository_detailed in H.
    apply acid_detailed_inv in H. cbv zeta in H.
    destruct H as (bg & vg & sg & q & sec & m & r & Hbg & _ & _ & _ & _ & _ & Hr & ->).
    assert (Hnil : filter (fun issue => String.eqb (CodeQualityIssue.type issue) "bug")
                     match repo with
                     | Some (repo_dir, root) =>
                         _analyze_code_quality_issues re_finditer repo_dir root
                     | None => []
                     end = []).
    { apply no_bug_among_smells. destruct repo as [[repo_dir root]|].
      - intros issue. apply quality_issues_type.
      - intros issue []. }
    rewrite Hnil in Hbg, Hr |- *.
    change (len (@nil CodeQualityIssue.t)) with 0 in Hbg, Hr |- *.
    rewrite get_grade_zero in Hbg. rewrite reliability_score_int in Hr.
    change (Z.max 0 (100 - 0 * 10)) with 100 in Hr.
    cbn [AcidScores.bugs AcidScores.reliability_score AcidScores.bugs_grade].
    split; [reflexivity|]. split; congruence.
  - intros repo_dir root cloc_metrics Hv Hq. unfold analyze_repository_detailed.
    now apply acid_detailed_total.
Qed.

Lemma quality_issues_are_smells_witness :
  _analyze_code_quality_issues Re.finditer "/tmp/repo" [File "app.py" (Some quality_fixture)]
  = [smell "long_parameter_list" "/tmp/repo/app.py" 1;
     smell "magic_numbers" "/tmp/repo/app.py" 3;
     smell "empty_catch" "/tmp/repo/app.py" 4;
     smell "todo_comments" "/tmp/repo/app.py" 5] /\
  CodeQualityIssue.type (smell "empty_catch" "/tmp/repo/app.py" 4) = "code_smell"%string /\
  String.eqb (CodeQualityIssue.type (smell "empty_catch" "/tmp/repo/app.py" 4)) "bug" = false /\
  exists card,
    analyze_repository_detailed Re.finditer
      (Some ("/tmp/repo"%string, [File "app.py" (Some quality_fixture)]))
      [("total_files"%string, 1)] = Py.Ok card /\
    AcidScores.code_smells card = 4 /\
    AcidScores.bugs card = 0 /\
    AcidScores.reliability_score card = Some (Py.Int 100) /\
    AcidScores.bugs_grade card = "A"%string.
Proof.
  destruct (quality_issues_are_smells Re.finditer) as (P & H & T).
  assert (E : _analyze_code_quality_issues Re.finditer "/tmp/repo"
                [File "app.py" (Some quality_fixture)]
              = [smell "long_parameter_list" "/tmp/repo/app.py" 1;
                 smell "magic_numbers" "/tmp/repo/app.py" 3;
                 smell "empty_catch" "/tmp/repo/app.py" 4;
                 smell "todo_comments" "/tmp/repo/app.py" 5])
    by (vm_compute; reflexivity).
  split; [exact E|].
  assert (I : In (smell "empty_catch" "/tmp/repo/app.py" 4)
                (_analyze_code_quality_issues Re.finditer "/tmp/repo"
                   [File "app.py" (Some quality_fixture)])).
  { rewrite E. right. right. left. reflexivity. }
  destruct (P _ _ _ I) as [P1 P2].
  split; [exact P1|]. split; [exact P2|].
  destruct (T "/tmp/repo"%string [File "app.py" (Some quality_fixture)]
              [("total_files"%string, 1)]) as [card C]; [vm_compute; discriminate..|].
  exists card. split; [exact C|].
  destruct (H _ _ _ C) as (Hb & Hr & Hg).
  split; [|split; [exact Hb|split; [exact Hr|exact Hg]]].
  assert (C' : exists q m vg sg,
             analyze_repository_detailed Re.finditer
               (Some ("/tmp/repo"%string, [File "app.py" (Some quality_fixture)]))
               [("total_files"%string, 1)]
             = Py.Ok (AcidScores.mk 0 0 4 "A" vg sg q (Py.Int 100) m (Some (Py.Int 100))))
    by (do 4 eexists; vm_compute; reflexivity).
  destruct C' as (q & m & vg & sg & C'). rewrite C' in C. injection C as <-. reflexivity.
Defined.

(* ================================================================== *)
(** ** Strings: containment and order *)

Lemma prefix_iff sub s :
  prefix sub s = true <-> exists suf, s = (sub ++ suf)%string.
Proof.
  revert s. induction sub as [|a sub IH]; intros s.
  - split; [intros _; exists s; reflexivity|intros _; destruct s; reflexivity].
  - destruct s as [|b s]; cbn [prefix].
    + split; [discriminate|intros [suf H]; discriminate].
    + destruct (ascii_dec a b) as [->|N].
      * rewrite IH. split; intros [suf H]; exists suf; cbn in *; congruence.
      * split; [discriminate|]. intros [suf H]. cbn in H. congruence.
Qed.

Lemma contains_iff sub s :
  Str.contains sub s = true <-> exists pre suf, s = (pre ++ sub ++ suf)%string.
Proof.
  induction s as [|c s IH]; cbn [Str.contains].
  - destruct (prefix sub EmptyString) eqn:P.
    + split; [intros _|reflexivity]. apply prefix_iff in P. destruct P as [suf E].
      exists EmptyString, suf. exact E.
    + split; [discriminate|]. intros (pre & suf & E).
      destruct pre; cbn in E; [|discriminate].
      assert (prefix sub EmptyString = true) by (apply prefix_iff; eauto). congruence.
  - destruct (prefix sub (String c s)) eqn:P.
    + split; [intros _|reflexivity]. apply prefix_iff in P. destruct P as [suf E].
      exists EmptyString, suf. exact E.
    + rewrite IH. split.
      * intros (pre & suf & E). exists (String c pre), suf. cbn. now rewrite E.
      * intros (pre & suf & E). destruct pre as [|c' pre]; cbn in E.
        -- assert (prefix sub (String c s) = true) by (apply prefix_iff; eauto). congruence.
        -- injection E as _ E. eauto.
Qed.

Lemma lower_app a b : Str.lower (a ++ b) = (Str.lower a ++ Str.lower b)%string.
Proof. induction a as [|c a IH]; cbn; [reflexivity|now rewrite IH]. Qed.

Lemma lower_app_inv s a b :
  Str.lower s = (a ++ b)%string ->
  exists s1 s2, s = (s1 ++ s2)%string /\ Str.lower s1 = a /\ Str.lower s2 = b.
Proof.
  revert s. induction a as [|c a IH]; intros s H.
  - exists EmptyString, s. auto.
  - destruct s as [|x s]; [discriminate|]. cbn in H. injection H as Hc H.
    destruct (IH s H) as (s1 & s2 & -> & <- & <-).
    exists (String x s1), s2. cbn. now rewrite Hc.
Qed.

(** [sub in s.lower()] is containment up to letter case, for a lowercase
    [sub]. *)
Lemma icontains_iff sub s :
  Str.lower sub = sub ->
  icontains sub s <-> Str.contains sub (Str.lower s) = true.
Proof.
  intros Hl. rewrite contains_iff. unfold icontains. rewrite Hl. split.
  - intros (pre & mid & suf & -> & E).
    exists (Str.lower pre), (Str.lower suf). now rewrite !lower_app, E.
  - intros (p & q & E). apply lower_app_inv in E. destruct E as (pre & rest & -> & <- & E).
    apply lower_app_inv in E. destruct E as (mid & suf & -> & E & <-).
    exists pre, mid, suf. auto.
Qed.

Lemma N_of_ascii_inj c d : N_of_ascii c = N_of_ascii d -> c = d.
Proof.
  intros H. rewrite <- (ascii_N_embedding c), <- (ascii_N_embedding d). now rewrite H.
Qed.

Lemma compare_lt_iff s t : String.compare s t = Lt <-> lex_lt s t.
Proof.
  revert t. induction s as [|c s IH]; intros [|d t]; cbn [String.compare].
  - split; [discriminate|intros H; inversion H].
  - split; [intros _; constructor|reflexivity].
  - split; [discriminate|intros H; inversion H].
  - unfold Ascii.compare. destruct (N.compare_spec (N_of_ascii c) (N_of_ascii d)) as [E|L|G].
    + apply N_of_ascii_inj in E. subst d. rewrite IH. split.
      * intros H. now constructor.
      * intros H. inversion H; subst; [lia|assumption].
    + split; [intros _; now constructor|reflexivity].
    + split; [discriminate|]. intros H. inversion H; subst; lia.
Qed.

Lemma lt_iff s t : Str.lt s t = true <-> lex_lt s t.
Proof.
  unfold Str.lt, String.ltb. rewrite <- compare_lt_iff.
  destruct (String.compare s t); split; congruence.
Qed.

Lemma compare_refl s : String.compare s s = Eq.
Proof.
  induction s as [|c s IH]; cbn [String.compare]; [reflexivity|].
  unfold Ascii.compare. now rewrite N.compare_refl.
Qed.

Lemma lex_ge_not_lt s t : s = t \/ lex_lt t s -> ~ lex_lt s t.
Proof.
  intros [->|H] L; apply compare_lt_iff in L.
  - rewrite compare_refl in L. discriminate.
  - apply compare_lt_iff in H. rewrite String.compare_antisym, H in L. discriminate.
Qed.

(* ================================================================== *)
(** ** Dependency vulnerability lookup *)

Lemma check_dependency_cases name version :
  (icontains "jquery" name /\ lex_lt version "3.0.0" /\
   _check_dependency_vulnerabilities name version = [jquery_finding]) \/
  ((~ icontains "jquery" name \/ ~ lex_lt version "3.0.0") /\
   _check_dependency_vulnerabilities name version = []).
Proof.
  unfold _check_dependency_vulnerabilities.
  pose proof (icontains_iff "jquery" name eq_refl) as Hc.
  pose proof (lt_iff version "3.0.0") as Hl.
  destruct (Str.contains "jquery" (Str.lower name)); cbn [andb].
  - destruct (Str.lt version "3.0.0").
    + left. split; [now apply Hc|]. split; [now apply Hl|reflexivity].
    + right. split; [|reflexivity]. right. intros H. apply Hl in H. discriminate.
  - right. split; [|reflexivity]. left. intros H. apply Hc in H. discriminate.
Qed.

(** C3. For every dependency whose name contains ['jquery'] up to letter
    case and whose version string is lexicographically smaller than
    ["3.0.0"], the lookup returns exactly one finding, of severity
    ['high'], type ['XSS'], CWE id ['CWE-79'], file ['package.json'] and
    line 0.  The comparison is on strings: version ["10.0.0"] is smaller
    than ["3.0.0"] and triggers the finding, as version ["2.1.0"] does. *)
Theorem jquery_lookup_finding :
  (forall name version,
     icontains "jquery" name -> lex_lt version "3.0.0" ->
     exists finding,
       _check_dependency_vulnerabilities name version = [finding] /\
       SecurityVulnerability.severity finding = "high"%string /\
       SecurityVulnerability.type finding = "XSS"%string /\
       SecurityVulnerability.cwe_id finding = Some "CWE-79"%string /\
       SecurityVulnerability.file finding = "package.json"%string /\
       SecurityVulnerability.line finding = 0) /\
  lex_lt "10.0.0" "3.0.0" /\
  _check_dependency_vulnerabilities "jquery" "10.0.0" = [jquery_finding] /\
  _check_dependency_vulnerabilities "jquery" "2.1.0" = [jquery_finding].
Proof.
  split; [|split; [constructor; reflexivity|split; reflexivity]].
  intros name version Hn Hv.
  destruct (check_dependency_cases name version) as [(_ & _ & ->)|([N|N] & _)];
    try contradiction.
  exists jquery_finding. repeat (split; [reflexivity|]). reflexivity.
Qed.

Lemma jquery_lookup_finding_witness :
  exists finding,
    _check_dependency_vulnerabilities "jQuery-UI" "1.12.4" = [finding] /\
    SecurityVulnerability.severity finding = "high"%string /\
    SecurityVulnerability.type finding = "XSS"%string /\
    SecurityVulnerability.cwe_id finding = Some "CWE-79"%string /\
    SecurityVulnerability.file finding = "package.json"%string /\
    SecurityVulnerability.line finding = 0.
Proof.
  apply (proj1 jquery_lookup_finding "jQuery-UI" "1.12.4").
  - exists EmptyString, "jQuery"%string, "-UI"%string. split; reflexivity.
  - constructor. reflexivity.
Defined.

(** C10. The lookup returns the empty list for every dependency whose name
    does not contain ['jquery'] up to letter case, and for every
    jquery-named dependency whose version string is lexicographically
    greater than or equal to ["3.0.0"]: a finding, when there is one, is the
    jQuery finding, so no other package name produces one. *)
Theorem lookup_empty_otherwise :
  (forall name version,
     ~ icontains "jquery" name -> _check_dependency_vulnerabilities name version = []) /\
  (forall name version,
     icontains "jquery" name ->
     version = "3.0.0"%string \/ lex_lt "3.0.0" version ->
     _check_dependency_vulnerabilities name version = []) /\
  (forall name version finding,
     In finding (_check_dependency_vulnerabilities name version) ->
     icontains "jquery" name /\ lex_lt version "3.0.0" /\ finding = jquery_finding).
Proof.
  split; [|split].
  - intros name version N.
    destruct (check_dependency_cases name version) as [(C & _)|(_ & ->)];
      [contradiction|reflexivity].
  - intros name version _ G. apply lex_ge_not_lt in G.
    destruct (check_dependency_cases name version) as [(_ & L & _)|(_ & ->)];
      [contradiction|reflexivity].
  - intros name version finding H.
    destruct (check_dependency_cases name version) as [(C & L & E)|(_ & E)];
      rewrite E in H; [|contradiction].
    destruct H as [<-|[]]. auto.
Qed.

Lemma lookup_empty_otherwise_witness :
  _check_dependency_vulnerabilities "react" "16.8.0" = [] /\
  _check_dependency_vulnerabilities "jquery" "3.5.1" = [].
Proof.
  split.
  - apply (proj1 lookup_empty_otherwise "react" "16.8.0").
    intros H. apply (icontains_iff "jquery" "react" eq_refl) in H. discriminate.
  - apply (proj1 (proj2 lookup_empty_otherwise) "jquery" "3.5.1").
    + exists EmptyString, "jquery"%string, EmptyString. split; reflexivity.
    + right. do 2 apply lex_lt_tail. apply lex_lt_head. reflexivity.
Defined.

(* ================================================================== *)
(** ** The password pattern on text without quotes *)

Lemma compile_password : Re.compile password_pattern = Some password_regex.
Proof. vm_compute. reflexivity. Qed.

Lemma match_here_one ic a r x s :
  Re.match_here ic ((a, Re.QOne) :: r) (String x s)
  = if Re.atom_matches ic a x then option_map S (Re.match_here ic r s) else None.
Proof. reflexivity. Qed.

Lemma match_here_star ic a r x s :
  Re.match_here ic ((a, Re.QStar) :: r) (String x s)
  = if Re.atom_matches ic a x then
      match Re.match_here ic ((a, Re.QStar) :: r) s with
      | Some n => Some (S n)
      | None => Re.match_here ic r (String x s)
      end
    else Re.match_here ic r (String x s).
Proof. reflexivity. Qed.

Lemma not_quote_set c :
  is_quote c = false ->
  Re.atom_matches true (Re.ASet false [Str.dquote; "'"%char]) c = false.
Proof.
  destruct c as [[] [] [] [] [] [] [] []]; vm_compute; intros H;
    first [reflexivity | discriminate].
Qed.

Lemma quote_free_cons c u :
  all_chars (fun x => negb (is_quote x)) (String c u) = true ->
  is_quote c = false /\ all_chars (fun x => negb (is_quote x)) u = true.
Proof.
  cbn [all_chars]. rewrite andb_true_iff, negb_true_iff. auto.
Qed.

Lemma no_match_after_equals u rest :
  all_chars (fun x => negb (is_quote x)) u = true ->
  Re.match_here true password_after_equals (u ++ password_line ++ rest) = None.
Proof.
  induction u as [|c u IH]; intros H.
  - vm_compute. reflexivity.
  - apply quote_free_cons in H. destruct H as [Hc Hu].
    unfold password_after_equals. cbn [skipn password_regex]. cbn [String.append].
    rewrite match_here_star. unfold password_after_equals in IH. cbn [skipn password_regex] in IH.
    rewrite (IH Hu), match_here_one, (not_quote_set c Hc).
    destruct (Re.atom_matches true Re.ASpace c); reflexivity.
Qed.

Lemma no_match_after_letters u rest :
  all_chars (fun x => negb (is_quote x)) u = true ->
  Re.match_here true password_after_letters (u ++ password_line ++ rest) = None.
Proof.
  induction u as [|c u IH]; intros H.
  - vm_compute. reflexivity.
  - apply quote_free_cons in H. destruct H as [Hc Hu].
    pose proof (no_match_after_equals u rest Hu) as E.
    unfold password_after_equals in E. cbn [skipn password_regex] in E.
    unfold password_after_letters. cbn [skipn password_regex]. cbn [String.append].
    rewrite match_here_star. unfold password_after_letters in IH. cbn [skipn password_regex] in IH.
    rewrite (IH Hu), match_here_one, E.
    destruct (Re.atom_matches true Re.ASpace c), (Re.atom_matches true (Re.ALit "=") c);
      reflexivity.
Qed.

Lemma no_match_before u rest :
  u <> EmptyString -> all_chars (fun x => negb (is_quote x)) u = true ->
  Re.match_here true password_regex (u ++ password_line ++ rest) = None.
Proof.
  intros N H. unfold password_regex.
  destruct u as [|c1 u]; [contradiction|]. clear N.
  apply quote_free_cons in H. destruct H as [_ H]. cbn [String.append].
  rewrite match_here_one. destruct (Re.atom_matches true _ c1); [|reflexivity].
  do 7 (let c := fresh "c" in
        destruct u as [|c u]; [vm_compute; reflexivity|];
        apply quote_free_cons in H; destruct H as [_ H]; cbn [String.append];
        rewrite match_here_one; destruct (Re.atom_matches true _ c); [|reflexivity]).
  pose proof (no_match_after_letters u rest H) as E.
  unfold password_after_letters in E. cbn [skipn password_regex] in E.
  rewrite E. reflexivity.
Qed.

Lemma match_at_password rest :
  Re.match_here true password_regex (password_line ++ rest) = Some 14%nat.
Proof. vm_compute. reflexivity. Qed.

Lemma scan_to_password u rest pos :
  all_chars (fun x => negb (is_quote x)) u = true ->
  Re.scan true password_regex (u ++ password_line ++ rest) pos 0
  = Re.scan true password_regex (password_line ++ rest) (pos + String.length u) 0.
Proof.
  revert pos. induction u as [|c u IH]; intros pos H.
  - cbn [String.append String.length]. now rewrite Nat.add_0_r.
  - pose proof (no_match_before (String c u) rest ltac:(discriminate) H) as E.
    apply quote_free_cons in H. destruct H as [_ H].
    cbn [String.append] in E |- *. cbn [Re.scan]. rewrite E, (IH (S pos) H).
    cbn [String.length]. f_equal. lia.
Qed.

Lemma password_found u rest :
  all_chars (fun x => negb (is_quote x)) u = true ->
  In (String.length u)
     (Re.finditer password_pattern (u ++ password_line ++ rest) [Re.IGNORECASE]).
Proof.
  intros H. unfold Re.finditer. rewrite compile_password. cbn [existsb orb].
  rewrite (scan_to_password u rest 0 H). cbn [Nat.add].
  change (password_line ++ rest)%string
    with (String "p" (String.append (String.substring 1 13 password_line) rest)).
  cbn [Re.scan].
  change (String "p" (String.append (String.substring 1 13 password_line) rest))
    with (password_line ++ rest)%string.
  rewrite match_at_password. left. reflexivity.
Qed.

Lemma slice_to_app u t : Str.slice_to (u ++ t) (String.length u) = u.
Proof.
  unfold Str.slice_to. induction u as [|c u IH]; cbn.
  - destruct t; reflexivity.
  - now rewrite IH.
Qed.

Lemma count_char_app c u t :
  Str.count_char c (u ++ t) = Str.count_char c u + Str.count_char c t.
Proof. induction u as [|x u IH]; cbn [String.append Str.count_char]; lia. Qed.

Lemma count_char_none c u :
  all_chars (fun x => negb (Ascii.eqb x c)) u = true -> Str.count_char c u = 0.
Proof.
  induction u as [|x u IH]; cbn [all_chars Str.count_char]; [reflexivity|].
  rewrite andb_true_iff, negb_true_iff. intros [-> H]. rewrite (IH H). reflexivity.
Qed.

Lemma all_chars_app p u t : all_chars p (u ++ t) = all_chars p u && all_chars p t.
Proof. induction u as [|c u IH]; cbn [String.append all_chars]; [reflexivity|]. now rewrite IH, andb_assoc. Qed.

Lemma all_chars_and p q u :
  all_chars (fun c => p c && q c) u = true -> all_chars p u = true /\ all_chars q u = true.
Proof.
  induction u as [|c u IH]; cbn [all_chars]; [auto|].
  rewrite !andb_true_iff. intros [[Hp Hq] H]. destruct (IH H). auto.
Qed.

Lemma string_app_assoc (a b c : string) : ((a ++ b) ++ c = a ++ (b ++ c))%string.
Proof. induction a as [|x a IH]; cbn [String.append]; [reflexivity|now rewrite IH]. Qed.

(* ================================================================== *)
(** ** Line numbers of the security findings *)

Lemma scan_security_in re_finditer file_path content finding :
  In finding (scan_security re_finditer file_path content) <->
  exists vuln_type patterns pattern start,
    In (vuln_type, patterns) security_patterns /\ In pattern patterns /\
    In start (re_finditer pattern content [Re.IGNORECASE]) /\
    finding = SecurityVulnerability.mk "medium" vuln_type
                ("Potential " ++ vuln_type ++ " vulnerability")%string file_path
                (1 + Str.count_char Str.newline (Str.slice_to content start)) None None.
Proof.
  unfold scan_security. rewrite in_flat_map. split.
  - intros ([vuln_type patterns] & Ht & H). apply in_flat_map in H.
    destruct H as (pattern & Hp & H). apply in_map_iff in H. destruct H as (start & <- & Hs).
    exists vuln_type, patterns, pattern, start. repeat (split; [assumption|]).
    unfold line_of. now rewrite Z.add_comm.
  - intros (vuln_type & patterns & pattern & start & Ht & Hp & Hs & ->).
    exists (vuln_type, patterns). split; [assumption|]. apply in_flat_map.
    exists pattern. split; [assumption|]. apply in_map_iff.
    exists start. split; [|assumption]. unfold line_of. now rewrite Z.add_comm.
Qed.

(** C4. Every finding of [_analyze_security_vulnerabilities] comes from a
    match of a security pattern in the content of a scanned file, and every
    such match yields a finding; the finding's line is 1 plus the number of
    newline characters of the content before the match's start offset.
    This holds whatever the regular-expression engine reports.  With the
    matcher of the security patterns: a file in which [password = "x"]
    occurs with no quote character before it yields a
    ['hardcoded_secrets'] finding at the line of that occurrence, which is
    line 2 when exactly one newline precedes it; and the three-line
    fixture file, whose second line is [password = "x"], yields exactly
    one finding, of type ['hardcoded_secrets'] and line 2. *)
Theorem finding_line_numbers :
  (forall (re_finditer : string -> string -> list Re.flag -> list nat)
          repo_dir root finding,
     In finding (_analyze_security_vulnerabilities re_finditer repo_dir root) <->
     exists top file content vuln_type patterns pattern start,
       In (top, file, Some content) (os_walk repo_dir root) /\
       Str.endswith_any file source_extensions = true /\
       In (vuln_type, patterns) security_patterns /\ In pattern patterns /\
       In start (re_finditer pattern content [Re.IGNORECASE]) /\
       finding = SecurityVulnerability.mk "medium" vuln_type
                   ("Potential " ++ vuln_type ++ " vulnerability")%string
                   (path_join top file)
                   (1 + Str.count_char Str.newline (Str.slice_to content start))
                   None None) /\
  (forall repo_dir file before rest,
     Str.endswith_any file source_extensions = true ->
     all_chars (fun c => negb (is_quote c)) before = true ->
     In (SecurityVulnerability.mk "medium" "hardcoded_secrets"
           "Potential hardcoded_secrets vulnerability" (path_join repo_dir file)
           (1 + Str.count_char Str.newline before) None None)
        (_analyze_security_vulnerabilities Re.finditer repo_dir
           [File file (Some (before ++ password_line ++ rest)%string)])) /\
  (forall repo_dir file line1 indent rest,
     Str.endswith_any file source_extensions = true ->
     all_chars (fun c => negb (is_quote c) && negb (Ascii.eqb c Str.newline)) line1 = true ->
     all_chars (fun c => negb (is_quote c) && negb (Ascii.eqb c Str.newline)) indent = true ->
     In (SecurityVulnerability.mk "medium" "hardcoded_secrets"
           "Potential hardcoded_secrets vulnerability" (path_join repo_dir file) 2 None None)
        (_analyze_security_vulnerabilities Re.finditer repo_dir
           [File file (Some (line1 ++ String Str.newline indent ++ password_line ++ rest)%string)])) /\
  Str.count_char Str.newline fixture_file = 3 /\
  fixture_file
  = ("import os" ++ String Str.newline password_line
       ++ String Str.newline ("print(password)" ++ String Str.newline ""))%string /\
  _analyze_security_vulnerabilities Re.finditer "/tmp/repo"
    [File "config.py" (Some fixture_file)]
  = [SecurityVulnerability.mk "medium" "hardcoded_secrets"
       "Potential hardcoded_secrets vulnerability" "/tmp/repo/config.py" 2 None None].
Proof.
  assert (G : forall (re_finditer : string -> string -> list Re.flag -> list nat)
                     repo_dir root finding,
             In finding (_analyze_security_vulnerabilities re_finditer repo_dir root) <->
             exists top file content vuln_type patterns pattern start,
               In (top, file, Some content) (os_walk repo_dir root) /\
               Str.endswith_any file source_extensions = true /\
               In (vuln_type, patterns) security_patterns /\ In pattern patterns /\
               In start (re_finditer pattern content [Re.IGNORECASE]) /\
               finding = SecurityVulnerability.mk "medium" vuln_type
                           ("Potential " ++ vuln_type ++ " vulnerability")%string
                           (path_join top file)
                           (1 + Str.count_char Str.newline (Str.slice_to content start))
                           None None).
  { intros re_finditer repo_dir root finding.
    unfold _analyze_security_vulnerabilities. rewrite in_flat_map. split.
    - intros ([[top file] content] & Hw & H).
      destruct (Str.endswith_any file source_extensions) eqn:Ext; [|contradiction].
      destruct content as [content|]; [|contradiction].
      apply scan_security_in in H.
      destruct H as (vuln_type & patterns & pattern & start & Ht & Hp & Hs & ->).
      exists top, file, content, vuln_type, patterns, pattern, start. auto 10.
    - intros (top & file & content & vuln_type & patterns & pattern & start
              & Hw & Ext & Ht & Hp & Hs & ->).
      exists (top, file, Some content). split; [assumption|]. rewrite Ext.
      apply scan_security_in. exists vuln_type, patterns, pattern, start. auto. }
  assert (U : forall repo_dir file before rest,
             Str.endswith_any file source_extensions = true ->
             all_chars (fun c => negb (is_quote c)) before = true ->
             In (SecurityVulnerability.mk "medium" "hardcoded_secrets"
                   "Potential hardcoded_secrets vulnerability" (path_join repo_dir file)
                   (1 + Str.count_char Str.newline before) None None)
                (_analyze_security_vulnerabilities Re.finditer repo_dir
                   [File file (Some (before ++ password_line ++ rest)%string)])).
  { intros repo_dir file before rest Ext Q. apply G.
    exists repo_dir, file, (before ++ password_line ++ rest)%string,
      "hardcoded_secrets"%string.
    eexists. exists password_pattern, (String.length before).
    split; [left; reflexivity|]. split; [assumption|].
    split; [do 3 right; left; reflexivity|]. split; [left; reflexivity|].
    split; [now apply password_found|]. now rewrite slice_to_app. }
  split; [exact G|]. split; [exact U|]. split; [|repeat split; vm_compute; reflexivity].
  intros repo_dir file line1 indent rest Ext H1 H2.
  apply all_chars_and in H1, H2. destruct H1 as [Q1 N1], H2 as [Q2 N2].
  pose proof (U repo_dir file (line1 ++ String Str.newline indent)%string rest Ext) as H.
  rewrite count_char_app in H. cbn [Str.count_char] in H.
  rewrite (count_char_none _ _ N1), (count_char_none _ _ N2), Ascii.eqb_refl in H.
  change (1 + (0 + (1 + 0))) with 2 in H.
  rewrite string_app_assoc in H. apply H.
  rewrite all_chars_app. cbn [all_chars]. now rewrite Q1, Q2.
Qed.

(* ================================================================== *)
(** ** Complexity estimate *)

Lemma maintainability_index_float cyc :
  exists mi, spec_maintainability_index (Py.Float cyc) = Py.Ok mi.
Proof.
  unfold spec_maintainability_index, Py.mul, Py.sub, Py.to_float.
  change (Py.float_of_int 10) with (Py.Ok (S754_finite false 5629499534213120 (-49))).
  change (Py.float_of_int 100) with (Py.Ok f_100).
  cbn [Py.bind]. eauto.
Qed.

Lemma maintainability_index_spec cyc :
  (t <- Py.mul cyc (Py.Int 10) ;; a <- Py.sub (Py.Int 100) t ;; Py.Ok (Py.max (Py.Int 0) a))
  = spec_maintainability_index cyc.
Proof. unfold spec_maintainability_index. now rewrite (mul_comm_num cyc). Qed.

Lemma count_matches_nonneg re_finditer pattern content :
  0 <= count_matches re_finditer pattern content.
Proof. unfold count_matches. apply len_nonneg. Qed.

Lemma fold_left_invariant {A B : Type} (P : A -> Prop) (F : A -> B -> A) xs a :
  P a -> (forall a b, P a -> P (F a b)) -> P (fold_left F xs a).
Proof.
  intros Ha HF. revert a Ha. induction xs as [|x xs IH]; intros a Ha; cbn [fold_left].
  - assumption.
  - apply IH, HF, Ha.
Qed.

Lemma complexity_counts_nonneg re_finditer repo_dir root :
  0 <= fst (fst (complexity_counts re_finditer repo_dir root)) /\
  0 <= snd (fst (complexity_counts re_finditer repo_dir root)) /\
  0 <= snd (complexity_counts re_finditer repo_dir root).
Proof.
  unfold complexity_counts.
  apply (fold_left_invariant
           (fun t : Z * Z * Z => 0 <= fst (fst t) /\ 0 <= snd (fst t) /\ 0 <= snd t)).
  - cbn. lia.
  - intros [[f c] l] [[top file] content] (Hf & Hc & Hl). cbn [fst snd] in Hf, Hc, Hl.
    destruct (Str.endswith_any file source_extensions); [destruct content as [c0|]|];
      cbn [fst snd]; try (repeat split; assumption).
    pose proof (count_matches_nonneg re_finditer "def\s+\w+" c0).
    pose proof (count_matches_nonneg re_finditer "function\s+\w+" c0).
    pose proof (count_matches_nonneg re_finditer "if\s+" c0).
    pose proof (count_matches_nonneg re_finditer "elif\s+" c0).
    pose proof (count_matches_nonneg re_finditer "case\s+" c0).
    pose proof (count_matches_nonneg re_finditer "for\s+" c0).
    pose proof (count_matches_nonneg re_finditer "while\s+" c0).
    lia.
Qed.

(** C5. The complexity estimate is [cyclomatic = (conditionals + loops +
    functions) / functions] when [functions > 0] and the int [0] otherwise,
    and [maintainability_index = max(0, 100 - 10 * cyclomatic)], computed
    from the three counters of the walk; with 5 functions and 10
    conditionals and loops together, [cyclomatic] is [3.0] and the index
    [70.0].

    The clamp: the counters of a walk are never negative; with at least
    one function, [cyclomatic] is at least 1 and the index lies between 0
    and 90, and it is the int [0] as soon as the conditionals and loops
    are nine times the functions or more (a cyclomatic value of 10 or
    more); with 1 function and 19 conditionals, [cyclomatic] is [20.0] and
    the index is [0], not [-100.0]. *)
Theorem complexity_formulas :
  (forall total_functions total_conditionals total_loops,
     total_functions <= 0 ->
     complexity_of_counts total_functions total_conditionals total_loops
     = Py.Ok (ComplexityMetrics.mk (Py.Int 0) (Py.Int 0) (Py.Int 100)) /\
     spec_maintainability_index (Py.Int 0) = Py.Ok (Py.Int 100)) /\
  (forall total_functions total_conditionals total_loops,
     0 < total_functions ->
     Z.abs (total_conditionals + total_loops + total_functions) < 2 ^ 1022 ->
     exists cyclomatic index,
       Py.int_truediv (total_conditionals + total_loops + total_functions) total_functions
       = Py.Ok cyclomatic /\
       spec_maintainability_index (Py.Float cyclomatic) = Py.Ok index /\
       complexity_of_counts total_functions total_conditionals total_loops
       = Py.Ok (ComplexityMetrics.mk (Py.Float cyclomatic) (Py.Int 0) index)) /\
  (forall (re_finditer : string -> string -> list Re.flag -> list nat) repo_dir root,
     _calculate_complexity_metrics re_finditer repo_dir root
     = complexity_of_counts
         (fst (fst (complexity_counts re_finditer repo_dir root)))
         (snd (fst (complexity_counts re_finditer repo_dir root)))
         (snd (complexity_counts re_finditer repo_dir root))) /\
  (forall total_conditionals total_loops,
     total_conditionals + total_loops = 10 ->
     complexity_of_counts 5 total_conditionals total_loops
     = Py.Ok (ComplexityMetrics.mk (Py.Float f_3) (Py.Int 0) (Py.Float f_70))) /\
  Py.eqb (Py.Float f_3) (Py.Int 3) = true /\
  Py.eqb (Py.Float f_70) (Py.Int 70) = true /\
  (forall (re_finditer : string -> string -> list Re.flag -> list nat) repo_dir root,
     0 <= fst (fst (complexity_counts re_finditer repo_dir root)) /\
     0 <= snd (fst (complexity_counts re_finditer repo_dir root)) /\
     0 <= snd (complexity_counts re_finditer repo_dir root)) /\
  (forall total_functions total_conditionals total_loops,
     0 < total_functions -> 0 <= total_conditionals -> 0 <= total_loops ->
     total_conditionals + total_loops + total_functions < 2 ^ 64 ->
     exists cyclomatic index,
       complexity_of_counts total_functions total_conditionals total_loops
       = Py.Ok (ComplexityMetrics.mk (Py.Float cyclomatic) (Py.Int 0) index) /\
       Py.le (Py.Int 1) (Py.Float cyclomatic) = true /\
       Py.le (Py.Int 0) index = true /\
       Py.le index (Py.Int 90) = true /\
       (9 * total_functions <= total_conditionals + total_loops -> index = Py.Int 0)) /\
  complexity_of_counts 1 19 0
  = Py.Ok (ComplexityMetrics.mk (Py.Float f_20) (Py.Int 0) (Py.Int 0)) /\
  Py.eqb (Py.Float f_20) (Py.Int 20) = true.
Proof.
  split; [|split; [|split; [|split; [|split; [|split; [|split; [|split; [|split]]]]]]]];
    try reflexivity.
  - intros f c l Hf. split; [|reflexivity]. unfold complexity_of_counts.
    destruct (Z.ltb_spec 0 f); [lia|]. reflexivity.
  - intros f c l Hf Hb.
    destruct (int_truediv_total (c + l + f) f ltac:(lia) Hb) as [cyc E].
    destruct (maintainability_index_float cyc) as [mi M].
    exists cyc, mi. split; [assumption|]. split; [assumption|].
    unfold complexity_of_counts. destruct (Z.ltb_spec 0 f); [|lia].
    rewrite E. cbn [Py.bind]. rewrite <- maintainability_index_spec in M.
    apply bind_ok in M. destruct M as (t & -> & M). cbn [Py.bind].
    apply bind_ok in M. destruct M as (a & -> & M). cbn [Py.bind]. congruence.
  - intros re_finditer repo_dir root. unfold _calculate_complexity_metrics.
    destruct (complexity_counts re_finditer repo_dir root) as [[f c] l]. reflexivity.
  - intros c l H. unfold complexity_of_counts. cbn [Z.ltb Z.compare].
    replace (c + l + 5) with 15 by lia. reflexivity.
  - apply complexity_counts_nonneg.
  - apply complexity_clamped.
Qed.

Lemma complexity_formulas_witness :
  complexity_of_counts 5 6 4
  = Py.Ok (ComplexityMetrics.mk (Py.Float f_3) (Py.Int 0) (Py.Float f_70)) /\
  complexity_of_counts 0 6 4
  = Py.Ok (ComplexityMetrics.mk (Py.Int 0) (Py.Int 0) (Py.Int 100)) /\
  exists cyclomatic index,
    complexity_of_counts 2 30 8
    = Py.Ok (ComplexityMetrics.mk (Py.Float cyclomatic) (Py.Int 0) index) /\
    Py.le (Py.Int 1) (Py.Float cyclomatic) = true /\
    Py.le (Py.Int 0) index = true /\
    index = Py.Int 0.
Proof.
  split; [|split].
  - exact (proj1 (proj2 (proj2 (proj2 complexity_formulas))) 6 4 ltac:(reflexivity)).
  - exact (proj1 (proj1 complexity_formulas 0 6 4 ltac:(lia))).
  - destruct (proj1 (proj2 (proj2 (proj2 (proj2 (proj2 (proj2 (proj2 complexity_formulas)))))))
                2 30 8 ltac:(lia) ltac:(lia) ltac:(lia) ltac:(reflexivity))
      as (cyc & index & E & H1 & H0 & _ & HZ).
    exists cyc, index. split; [exact E|]. split; [exact H1|]. split; [exact H0|].
    apply HZ. lia.
Defined.

(* ================================================================== *)
(** ** Architecture patterns *)

Lemma path_exists_iff root name :
  path_exists root name = true <->
  exists e, In e root /\ entry_exists e = true /\ entry_name e = name.
Proof.
  unfold path_exists. rewrite existsb_exists.
  split.
  - intros (e & H & E). apply andb_true_iff in E. destruct E as [E X].
    exists e. split; [assumption|]. split; [assumption|]. now apply String.eqb_eq.
  - intros (e & H & X & E). exists e. split; [assumption|].
    apply andb_true_iff. split; [now apply String.eqb_eq|assumption].
Qed.

Lemma path_exists_any root names :
  existsb (path_exists root) names = true <->
  exists e, In e root /\ entry_exists e = true /\ In (entry_name e) names.
Proof.
  rewrite existsb_exists. split.
  - intros (n & Hn & H). apply path_exists_iff in H. destruct H as (e & He & X & <-). eauto.
  - intros (e & He & X & Hn). exists (entry_name e). split; [assumption|].
    apply path_exists_iff. eauto.
Qed.

(** C6 (amended). When something named [models], [views] or [controllers]
    exists directly under the root ([os.path.exists]: a directory, a file
    or a link whose target exists, but not a dangling link), the detector
    emits exactly one [MVC] pattern, with confidence 0.8; when something
    named [services] or [microservices] exists, exactly one
    [Microservices] pattern, with confidence 0.7; a pattern without such
    an entry is omitted.  The [files] field of an emitted pattern is the
    fixed list of all the names of its cue (['models/', 'views/',
    'controllers/'], resp. ['services/', 'microservices/']), whichever of
    them exist. *)
Theorem architecture_patterns_fixed :
  forall root,
    let mvc_cue :=
      exists e, In e root /\ entry_exists e = true /\
                In (entry_name e) ["models"; "views"; "controllers"]%string in
    let microservices_cue :=
      exists e, In e root /\ entry_exists e = true /\
                In (entry_name e) ["services"; "microservices"]%string in
    let mvc :=
      ArchitecturePattern.mk "MVC" Py.f_0_8 ["MVC directory structure detected"%string]
        ["models/"; "views/"; "controllers/"]%string in
    let microservices :=
      ArchitecturePattern.mk "Microservices" Py.f_0_7
        ["Microservices directory structure detected"%string]
        ["services/"; "microservices/"]%string in
    (mvc_cue -> microservices_cue ->
     _detect_architecture_patterns root = [mvc; microservices]) /\
    (mvc_cue -> ~ microservices_cue -> _detect_architecture_patterns root = [mvc]) /\
    (~ mvc_cue -> microservices_cue ->
     _detect_architecture_patterns root = [microservices]) /\
    (~ mvc_cue -> ~ microservices_cue -> _detect_architecture_patterns root = []).
Proof.
  intros root. cbv zeta.
  pose proof (path_exists_any root ["models"; "views"; "controllers"]%string) as Hm.
  pose proof (path_exists_any root ["services"; "microservices"]%string) as Hs.
  cbn [existsb] in Hm, Hs. rewrite !orb_false_r in Hm, Hs. rewrite orb_assoc in Hm.
  unfold _detect_architecture_patterns.
  destruct (path_exists root "models" || path_exists root "views"
            || path_exists root "controllers");
    destruct (path_exists root "services" || path_exists root "microservices");
    repeat split; intros A B; try reflexivity; exfalso;
    first [ apply Hm in A; discriminate | apply Hs in B; discriminate
          | apply A; now apply Hm | apply B; now apply Hs ].
Qed.

Lemma architecture_patterns_fixed_witness :
  _detect_architecture_patterns
    [Dir "src" []; Dir "services" []; File "README.md" None; Symlink "models" Dangling]
  = [ArchitecturePattern.mk "Microservices" Py.f_0_7
       ["Microservices directory structure detected"%string]
       ["services/"; "microservices/"]%string].
Proof.
  apply (proj1 (proj2 (proj2
    (architecture_patterns_fixed
       [Dir "src" []; Dir "services" []; File "README.md" None;
        Symlink "models" Dangling])))).
  - intros (e & He & X & Hn). cbn in He, Hn.
    destruct He as [<-|[<-|[<-|[<-|[]]]]]; cbn in Hn, X; intuition discriminate.
  - exists (Dir "services" []). split; [|split]; cbn; auto.
Defined.

(** The [files] field lists directories that did not match: with only the
    directory [models] under the root, it also names [views/] and
    [controllers/].  And the cue need not be a directory: a regular file
    named [models], with no directory at all under the root, yields the
    [MVC] pattern. *)
Lemma architecture_files_counterexample :
  (exists p,
     _detect_architecture_patterns [Dir "models" []] = [p] /\
     ArchitecturePattern.files p = ["models/"; "views/"; "controllers/"]%string /\
     path_exists [Dir "models" []] "views" = false /\
     path_exists [Dir "models" []] "views/" = false /\
     path_exists [Dir "models" []] "controllers" = false /\
     path_exists [Dir "models" []] "controllers/" = false) /\
  (exists p,
     _detect_architecture_patterns [File "models" (Some EmptyString)] = [p] /\
     ArchitecturePattern.pattern p = "MVC"%string /\
     existsb entry_isdir [File "models" (Some EmptyString)] = false).
Proof. split; eexists; repeat split; reflexivity. Qed.

Lemma finding_line_numbers_witness :
  In (SecurityVulnerability.mk "medium" "hardcoded_secrets"
        "Potential hardcoded_secrets vulnerability" "/tmp/repo/config.py" 2 None None)
     (_analyze_security_vulnerabilities Re.finditer "/tmp/repo"
        [File "config.py" (Some fixture_file)]).
Proof.
  apply (proj1 finding_line_numbers Re.finditer).
  exists "/tmp/repo"%string, "config.py"%string, fixture_file, "hardcoded_secrets"%string.
  eexists. eexists. exists 10%nat.
  split; [left; reflexivity|]. split; [reflexivity|].
  split; [do 3 right; left; reflexivity|].
  split; [left; reflexivity|]. split; [left; reflexivity|reflexivity].
Defined.

(* ================================================================== *)
(** ** The grade thresholds in integers *)

Lemma reprs_0_01 : reprs false Py.f_0_01 W_0_01.
Proof. exists 5764607523034235%positive, (-59). repeat split. Qed.

Lemma reprs_0_05 : reprs false Py.f_0_05 W_0_05.
Proof. exists 7205759403792794%positive, (-57). repeat split. Qed.

Lemma reprs_0_1 : reprs false Py.f_0_1 W_0_1.
Proof. exists 7205759403792794%positive, (-56). repeat split. Qed.

Lemma reprs_0_2 : reprs false Py.f_0_2 W_0_2.
Proof. exists 7205759403792794%positive, (-55). repeat split. Qed.

Lemma flt_reprs F W G V : reprs false F W -> reprs false G V -> Py.flt F G = (W <? V).
Proof.
  intros RF RG. unfold Py.flt, SFltb. rewrite (reprs_compare _ _ _ _ RF RG).
  unfold Z.ltb. destruct (W ?= V); reflexivity.
Qed.

(** The grade, from the value of the rounded ratio. *)
Lemma get_grade_val count total :
  0 < count < 2 ^ 1022 -> 0 < total < 2 ^ 1000 ->
  get_grade count total =
  Py.Ok (grade_of_val (rnd_quot count total)).
Proof.
  intros Hc Ht. destruct (int_truediv_val count total Hc Ht) as (F & E & R).
  rewrite (get_grade_bands count total F ltac:(lia) E).
  rewrite (flt_reprs _ _ _ _ R reprs_0_01), (flt_reprs _ _ _ _ R reprs_0_05),
    (flt_reprs _ _ _ _ R reprs_0_1), (flt_reprs _ _ _ _ R reprs_0_2).
  reflexivity.
Qed.

Lemma quot_ge_threshold count total k Wk :
  0 < count -> 0 < total < 2 ^ 1000 -> 0 < k < 2 ^ 1000 ->
  total <= k * count -> rnd_quot 1 k = Wk -> Wk <= rnd_quot count total.
Proof.
  intros Hc Ht Hk H <-. apply rnd_quot_mono; first [lia | apply quot_pos; lia].
Qed.

Lemma quot_lt_threshold count total Mnum g Wm Wk :
  0 < count -> 0 < total < 2 ^ 1000 -> 0 <= g ->
  count * 2 ^ g <= Mnum * total -> rnd_quot Mnum (2 ^ g) = Wm -> Wm < Wk ->
  rnd_quot count total < Wk.
Proof.
  intros Hc Ht Hg H <- L. eapply Z.le_lt_trans; [|exact L].
  apply rnd_quot_mono; first [lia | apply pow2_pos; lia | apply quot_pos; lia].
Qed.

Lemma ltb_threshold count total k Wk Mnum g Wm :
  0 < count -> 0 < total < 2 ^ 1000 -> 0 < k < 2 ^ 1000 -> 0 <= g ->
  rnd_quot 1 k = Wk -> rnd_quot Mnum (2 ^ g) = Wm -> Wm < Wk ->
  (k * count < total -> count * 2 ^ g <= Mnum * total) ->
  (rnd_quot count total <? Wk) = (k * count <? total).
Proof.
  intros Hc Ht Hk Hg E1 E2 L HM.
  destruct (Z.ltb_spec (k * count) total) as [A|A].
  - apply Z.ltb_lt. eapply quot_lt_threshold; eauto.
  - apply Z.ltb_ge. eapply quot_ge_threshold; eauto.
Qed.

Lemma pow53_lt_pow1000 : 2 ^ 53 < 2 ^ 1000.
Proof. apply Z.pow_lt_mono_r; lia. Qed.

(** X1. For a count of findings that is not negative and a total of
    files between 1 and [2^53], the grade is decided by the integer
    comparisons of the thresholds: ['A'] when [100 * count < total], ['B']
    when [20 * count < total], ['C'] when [10 * count < total], ['D'] when
    [5 * count < total], and ['E'] otherwise; the rounding of the quotient
    and of the literals [0.01], [0.05], [0.1], [0.2] never moves a
    boundary. *)
Theorem get_grade_thresholds :
  forall count total,
    0 <= count < 2 ^ 1022 -> 0 < total <= 2 ^ 53 ->
    get_grade count total = Py.Ok (grade_of_ratio count total).
Proof.
  intros count total Hc Ht. unfold grade_of_ratio.
  pose proof pow53_lt_pow1000 as P. change (2 ^ 53) with 9007199254740992 in P, Ht.
  destruct (Z.eq_dec count 0) as [->|N].
  - rewrite get_grade_zero. destruct (Z.ltb_spec (100 * 0) total); [reflexivity|lia].
  - rewrite get_grade_val by lia. unfold grade_of_val.
    rewrite (ltb_threshold count total 100 W_0_01 184467440737095503 64
               (5764607523034234 * 2 ^ 1015));
      [|lia|lia|lia|lia
       |vm_compute; reflexivity|vm_compute; reflexivity|vm_compute; reflexivity
       |intros A; change (2 ^ 64) with 18446744073709551616; lia].
    rewrite (ltb_threshold count total 20 W_0_05 230584300921369391 62
               (7205759403792793 * 2 ^ 1017));
      [|lia|lia|lia|lia
       |vm_compute; reflexivity|vm_compute; reflexivity|vm_compute; reflexivity
       |intros A; change (2 ^ 62) with 4611686018427387904; lia].
    rewrite (ltb_threshold count total 10 W_0_1 230584300921369391 61
               (7205759403792793 * 2 ^ 1018));
      [|lia|lia|lia|lia
       |vm_compute; reflexivity|vm_compute; reflexivity|vm_compute; reflexivity
       |intros A; change (2 ^ 61) with 2305843009213693952; lia].
    rewrite (ltb_threshold count total 5 W_0_2 230584300921369391 60
               (7205759403792793 * 2 ^ 1019));
      [|lia|lia|lia|lia
       |vm_compute; reflexivity|vm_compute; reflexivity|vm_compute; reflexivity
       |intros A; change (2 ^ 60) with 1152921504606846976; lia].
    reflexivity.
Qed.

Lemma get_grade_thresholds_witness :
  get_grade 3 100 = Py.Ok "B"%string /\ get_grade 99 10000 = Py.Ok "A"%string /\
  get_grade 7 35 = Py.Ok "E"%string.
Proof.
  split; [|split].
  - apply (get_grade_thresholds 3 100); split; first [reflexivity | discriminate].
  - apply (get_grade_thresholds 99 10000); split; first [reflexivity | discriminate].
  - apply (get_grade_thresholds 7 35); split; first [reflexivity | discriminate].
Defined.

Lemma grade_of_val_mono W W' :
  W <= W' -> (grade_rank (grade_of_val W) <= grade_rank (grade_of_val W'))%nat.
Proof.
  unfold grade_of_val.
  intros H.
  assert (O1 : W_0_01 < W_0_05) by reflexivity.
  assert (O2 : W_0_05 < W_0_1) by reflexivity.
  assert (O3 : W_0_1 < W_0_2) by reflexivity.
  destruct (Z.ltb_spec W W_0_01), (Z.ltb_spec W W_0_05), (Z.ltb_spec W W_0_1),
    (Z.ltb_spec W W_0_2), (Z.ltb_spec W' W_0_01), (Z.ltb_spec W' W_0_05),
    (Z.ltb_spec W' W_0_1), (Z.ltb_spec W' W_0_2);
    try (exfalso; lia); cbn; lia.
Qed.

(** X2. The grade is monotone: with at least as many findings in at most
    as many files the grade is never better, so that for a fixed total
    more findings never improve the grade and for a fixed count more files
    never worsen it (counts below [2^1022], totals below [2^1000]). *)
Theorem get_grade_monotone :
  forall count count' total total' g g',
    0 <= count <= count' -> count' < 2 ^ 1022 ->
    0 < total' <= total -> total < 2 ^ 1000 ->
    get_grade count total = Py.Ok g -> get_grade count' total' = Py.Ok g' ->
    (grade_rank g <= grade_rank g')%nat.
Proof.
  intros count count' total total' g g' Hc Hc' Ht Ht' E E'.
  destruct (Z.eq_dec count 0) as [->|N].
  - rewrite get_grade_zero in E. injection E as <-. cbn. lia.
  - rewrite get_grade_val in E, E' by lia.
    injection E as <-. injection E' as <-.
    apply grade_of_val_mono.
    apply rnd_quot_mono; first [lia | apply quot_pos; lia | nia].
Qed.

Lemma get_grade_monotone_witness :
  get_grade 3 100 = Py.Ok "B"%string /\ get_grade 12 80 = Py.Ok "D"%string /\
  (grade_rank "B" <= grade_rank "D")%nat.
Proof.
  split; [reflexivity|]. split; [reflexivity|].
  apply (get_grade_monotone 3 12 100 80 "B" "D");
    first [reflexivity | split; first [reflexivity | discriminate]].
Defined.

(* ================================================================== *)
(** ** The simulated counts of the basic analyzer *)

Lemma rnd_int_small_scaled z k :
  0 < z < 2 ^ 53 -> 0 <= k -> rnd_int (z * 2 ^ k) = z * 2 ^ k.
Proof.
  intros Hz Hk.
  pose proof (Zdigits2_lt_pow z 53 ltac:(lia) ltac:(lia)) as D.
  pose proof (Zdigits2_pos z ltac:(lia)) as P.
  apply rnd_int_exact.
  - apply Z.mul_pos_pos; [lia|apply pow2_pos; lia].
  - rewrite Zdigits2_mul_pow2 by lia.
    set (n := Z.max (Zdigits2 z + k - 53) 0).
    rewrite (pow2_split k n) by (unfold n; lia).
    rewrite Z.mul_assoc. apply Z.mod_mul. apply Z.pow_nonzero; unfold n; lia.
Qed.

Lemma int_of_float_reprs F W : reprs false F W -> Py.int_of_float F = Py.Ok (W / 2 ^ 1074).
Proof.
  intros (m & e & -> & B & <-). apply bounded_inv in B. destruct B as (He & _).
  cbn [Py.int_of_float cond_Zopp]. f_equal.
  destruct (Z.leb_spec 0 e) as [P|N].
  - rewrite Z.pow_add_r, Z.mul_assoc by lia.
    symmetry. apply Z.div_mul. apply Z.pow_nonzero; lia.
  - rewrite (pow2_split 1074 (e + 1074)) by lia.
    replace (1074 - (e + 1074)) with (- e) by lia.
    symmetry. apply Z.div_mul_cancel_r; apply Z.pow_nonzero; lia.
Qed.

(** [int(n / d)] is the integer quotient while the quotient stays well
    below [2^53]. *)
Lemma int_truediv_floor n d g :
  0 <= n -> 0 < d <= 2 ^ g -> 0 <= g <= 20 -> (n / d + 1) * 2 ^ g <= 2 ^ 53 ->
  (r <- Py.int_truediv n d ;; Py.int_of_float r) = Py.Ok (n / d).
Proof.
  intros Hn Hd Hg Hb.
  pose proof (pow2_pos g ltac:(lia)) as HPg.
  pose proof (pow2_pos 1074 ltac:(lia)) as HP.
  assert (G20 : 2 ^ g <= 2 ^ 20) by (apply Z.pow_le_mono_r; lia).
  assert (P20 : 2 ^ 20 < 2 ^ 1000) by (apply Z.pow_lt_mono_r; lia).
  assert (P53 : 2 ^ 53 < 2 ^ 1022) by (apply Z.pow_lt_mono_r; lia).
  destruct (Z.eq_dec n 0) as [->|N].
  - destruct (int_truediv_zero d ltac:(lia)) as [s ->]. cbn [Py.bind Py.int_of_float].
    now rewrite Z.div_0_l by lia.
  - pose proof (Z.div_mod n d ltac:(lia)) as EN.
    pose proof (Z.mod_pos_bound n d ltac:(lia)) as RN.
    set (K := n / d) in *.
    assert (HK : 0 <= K) by (apply Z.div_pos; lia).
    assert (Hn53 : n < 2 ^ 53).
    { assert (n < (K + 1) * d) by nia.
      assert ((K + 1) * d <= (K + 1) * 2 ^ g) by (apply Z.mul_le_mono_nonneg_l; lia).
      lia. }
    destruct (int_truediv_val n d ltac:(lia) ltac:(lia)) as (F & -> & R).
    cbn [Py.bind]. rewrite (int_of_float_reprs F _ R). f_equal.
    set (W := rnd_quot n d) in *.
    pose proof (reprs_pos _ _ _ R) as PW.
    assert (LW : K * 2 ^ 1074 <= W).
    { destruct (Z.eq_dec K 0) as [->|NK]; [lia|].
      rewrite <- (rnd_quot_int K) by lia.
      apply rnd_quot_mono; first [lia | apply quot_pos; lia]. }
    assert (UW : W < (K + 1) * 2 ^ 1074).
    { set (Y := (K + 1) * 2 ^ g - 1).
      assert (HY : 0 < Y < 2 ^ 53) by (unfold Y; nia).
      apply (Z.le_lt_trans _ (rnd_quot Y (2 ^ g))).
      - apply rnd_quot_mono; first [lia | apply quot_pos; lia | idtac].
        unfold Y. assert (n * 2 ^ g <= (K * d + d - 1) * 2 ^ g)
          by (apply Z.mul_le_mono_nonneg_r; lia).
        nia.
      - assert (EX : Y * 2 ^ 1074 = Y * 2 ^ (1074 - g) * 2 ^ g).
        { rewrite <- Z.mul_assoc, <- Z.pow_add_r by lia. do 2 f_equal. lia. }
        rewrite rnd_quot_exact by (try lia; rewrite EX; apply Z.mod_mul; lia).
        rewrite EX, Z.div_mul by lia.
        rewrite rnd_int_small_scaled by lia.
        unfold Y. rewrite Z.mul_sub_distr_r.
        rewrite <- Z.mul_assoc, <- Z.pow_add_r by lia.
        replace (g + (1074 - g)) with 1074 by lia.
        pose proof (pow2_pos (1074 - g) ltac:(lia)). lia. }
    symmetry. apply (Z.div_unique _ _ K (W - K * 2 ^ 1074)); lia.
Qed.

Lemma estimate_floor n d g k :
  0 <= n -> 0 < d <= 2 ^ g -> 0 <= g <= 20 -> (n / d + 1) * 2 ^ g <= 2 ^ 53 ->
  estimate n d k = Py.Ok (Z.max 0 (n / d - k)).
Proof.
  intros Hn Hd Hg Hb. pose proof (int_truediv_floor n d g Hn Hd Hg Hb) as E.
  unfold estimate.
  destruct (Py.int_truediv n d) as [r|]; cbn [Py.bind] in E |- *; [|discriminate].
  rewrite E. reflexivity.
Qed.

(** X3. In the basic analyzer the simulated counts are integer quotients of
    the line count: for [0 <= total_lines < 2^52], [bugs] is
    [max(0, total_lines // 1000 - 2)], [vulnerabilities] is
    [total_lines // 5000] and [code_smells] is [total_lines // 200] (the
    float division followed by [int] never rounds up to the next integer),
    and the card is always produced. *)
Theorem simulated_counts_are_quotients :
  forall code_metrics,
    let total_lines := dict_get code_metrics "total_lines" 0 in
    0 <= total_lines < 2 ^ 52 ->
    exists card,
      _calculate_acid_scores code_metrics = Py.Ok card /\
      AcidScores.bugs card = Z.max 0 (total_lines / 1000 - 2) /\
      AcidScores.vulnerabilities card = total_lines / 5000 /\
      AcidScores.code_smells card = total_lines / 200.
Proof.
  intros code_metrics n Hn. unfold _calculate_acid_scores. fold n.
  change (2 ^ 52) with 4503599627370496 in Hn.
  assert (D1 : 0 <= n / 1000 < 4503599627371).
  { split; [apply Z.div_pos; lia|apply Z.div_lt_upper_bound; lia]. }
  assert (D2 : 0 <= n / 5000 < 900719925475).
  { split; [apply Z.div_pos; lia|apply Z.div_lt_upper_bound; lia]. }
  assert (D3 : 0 <= n / 200 < 22517998136853).
  { split; [apply Z.div_pos; lia|apply Z.div_lt_upper_bound; lia]. }
  rewrite (estimate_floor n 1000 10), (estimate_floor n 5000 13), (estimate_floor n 200 8);
    try lia;
    try (change (2 ^ 53) with 9007199254740992; change (2 ^ 8) with 256;
         change (2 ^ 10) with 1024; change (2 ^ 13) with 8192; lia).
  cbn [Py.bind].
  set (b := Z.max 0 (n / 1000 - 2)). set (v := Z.max 0 (n / 5000 - 0)).
  set (s := Z.max 0 (n / 200 - 0)).
  assert (Hb : 0 <= b <= Py.PY_SSIZE_T_MAX) by (unfold b, Py.PY_SSIZE_T_MAX; lia).
  assert (Hv : 0 <= v <= Py.PY_SSIZE_T_MAX) by (unfold v, Py.PY_SSIZE_T_MAX; lia).
  assert (Hs : 0 <= s <= Py.PY_SSIZE_T_MAX) by (unfold s, Py.PY_SSIZE_T_MAX; lia).
  assert (Hab : forall z, 0 <= z <= Py.PY_SSIZE_T_MAX -> Z.abs z < 2 ^ 1022).
  { intros z Hz. apply abs_small. pose proof (len_bound_small z Hz).
    assert (2 ^ 70 = 128 * 2 ^ 63) by reflexivity. lia. }
  set (tf := dict_get code_metrics "total_files" 0).
  destruct (get_grade_total b tf (Hab b Hb)) as [bg ->].
  destruct (get_grade_total v tf (Hab v Hv)) as [vg ->].
  destruct (get_grade_total s tf (Hab s Hs)) as [sg ->].
  destruct (quality_score_total b v s Hb Hv Hs) as [q ->].
  rewrite security_score_int.
  destruct (maintainability_score_total s Hs) as [m ->].
  cbn [Py.bind]. eexists. split; [reflexivity|].
  cbn [AcidScores.bugs AcidScores.vulnerabilities AcidScores.code_smells].
  unfold b, v, s. repeat split; lia.
Qed.

Lemma simulated_counts_are_quotients_witness :
  exists card,
    _calculate_acid_scores [("total_lines"%string, 12345); ("total_files"%string, 40)]
    = Py.Ok card /\
    AcidScores.bugs card = 10 /\ AcidScores.vulnerabilities card = 2 /\
    AcidScores.code_smells card = 61.
Proof.
  destruct (simulated_counts_are_quotients
              [("total_lines"%string, 12345); ("total_files"%string, 40)])
    as (card & E & Hb & Hv & Hs).
  - cbn. split; [discriminate|reflexivity].
  - exists card. split; [exact E|]. split; [exact Hb|]. split; [exact Hv|exact Hs].
Defined.

(* ================================================================== *)
(** ** What the walk visits *)

Lemma entry_induction (P : entry -> Prop) :
  (forall n c, P (File n c)) ->
  (forall n children, Forall P children -> P (Dir n children)) ->
  (forall n t, P (Symlink n t)) ->
  forall e, P e.
Proof.
  intros HF HD HS. fix IH 1. intros [n c|n children|n t].
  - apply HF.
  - apply HD. induction children as [|x xs IHxs]; constructor; [apply IH|exact IHxs].
  - apply HS.
Qed.

Lemma listing_app top xs ys : listing top (xs ++ ys) = (listing top xs ++ listing top ys)%list.
Proof.
  induction xs as [|[n c|n ch|n [|c|]] xs IH]; cbn [listing app]; rewrite ?IH; reflexivity.
Qed.

Lemma listing_visible top es : listing top (flat_map visible es) = listing top es.
Proof.
  induction es as [|e es IH]; [reflexivity|].
  cbn [flat_map]. rewrite listing_app, IH.
  destruct e as [n c|n ch|n [|c|]]; cbn [visible listing app]; try reflexivity.
  destruct (Str.startswith n "."); reflexivity.
Qed.

Lemma flat_map_flat_map {A B C : Type} (f : B -> list C) (g : A -> list B) xs :
  flat_map f (flat_map g xs) = flat_map (fun x => flat_map f (g x)) xs.
Proof.
  induction xs as [|x xs IH]; [reflexivity|].
  cbn [flat_map]. now rewrite flat_map_app, IH.
Qed.

Lemma flat_map_ext_Forall {A B : Type} (f g : A -> list B) xs :
  Forall (fun x => f x = g x) xs -> flat_map f xs = flat_map g xs.
Proof.
  induction 1 as [|x xs E _ IH]; [reflexivity|]. cbn [flat_map]. now rewrite E, IH.
Qed.

Lemma walk_visible e :
  forall top, flat_map (walk_entry top) (visible e) = walk_entry top e.
Proof.
  induction e as [n c|n children IH|n t] using entry_induction; intros top.
  - reflexivity.
  - cbn [visible walk_entry]. destruct (Str.startswith n ".") eqn:E; [reflexivity|].
    cbn [flat_map walk_entry]. rewrite E, app_nil_r, listing_visible.
    f_equal. rewrite flat_map_flat_map. apply flat_map_ext_Forall.
    eapply Forall_impl; [|exact IH]. intros x Hx. apply Hx.
  - reflexivity.
Qed.

Lemma os_walk_visible repo_dir root :
  os_walk repo_dir (visible_tree root) = os_walk repo_dir root.
Proof.
  unfold os_walk, visible_tree. rewrite listing_visible. f_equal.
  rewrite flat_map_flat_map. apply flat_map_ext_Forall.
  apply Forall_forall. intros e _. apply walk_visible.
Qed.

(** X4. Hidden directories are never scanned: the security scan, the
    quality scan and the complexity counters of a tree are those of the
    tree with every directory whose name starts with a dot removed, at
    every depth, whatever the regular-expression engine; a tree that holds
    only hidden directories yields nothing. *)
Theorem hidden_directories_skipped :
  forall (re_finditer : string -> string -> list Re.flag -> list nat) repo_dir root,
    _analyze_security_vulnerabilities re_finditer repo_dir (visible_tree root)
    = _analyze_security_vulnerabilities re_finditer repo_dir root /\
    _analyze_code_quality_issues re_finditer repo_dir (visible_tree root)
    = _analyze_code_quality_issues re_finditer repo_dir root /\
    complexity_counts re_finditer repo_dir (visible_tree root)
    = complexity_counts re_finditer repo_dir root /\
    (visible_tree root = [] ->
     _analyze_security_vulnerabilities re_finditer repo_dir root = [] /\
     _analyze_code_quality_issues re_finditer repo_dir root = [] /\
     complexity_counts re_finditer repo_dir root = (0, 0, 0)).
Proof.
  intros re_finditer repo_dir root.
  unfold _analyze_security_vulnerabilities, _analyze_code_quality_issues, complexity_counts.
  rewrite os_walk_visible. repeat split; try reflexivity;
    rewrite <- (os_walk_visible repo_dir root), H; reflexivity.
Qed.

Lemma hidden_directories_skipped_witness :
  visible_tree [Dir ".git" [File "hook.py" (Some fixture_file)];
                Dir "src" [Dir ".cache" [File "c.py" (Some fixture_file)]]]
  = [Dir "src" []] /\
  _analyze_security_vulnerabilities Re.finditer "/tmp/repo"
    [Dir ".git" [File "hook.py" (Some fixture_file)]] = [].
Proof.
  split; [reflexivity|].
  apply (proj2 (proj2 (proj2 (hidden_directories_skipped Re.finditer "/tmp/repo"
                                [Dir ".git" [File "hook.py" (Some fixture_file)]])))).
  reflexivity.
Defined.

(* ================================================================== *)
(** ** Line numbers of the findings *)

Lemma count_char_nonneg c s : 0 <= Str.count_char c s.
Proof.
  induction s as [|x s IH]; cbn [Str.count_char]; [lia|].
  destruct (Ascii.eqb x c); lia.
Qed.

Lemma count_char_slice c s n :
  Str.count_char c (Str.slice_to s n) <= Str.count_char c s.
Proof.
  unfold Str.slice_to. revert n. induction s as [|x s IH]; intros n.
  - destruct n; cbn; lia.
  - destruct n as [|n]; cbn [substring Str.count_char].
    + pose proof (count_char_nonneg c s). destruct (Ascii.eqb x c); lia.
    + specialize (IH n). destruct (Ascii.eqb x c); lia.
Qed.

Lemma line_of_range content start :
  1 <= line_of content start <= 1 + Str.count_char Str.newline content.
Proof.
  unfold line_of.
  pose proof (count_char_nonneg Str.newline (Str.slice_to content start)).
  pose proof (count_char_slice Str.newline content start). lia.
Qed.

(** X5. Every security finding and every quality issue names a file that
    the walk visited and could read, whose name ends in one of the six
    source extensions, and carries a line of that file: at least 1 and at
    most one more than the number of its newline characters, whatever the
    regular-expression engine reports. *)
Theorem findings_name_scanned_lines :
  forall (re_finditer : string -> string -> list Re.flag -> list nat) repo_dir root,
    (forall finding,
       In finding (_analyze_security_vulnerabilities re_finditer repo_dir root) ->
       exists top file content,
         In (top, file, Some content) (os_walk repo_dir root) /\
         Str.endswith_any file source_extensions = true /\
         SecurityVulnerability.file finding = path_join top file /\
         1 <= SecurityVulnerability.line finding
           <= 1 + Str.count_char Str.newline content) /\
    (forall issue,
       In issue (_analyze_code_quality_issues re_finditer repo_dir root) ->
       exists top file content,
         In (top, file, Some content) (os_walk repo_dir root) /\
         Str.endswith_any file source_extensions = true /\
         CodeQualityIssue.file issue = path_join top file /\
         1 <= CodeQualityIssue.line issue <= 1 + Str.count_char Str.newline content).
Proof.
  intros re_finditer repo_dir root. split.
  - intros finding H. unfold _analyze_security_vulnerabilities in H.
    apply in_flat_map in H. destruct H as ([[top file] content] & Hw & H).
    destruct (Str.endswith_any file source_extensions) eqn:E; [|contradiction].
    destruct content as [c|]; [|contradiction].
    exists top, file, c. split; [assumption|]. split; [assumption|].
    unfold scan_security in H. apply in_flat_map in H.
    destruct H as ([vuln_type patterns] & _ & H). apply in_flat_map in H.
    destruct H as (pattern & _ & H). apply in_map_iff in H.
    destruct H as (start & <- & _). cbn [SecurityVulnerability.file SecurityVulnerability.line].
    split; [reflexivity|apply line_of_range].
  - intros issue H. unfold _analyze_code_quality_issues in H.
    apply in_flat_map in H. destruct H as ([[top file] content] & Hw & H).
    destruct (Str.endswith_any file source_extensions) eqn:E; [|contradiction].
    destruct content as [c|]; [|contradiction].
    exists top, file, c. split; [assumption|]. split; [assumption|].
    unfold scan_quality in H. apply in_flat_map in H.
    destruct H as ([issue_type pattern] & _ & H). apply in_map_iff in H.
    destruct H as (start & <- & _). cbn [CodeQualityIssue.file CodeQualityIssue.line].
    split; [reflexivity|apply line_of_range].
Qed.

Lemma findings_name_scanned_lines_witness :
  exists top file content,
    In (top, file, Some content)
       (os_walk "/tmp/repo" [File "app.py" (Some quality_fixture)]) /\
    Str.endswith_any file source_extensions = true /\
    CodeQualityIssue.file (smell "empty_catch" "/tmp/repo/app.py" 4) = path_join top file /\
    1 <= CodeQualityIssue.line (smell "empty_catch" "/tmp/repo/app.py" 4)
      <= 1 + Str.count_char Str.newline content.
Proof.
  apply (proj2 (findings_name_scanned_lines Re.finditer "/tmp/repo"
                  [File "app.py" (Some quality_fixture)])).
  vm_compute. right. right. left. reflexivity.
Defined.

(* ================================================================== *)
(** ** Skills of a profile *)

Lemma existsb_eqb_In x xs : existsb (String.eqb x) xs = true <-> In x xs.
Proof.
  rewrite existsb_exists. split.
  - intros (y & Hy & E). apply String.eqb_eq in E. now subst.
  - intros H. exists x. split; [exact H|apply String.eqb_refl].
Qed.

Lemma skills_append_keys sk c x : map fst (skills_append sk c x) = map fst sk.
Proof.
  induction sk as [|[k l] sk IH]; [reflexivity|].
  cbn [skills_append]. destruct (String.eqb k c); cbn [map fst]; [reflexivity|].
  now rewrite IH.
Qed.

Lemma skills_get_append sk c x c' :
  skills_get (skills_append sk c x) c'
  = if String.eqb c' c
    then (if existsb (String.eqb c) (map fst sk) then skills_get sk c ++ [x] else [])%list
    else skills_get sk c'.
Proof.
  induction sk as [|[k l] sk IH].
  - cbn. now destruct (String.eqb c' c).
  - cbn [skills_append skills_get map fst existsb].
    rewrite (String.eqb_sym c k).
    destruct (String.eqb k c) eqn:E.
    + apply String.eqb_eq in E. subst k. cbn [skills_get orb].
      rewrite (String.eqb_sym c c'). destruct (String.eqb c' c) eqn:E'; reflexivity.
    + cbn [skills_get orb]. rewrite IH.
      destruct (String.eqb c' c) eqn:E'.
      * apply String.eqb_eq in E'. subst c'. now rewrite E.
      * reflexivity.
Qed.

Lemma skills_get_In sk c l :
  NoDup (map fst sk) -> In (c, l) sk -> skills_get sk c = l.
Proof.
  induction sk as [|[k m] sk IH]; intros ND H; [contradiction|].
  cbn [map fst] in ND. inversion ND as [|? ? Hk ND']; subst.
  cbn [skills_get]. destruct H as [H|H].
  - injection H as -> ->. now rewrite String.eqb_refl.
  - destruct (String.eqb k c) eqn:E.
    + apply String.eqb_eq in E. subst k. exfalso. apply Hk.
      change c with (fst (c, l)). now apply in_map.
    + now apply IH.
Qed.

(** The state of the [skills] dict after the names [seen]: its keys are
    those of the mapping, and the list of each category has no duplicate and
    holds exactly the names seen that belong to the category. *)
Definition skills_inv (seen : list string) (sk : list (string * list string)) : Prop :=
  map fst sk = map fst skill_mapping /\
  forall c, In c (map fst skill_mapping) ->
    NoDup (skills_get sk c) /\
    forall x, In x (skills_get sk c) <-> in_category c x /\ In x seen.

Lemma skill_mapping_keys_nodup : NoDup (map fst skill_mapping).
Proof.
  cbn. repeat (constructor; [cbn; intuition discriminate|]).
  constructor.
Qed.

Lemma in_category_mapping c techs x :
  In (c, techs) skill_mapping -> (in_category c x <-> in_techs x techs = true).
Proof.
  intros H. split.
  - intros (techs' & H' & E).
    assert (skills_get skill_mapping c = techs) by (apply skills_get_In; [apply skill_mapping_keys_nodup|exact H]).
    assert (skills_get skill_mapping c = techs') by (apply skills_get_In; [apply skill_mapping_keys_nodup|exact H']).
    congruence.
  - intros E. exists techs. now split.
Qed.

(** One pass over the mapping: the keys stay, every category outside the
    part [m] of the mapping keeps its list, and a category of [m] gets [x]
    appended when [x] belongs to it and is not yet there. *)
Lemma note_skill_fold x m :
  NoDup (map fst m) ->
  forall sk,
    (forall c, In c (map fst m) -> In c (map fst sk)) ->
    let sk' :=
      fold_left
        (fun sk (entry : string * list string) =>
           let (category, techs) := entry in
           if in_techs x techs then
             if existsb (String.eqb x) (skills_get sk category) then sk
             else skills_append sk category x
           else sk) m sk in
    map fst sk' = map fst sk /\
    forall c,
      skills_get sk' c
      = if existsb (fun e : string * list string =>
                      String.eqb (fst e) c && in_techs x (snd e)) m
           && negb (existsb (String.eqb x) (skills_get sk c))
        then (skills_get sk c ++ [x])%list else skills_get sk c.
Proof.
  induction m as [|[k techs] m IH]; intros ND sk Hk; cbn zeta.
  - cbn. split; [reflexivity|]. intros c. reflexivity.
  - cbn [map fst] in ND. inversion ND as [|? ? Hnk ND']; subst.
    cbn [fold_left].
    set (sk1 := if in_techs x techs
                then if existsb (String.eqb x) (skills_get sk k) then sk
                     else skills_append sk k x
                else sk).
    assert (K1 : map fst sk1 = map fst sk).
    { unfold sk1. destruct (in_techs x techs); [|reflexivity].
      destruct (existsb (String.eqb x) (skills_get sk k)); [reflexivity|].
      apply skills_append_keys. }
    assert (Hk1 : forall c, In c (map fst m) -> In c (map fst sk1)).
    { intros c Hc. rewrite K1. apply Hk. now right. }
    destruct (IH ND' sk1 Hk1) as [Kf Gf]. cbn zeta in Kf, Gf.
    split; [now rewrite Kf|].
    intros c. rewrite Gf. cbn [existsb fst snd].
    assert (Hin : existsb (String.eqb k) (map fst sk) = true).
    { apply existsb_eqb_In. apply Hk. now left. }
    destruct (String.eqb k c) eqn:E.
    + apply String.eqb_eq in E. subst c.
      assert (Hm : existsb (fun e : string * list string =>
                              String.eqb (fst e) k && in_techs x (snd e)) m = false).
      { apply not_true_is_false. intros H. apply existsb_exists in H.
        destruct H as ([k' t'] & Hin' & H). cbn [fst snd] in H.
        apply andb_true_iff in H. destruct H as [H _]. apply String.eqb_eq in H. subst k'.
        apply Hnk. change k with (fst (k, t')). now apply in_map. }
      rewrite Hm. cbn [andb orb]. unfold sk1.
      destruct (in_techs x techs); cbn [andb orb]; [|reflexivity].
      destruct (existsb (String.eqb x) (skills_get sk k)) eqn:M; cbn [negb]; [reflexivity|].
      rewrite skills_get_append, String.eqb_refl, Hin. reflexivity.
    + cbn [andb orb].
      assert (G1 : skills_get sk1 c = skills_get sk c).
      { unfold sk1. destruct (in_techs x techs); [|reflexivity].
        destruct (existsb (String.eqb x) (skills_get sk k)); [reflexivity|].
        rewrite skills_get_append. rewrite String.eqb_sym, E. reflexivity. }
      rewrite G1. reflexivity.
Qed.

Lemma existsb_category c x :
  existsb (fun e : string * list string =>
             String.eqb (fst e) c && in_techs x (snd e)) skill_mapping = true
  <-> in_category c x.
Proof.
  rewrite existsb_exists. split.
  - intros ([k techs] & Hin & H). cbn [fst snd] in H. apply andb_true_iff in H.
    destruct H as [E H]. apply String.eqb_eq in E. subst k. exists techs. now split.
  - intros (techs & Hin & H). exists (c, techs). split; [exact Hin|].
    cbn [fst snd]. now rewrite String.eqb_refl.
Qed.

Lemma note_skill_inv x seen sk :
  skills_inv seen sk -> skills_inv (seen ++ [x]) (note_skill x sk).
Proof.
  intros [K I].
  destruct (note_skill_fold x skill_mapping skill_mapping_keys_nodup sk) as [Kf Gf].
  { intros c Hc. now rewrite K. }
  cbn zeta in Kf, Gf. fold (note_skill x sk) in Kf, Gf.
  split; [congruence|].
  intros c Hc. destruct (I c Hc) as [ND M]. rewrite Gf.
  destruct (existsb (fun e : string * list string =>
                       String.eqb (fst e) c && in_techs x (snd e)) skill_mapping) eqn:Ec;
    cbn [andb].
  - apply existsb_category in Ec.
    destruct (existsb (String.eqb x) (skills_get sk c)) eqn:Em; cbn [negb].
    + apply existsb_eqb_In in Em. split; [exact ND|].
      intros y. rewrite M, in_app_iff. split; [tauto|].
      intros [Hy [Hs|[<-|[]]]]; [tauto|]. now apply M.
    + assert (Hn : ~ In x (skills_get sk c)).
      { intros H. apply existsb_eqb_In in H. congruence. }
      split.
      * apply NoDup_app; [exact ND|repeat constructor; intros []|].
        intros y Hy [<-|[]]. contradiction.
      * intros y. rewrite !in_app_iff, M. cbn [In]. split.
        -- intros [H|[<-|[]]]; [tauto|]. tauto.
        -- intros [Hy [Hs|[<-|[]]]]; [tauto|]. right. now left.
  - assert (Hn : ~ in_category c x).
    { intros H. apply existsb_category in H. congruence. }
    split; [exact ND|]. intros y. rewrite M, in_app_iff. cbn [In]. split; [tauto|].
    intros [Hy [Hs|[<-|[]]]]; [tauto|contradiction].
Qed.

Lemma note_skills_inv xs : forall seen sk,
  skills_inv seen sk ->
  skills_inv (seen ++ xs) (fold_left (fun s x => note_skill x s) xs sk).
Proof.
  induction xs as [|x xs IH]; intros seen sk H; cbn [fold_left].
  - now rewrite app_nil_r.
  - replace (seen ++ x :: xs)%list with ((seen ++ [x]) ++ xs)%list
      by (rewrite <- app_assoc; reflexivity).
    apply IH. now apply note_skill_inv.
Qed.

Lemma extract_skills_names repos : forall sk,
  fold_left
    (fun sk repo =>
       let sk1 :=
         fold_left (fun s (item : string * Z) => note_skill (fst item) s)
                   (RepositoryMetrics.languages repo) sk in
       fold_left (fun s framework => note_skill framework s)
                 (RepositoryMetrics.frameworks repo) sk1)
    repos sk
  = fold_left (fun s x => note_skill x s) (flat_map repo_names repos) sk.
Proof.
  induction repos as [|repo repos IH]; intros sk; [reflexivity|].
  cbn [fold_left flat_map]. rewrite IH. unfold repo_names.
  rewrite !fold_left_app. f_equal. f_equal.
  generalize (RepositoryMetrics.languages repo). intros ls. revert sk.
  induction ls as [|l ls IHl]; intros sk; [reflexivity|]. cbn [map fold_left]. apply IHl.
Qed.

Lemma skills_init_inv : skills_inv [] skills_init.
Proof.
  split; [reflexivity|]. intros c Hc.
  cbn in Hc. repeat destruct Hc as [<-|Hc]; try contradiction;
    (split; [constructor|]; intros x; cbn; tauto).
Qed.

(** X6. The skills of a profile: the result always has the six categories
    of the mapping as keys, in their order; the list of a category never
    names a skill twice, and it holds exactly the language and framework
    names of the repositories whose lower-case form is one of the
    technologies of the category. *)
Theorem skills_are_mapped_names :
  forall repos,
    let skills := _extract_skills_from_repos repos in
    map fst skills
    = ["Backend"; "Frontend"; "Machine Learning"; "DevOps"; "Mobile App";
       "Location-based Services"] /\
    forall category members,
      In (category, members) skills ->
      NoDup members /\
      forall x, In x members <->
                in_category category x /\
                exists repo, In repo repos /\ In x (repo_names repo).
Proof.
  intros repos skills.
  assert (I : skills_inv (flat_map repo_names repos) skills).
  { unfold skills, _extract_skills_from_repos. rewrite extract_skills_names.
    apply (note_skills_inv _ [] skills_init skills_init_inv). }
  destruct I as [K I]. split; [exact K|].
  intros category members Hin.
  assert (Hc : In category (map fst skill_mapping)).
  { rewrite <- K. change category with (fst (category, members)). now apply in_map. }
  assert (G : skills_get skills category = members).
  { apply skills_get_In; [rewrite K; apply skill_mapping_keys_nodup|exact Hin]. }
  destruct (I category Hc) as [ND M]. rewrite G in ND, M.
  split; [exact ND|]. intros x. rewrite M, in_flat_map. reflexivity.
Qed.

Lemma skills_are_mapped_names_witness :
  _extract_skills_from_repos
    [RepositoryMetrics.mk [("Python", 1200); ("C++", 40)] ["react"; "python"; "React"]]
  = [ ("Backend", ["Python"; "python"]); ("Frontend", ["react"; "React"]);
      ("Machine Learning", []); ("DevOps", []); ("Mobile App", []);
      ("Location-based Services", []) ] /\
  NoDup ["Python"; "python"] /\
  (In "python" ["Python"; "python"] <->
   in_category "Backend" "python" /\
   exists repo,
     In repo [RepositoryMetrics.mk [("Python", 1200); ("C++", 40)]
                ["react"; "python"; "React"]] /\
     In "python" (repo_names repo)).
Proof.
  split; [reflexivity|].
  destruct (skills_are_mapped_names
              [RepositoryMetrics.mk [("Python", 1200); ("C++", 40)]
                 ["react"; "python"; "React"]]) as [_ H].
  destruct (H "Backend" ["Python"; "python"]) as [ND M].
  - left. reflexivity.
  - split; [exact ND|apply M].
Defined.

(* ================================================================== *)
(** ** Listing the repositories of a user *)

Lemma flat_map_seq_shift {A : Type} (f : nat -> list A) (n : nat) :
  forall a, flat_map f (seq (S a) n) = flat_map (fun i => f (S i)) (seq a n).
Proof.
  induction n as [|n IH]; intros a; [reflexivity|].
  cbn [seq flat_map]. f_equal. apply IH.
Qed.

Lemma get_all_loop_pages {repo : Type} (request : Z -> option (list repo)) (n : nat) :
  forall fuel page repos,
    (forall i, (i < n)%nat -> full_page request (page + Z.of_nat i)) ->
    last_page request (page + Z.of_nat n) ->
    (n < fuel)%nat ->
    get_all_loop request fuel page repos
    = Some (repos ++ flat_map (fun i => page_items request (page + Z.of_nat i))
                              (seq 0 (S n)))%list.
Proof.
  induction n as [|n IH]; intros fuel page repos Hfull Hlast Hfuel.
  - destruct fuel as [|fuel]; [lia|]. cbn [get_all_loop seq flat_map].
    unfold last_page, page_items in *. rewrite Z.add_0_r in *.
    destruct (request page) as [response|]; [|now rewrite !app_nil_r].
    rewrite app_nil_r.
    destruct (Z.eqb_spec (len response) 0) as [E|E].
    + unfold len in E. destruct response; [now rewrite app_nil_r|cbn in E; lia].
    + destruct (Z.ltb_spec (len response) 100); [reflexivity|lia].
  - destruct fuel as [|fuel]; [lia|]. cbn [get_all_loop].
    destruct (Hfull 0%nat ltac:(lia)) as (response & E & Hlen).
    rewrite Z.add_0_r in E. rewrite E.
    destruct (Z.eqb_spec (len response) 0); [lia|].
    destruct (Z.ltb_spec (len response) 100); [lia|].
    rewrite (IH fuel (page + 1) (repos ++ response)%list).
    + f_equal. rewrite <- app_assoc. f_equal.
      change (seq 0 (S (S n))) with (0%nat :: seq 1 (S n)).
      cbn [flat_map]. unfold page_items at 2. rewrite Z.add_0_r, E. f_equal.
      rewrite flat_map_seq_shift.
      apply flat_map_ext. intros i. f_equal. lia.
    + intros i Hi. replace (page + 1 + Z.of_nat i) with (page + Z.of_nat (S i)) by lia.
      apply Hfull. lia.
    + replace (page + 1 + Z.of_nat n) with (page + Z.of_nat (S n)) by lia. exact Hlast.
    + lia.
Qed.

Lemma get_all_loop_endless {repo : Type} (request : Z -> option (list repo)) :
  forall fuel page repos,
    (forall i, full_page request (page + Z.of_nat i)) ->
    get_all_loop request fuel page repos = None.
Proof.
  induction fuel as [|fuel IH]; intros page repos Hfull; [reflexivity|].
  cbn [get_all_loop].
  destruct (Hfull 0%nat) as (response & E & Hlen). rewrite Z.add_0_r in E. rewrite E.
  destruct (Z.eqb_spec (len response) 0); [lia|].
  destruct (Z.ltb_spec (len response) 100); [lia|].
  apply IH. intros i. replace (page + 1 + Z.of_nat i) with (page + Z.of_nat (S i)) by lia.
  apply Hfull.
Qed.

(** X7. The repositories of a user are fetched page by page, from page 1:
    when the pages before page [n] each hold at least 100 repositories
    and page [n] holds fewer, or is empty, or its request fails, the loop
    makes [n] requests and returns the repositories of the pages [1..n]
    in order (a failed request contributing nothing, without an error);
    and when every page holds at least 100 repositories the loop never
    ends. *)
Theorem repositories_page_by_page :
  forall (repo : Type) (request : Z -> option (list repo)),
    (forall n fuel,
       (1 <= n)%nat ->
       (forall i, (1 <= i < n)%nat -> full_page request (Z.of_nat i)) ->
       last_page request (Z.of_nat n) ->
       (n <= fuel)%nat ->
       _get_all_repositories request fuel
       = Some (flat_map (fun i => page_items request (Z.of_nat i)) (seq 1 n)) /\
       _get_all_repositories request (n - 1) = None) /\
    ((forall i, (1 <= i)%nat -> full_page request (Z.of_nat i)) ->
     forall fuel, _get_all_repositories request fuel = None).
Proof.
  intros repo request. split.
  - intros n fuel Hn Hfull Hlast Hfuel. unfold _get_all_repositories.
    destruct n as [|n]; [lia|]. split.
    + rewrite (get_all_loop_pages request n fuel 1 []).
      * cbn [app]. f_equal. rewrite flat_map_seq_shift.
        apply flat_map_ext. intros i. f_equal. lia.
      * intros i Hi. replace (1 + Z.of_nat i) with (Z.of_nat (S i)) by lia.
        apply Hfull. lia.
      * replace (1 + Z.of_nat n) with (Z.of_nat (S n)) by lia. exact Hlast.
      * lia.
    + replace (S n - 1)%nat with n by lia.
      clear Hlast Hfuel Hn. revert Hfull. generalize (@nil repo).
      change 1 with (Z.of_nat 1) at 1.
      assert (G : forall m page repos,
                 (forall i, (i < m)%nat -> full_page request (page + Z.of_nat i)) ->
                 get_all_loop request m page repos = None).
      { induction m as [|m IH]; intros page repos Hf; [reflexivity|].
        cbn [get_all_loop].
        destruct (Hf 0%nat ltac:(lia)) as (response & E & Hlen).
        rewrite Z.add_0_r in E. rewrite E.
        destruct (Z.eqb_spec (len response) 0); [lia|].
        destruct (Z.ltb_spec (len response) 100); [lia|].
        apply IH. intros i Hi.
        replace (page + 1 + Z.of_nat i) with (page + Z.of_nat (S i)) by lia.
        apply Hf. lia. }
      intros repos Hfull. apply G. intros i Hi.
      replace (Z.of_nat 1 + Z.of_nat i) with (Z.of_nat (S i)) by lia. apply Hfull. lia.
  - intros Hfull fuel. unfold _get_all_repositories.
    apply get_all_loop_endless. intros i.
    replace (1 + Z.of_nat i) with (Z.of_nat (S i)) by lia. apply Hfull. lia.
Qed.

Lemma repositories_page_by_page_witness :
  _get_all_repositories two_pages 5
  = Some (repeat 7%nat 100 ++ [8%nat; 9%nat; 10%nat])%list /\
  _get_all_repositories two_pages 1 = None.
Proof.
  destruct (proj1 (repositories_page_by_page nat two_pages) 2%nat 5%nat) as [H1 H2].
  - lia.
  - intros i Hi. assert (i = 1%nat) as -> by lia.
    exists (repeat 7%nat 100). split; [reflexivity|vm_compute; discriminate].
  - vm_compute. reflexivity.
  - lia.
  - split; [exact H1|exact H2].
Defined.

(* ================================================================== *)
(** ** Framework detection *)

Section FrameworkFacts.

Variable exists_at : string -> bool.
Variable walked_files : list (list string).

Lemma scan_indicators_In framework indicators x :
  In x (scan_indicators exists_at walked_files framework indicators)
  <-> x = framework /\ existsb (indicator_hit exists_at walked_files) indicators = true.
Proof.
  induction indicators as [|indicator rest IH]; cbn [scan_indicators existsb].
  - split; [intros []|intros [_ H]; discriminate].
  - unfold indicator_hit at 1.
    destruct (Str.contains "*" indicator).
    + rewrite in_app_iff, IH.
      destruct (pattern_found walked_files (remove_char "*" indicator)); cbn [In orb].
      * split; [intros [[<-|[]]|[-> _]]; now split|intros [-> _]; left; now left].
      * tauto.
    + destruct (exists_at indicator); cbn [In orb]; [|exact IH].
      split; [intros [<-|[]]; now split|intros [-> _]; now left].
Qed.

Lemma found_frameworks_In table x :
  In x (found_frameworks exists_at walked_files table)
  <-> exists indicators,
        In (x, indicators) table /\
        existsb (indicator_hit exists_at walked_files) indicators = true.
Proof.
  unfold found_frameworks. rewrite in_flat_map. split.
  - intros ([fw inds] & Hin & H). cbn [fst snd] in H.
    apply scan_indicators_In in H. destruct H as [-> H]. now exists inds.
  - intros (inds & Hin & H). exists (x, inds). split; [exact Hin|].
    cbn [fst snd]. apply scan_indicators_In. now split.
Qed.

Lemma list_of_set_exists xs : exists result, list_of_set xs result.
Proof.
  exists (nodup string_dec xs). split; [apply NoDup_nodup|].
  intros x. apply nodup_In.
Qed.

Lemma list_of_set_length table result :
  list_of_set (found_frameworks exists_at walked_files table) result ->
  (List.length result <= List.length table)%nat.
Proof.
  intros [ND M]. rewrite <- (length_map fst table).
  apply NoDup_incl_length; [exact ND|].
  intros x Hx. apply M, found_frameworks_In in Hx. destruct Hx as (inds & Hin & _).
  change x with (fst (x, inds)). now apply in_map.
Qed.

End FrameworkFacts.

Ltac in_table := cbn [In]; repeat first [left; reflexivity | right].

(** X8. Framework detection, in both analyzers: a result always exists, it
    names no framework twice and at most 15 (basic) or 23 (advanced) of
    them, and a framework is reported exactly when one of its indicators
    counts: a path that exists under the repository, or, for an indicator
    with a star, a file of some directory of the walk whose name contains
    the indicator without its stars. *)
Theorem frameworks_by_indicators :
  forall (exists_at : string -> bool) (walked_files : list (list string)),
    (exists result, _extract_frameworks exists_at walked_files result) /\
    (exists result, _extract_frameworks_advanced exists_at walked_files result) /\
    (forall result,
       _extract_frameworks exists_at walked_files result ->
       NoDup result /\ (List.length result <= 15)%nat /\
       forall framework,
         In framework result <->
         exists indicators,
           In (framework, indicators) framework_indicators /\
           exists indicator,
             In indicator indicators /\
             indicator_hit exists_at walked_files indicator = true) /\
    (forall result,
       _extract_frameworks_advanced exists_at walked_files result ->
       NoDup result /\ (List.length result <= 23)%nat /\
       forall framework,
         In framework result <->
         exists indicators,
           In (framework, indicators) framework_indicators_advanced /\
           exists indicator,
             In indicator indicators /\
             indicator_hit exists_at walked_files indicator = true).
Proof.
  intros exists_at walked_files.
  split; [apply list_of_set_exists|]. split; [apply list_of_set_exists|].
  split; intros result H; (split; [apply H|]);
    (split; [apply (list_of_set_length _ _ _ _ H)|]);
    intros framework; destruct H as [_ M]; rewrite M, found_frameworks_In;
    split; intros (inds & Hin & Hhit); exists inds; (split; [exact Hin|]).
  - apply existsb_exists in Hhit. exact Hhit.
  - apply existsb_exists. exact Hhit.
  - apply existsb_exists in Hhit. exact Hhit.
  - apply existsb_exists. exact Hhit.
Qed.

Lemma frameworks_by_indicators_witness :
  NoDup ["docker"; "terraform"] /\ (List.length ["docker"; "terraform"] <= 23)%nat /\
  forall framework,
    In framework ["docker"; "terraform"] <->
    exists indicators,
      In (framework, indicators) framework_indicators_advanced /\
      exists indicator,
        In indicator indicators /\
        indicator_hit (path_exists [File "Dockerfile" None; File "main.tf" None])
                      [["Dockerfile"; "main.tf"]] indicator = true.
Proof.
  apply (proj2 (proj2 (proj2 (frameworks_by_indicators
           (path_exists [File "Dockerfile" None; File "main.tf" None])
           [["Dockerfile"; "main.tf"]])))).
  split.
  - repeat (constructor; [cbn; intuition discriminate|]). constructor.
  - intros x. vm_compute. tauto.
Defined.

(** X9. One file stands for many frameworks, whatever it contains: in the
    advanced analyzer a [requirements.txt] under the repository reports
    flask, fastapi, tensorflow, pytorch, pandas, numpy, selenium and
    pytest, all eight, and a [package.json] reports react, jest and
    cypress; in the basic analyzer tensorflow, pytorch, pandas and numpy
    are each reported exactly when [requirements.txt] exists or some file
    of the walk has [.py] in its name, so all four or none. *)
Theorem one_file_many_frameworks :
  forall (exists_at : string -> bool) (walked_files : list (list string)),
    (forall result,
       _extract_frameworks_advanced exists_at walked_files result ->
       (exists_at "requirements.txt" = true ->
        forall framework,
          In framework ["flask"; "fastapi"; "tensorflow"; "pytorch"; "pandas"; "numpy";
                        "selenium"; "pytest"] ->
          In framework result) /\
       (exists_at "package.json" = true ->
        forall framework,
          In framework ["react"; "jest"; "cypress"] -> In framework result)) /\
    (forall result,
       _extract_frameworks exists_at walked_files result ->
       forall framework,
         In framework ["tensorflow"; "pytorch"; "pandas"; "numpy"] ->
         (In framework result <->
          exists_at "requirements.txt" = true \/
          pattern_found walked_files ".py" = true)).
Proof.
  intros exists_at walked_files. split.
  - intros result [_ M]. split; intros E framework Hf; apply M, found_frameworks_In;
      cbn [In] in Hf;
      repeat (destruct Hf as [<-|Hf];
              [eexists; split; [in_table|]; cbn [existsb]; unfold indicator_hit;
               cbn [Str.contains prefix]; rewrite ?E, ?orb_true_r; reflexivity|]);
      contradiction.
  - intros result [_ M] framework Hf. rewrite M, found_frameworks_In.
    assert (T : forall inds,
               In (framework, inds) framework_indicators ->
               inds = ["requirements.txt"; "*.py"]).
    { intros inds Hin. cbn [In] in Hf.
      repeat (destruct Hf as [<-|Hf];
              [cbn [In framework_indicators] in Hin;
               repeat (destruct Hin as [Hin|Hin]; [try discriminate; congruence|]);
               contradiction|]).
      contradiction. }
    assert (Hhit : existsb (indicator_hit exists_at walked_files) ["requirements.txt"; "*.py"]
                   = exists_at "requirements.txt" || pattern_found walked_files ".py").
    { cbn [existsb]. unfold indicator_hit. now rewrite orb_false_r. }
    split.
    + intros (inds & Hin & H). rewrite (T inds Hin), Hhit in H.
      now apply orb_true_iff in H.
    + intros H. exists ["requirements.txt"; "*.py"]. split.
      * cbn [In] in Hf. repeat (destruct Hf as [<-|Hf]; [in_table|]). contradiction.
      * rewrite Hhit. now apply orb_true_iff.
Qed.

Lemma one_file_many_frameworks_witness :
  In "pytest" ["flask"; "fastapi"; "tensorflow"; "pytorch"; "pandas"; "numpy";
               "selenium"; "pytest"] /\
  (In "numpy" ["numpy"; "pandas"; "pytorch"; "tensorflow"] <->
   path_exists [File "notes.pyc" None] "requirements.txt" = true \/
   pattern_found [["notes.pyc"]] ".py" = true).
Proof.
  split.
  - apply (proj1 (proj1 (one_file_many_frameworks
             (path_exists [File "requirements.txt" (Some "requests==2.31.0")])
             [["requirements.txt"]])
             ["flask"; "fastapi"; "tensorflow"; "pytorch"; "pandas"; "numpy";
              "selenium"; "pytest"]
             ltac:(split; [repeat (constructor; [cbn; intuition discriminate|]); constructor
                          |intros x; vm_compute; tauto]))
             ltac:(reflexivity)).
    in_table.
  - apply (proj2 (one_file_many_frameworks (path_exists [File "notes.pyc" None])
                    [["notes.pyc"]])
             ["numpy"; "pandas"; "pytorch"; "tensorflow"]).
    + split; [repeat (constructor; [cbn; intuition discriminate|]); constructor|].
      intros x. vm_compute. tauto.
    + in_table.
Defined.

(* ================================================================== *)
(** ** Dependencies of a [requirements.txt] *)



















(* ================================================================== *)
(** ** File structure *)

Lemma last_dot_prefix s e : last_dot s = Some e -> prefix "." e = true.
Proof.
  induction s as [|c s IH]; [discriminate|]. cbn [last_dot].
  destruct (last_dot s) as [e'|].
  - intros H. injection H as <-. now apply IH.
  - destruct (Ascii.eqb c ".") eqn:E; [|discriminate].
    intros H. injection H as <-. apply Ascii.eqb_eq in E. subst c.
    cbn [prefix]. destruct (ascii_dec "." "."); [now destruct s|congruence].
Qed.

Lemma splitext_ext_dot p :
  nonempty (splitext_ext p) = true <-> prefix "." (splitext_ext p) = true.
Proof.
  unfold splitext_ext. destruct (last_dot (basename p)) as [e|] eqn:E.
  - destruct (String.length (lstrip_dots (basename p)) <=? String.length e)%nat.
    + split; discriminate.
    + pose proof (last_dot_prefix _ _ E) as P. split; [now intros _|].
      intros _. destruct e; [discriminate|reflexivity].
  - split; discriminate.
Qed.

Lemma remove_sub_skip_all old s : remove_sub old (String.length s) s = EmptyString.
Proof. induction s as [|c s IH]; [reflexivity|exact IH]. Qed.

Lemma prefix_refl s : prefix s s = true.
Proof. apply prefix_iff. exists EmptyString. induction s; cbn; congruence. Qed.

Lemma remove_sub_self s : remove_sub s 0 s = EmptyString.
Proof.
  destruct s as [|c s]; [reflexivity|].
  cbn [remove_sub nonempty andb]. rewrite prefix_refl.
  cbn [String.length]. rewrite Nat.sub_succ, Nat.sub_0_r. apply remove_sub_skip_all.
Qed.

Lemma fold_max_nonneg {A : Type} (f : A -> Z) xs : forall m,
  0 <= m -> 0 <= fold_left (fun m x => Z.max m (f x)) xs m.
Proof.
  induction xs as [|x xs IH]; intros m Hm; [exact Hm|]. cbn [fold_left]. apply IH. lia.
Qed.

Lemma dict_incr_keys d k x :
  In x (map fst (dict_incr d k)) <-> x = k \/ In x (map fst d).
Proof.
  induction d as [|[k' v] d IH]; cbn [dict_incr map fst In].
  - intuition.
  - destruct (String.eqb k' k) eqn:E; cbn [map fst In].
    + apply String.eqb_eq in E. subst k'. intuition.
    + rewrite IH. intuition.
Qed.

Lemma dict_incr_nodup d k : NoDup (map fst d) -> NoDup (map fst (dict_incr d k)).
Proof.
  induction d as [|[k' v] d IH]; intros ND; cbn [dict_incr].
  - cbn. constructor; [intros []|constructor].
  - cbn [map fst] in ND. inversion ND as [|? ? Hn ND']; subst.
    destruct (String.eqb k' k) eqn:E; cbn [map fst].
    + constructor; assumption.
    + constructor; [|now apply IH].
      intros H. apply dict_incr_keys in H. destruct H as [->|H]; [|contradiction].
      now rewrite String.eqb_refl in E.
Qed.

Lemma dict_incr_get d k x :
  dict_get (dict_incr d k) x 0 = dict_get d x 0 + (if String.eqb k x then 1 else 0).
Proof.
  induction d as [|[k' v] d IH]; cbn [dict_incr dict_get].
  - destruct (String.eqb k x); reflexivity.
  - destruct (String.eqb k' k) eqn:E; cbn [dict_get].
    + apply String.eqb_eq in E. subst k'. destruct (String.eqb k x) eqn:E'; [reflexivity|lia].
    + destruct (String.eqb k' x) eqn:E'; [|exact IH].
      destruct (String.eqb k x) eqn:E''; [|lia].
      apply String.eqb_eq in E', E''. subst. now rewrite String.eqb_refl in E.
Qed.

Lemma dict_incr_positive d k :
  (forall x v, In (x, v) d -> 1 <= v) -> forall x v, In (x, v) (dict_incr d k) -> 1 <= v.
Proof.
  induction d as [|[k' v'] d IH]; intros H x v Hin; cbn [dict_incr] in Hin.
  - destruct Hin as [E|[]]. injection E as _ <-. lia.
  - destruct (String.eqb k' k).
    + destruct Hin as [E|Hin]; [|apply (H x v); now right].
      injection E as _ <-. specialize (H k' v' (or_introl eq_refl)). lia.
    + destruct Hin as [E|Hin]; [apply (H x v); now left|].
      apply (IH (fun x v Hx => H x v (or_intror Hx)) x v Hin).
Qed.

Lemma dict_get_In d k v : NoDup (map fst d) -> In (k, v) d -> dict_get d k 0 = v.
Proof.
  induction d as [|[k' v'] d IH]; intros ND H; [contradiction|].
  cbn [map fst] in ND. inversion ND as [|? ? Hn ND']; subst. cbn [dict_get].
  destruct H as [H|H].
  - injection H as -> ->. now rewrite String.eqb_refl.
  - destruct (String.eqb k' k) eqn:E; [|now apply IH].
    apply String.eqb_eq in E. subst k'. exfalso. apply Hn.
    change k with (fst (k, v)). now apply in_map.
Qed.

Lemma In_dict_get d k : In k (map fst d) -> In (k, dict_get d k 0) d.
Proof.
  induction d as [|[k' v'] d IH]; intros H; [contradiction|]. cbn [dict_get].
  destruct (String.eqb k' k) eqn:E.
  - apply String.eqb_eq in E. subst k'. now left.
  - right. apply IH. destruct H as [H|H]; [|exact H].
    cbn in H. subst k'. now rewrite String.eqb_refl in E.
Qed.

Lemma histogram ks : forall d,
  NoDup (map fst d) ->
  (forall x v, In (x, v) d -> 1 <= v) ->
  let d' := fold_left dict_incr ks d in
  NoDup (map fst d') /\
  (forall x v, In (x, v) d' -> 1 <= v) /\
  (forall x, In x (map fst d') <-> In x (map fst d) \/ In x ks) /\
  (forall x, dict_get d' x 0 = dict_get d x 0 + occurrences x ks).
Proof.
  induction ks as [|k ks IH]; intros d ND Pos; cbn zeta.
  - cbn [fold_left]. split; [exact ND|]. split; [exact Pos|]. split.
    + intros x. cbn. tauto.
    + intros x. unfold occurrences, len. cbn. lia.
  - cbn [fold_left].
    destruct (IH (dict_incr d k) (dict_incr_nodup d k ND) (dict_incr_positive d k Pos))
      as (ND' & Pos' & K & G). cbn zeta in ND', Pos', K, G.
    split; [exact ND'|]. split; [exact Pos'|]. split.
    + intros x. rewrite K, dict_incr_keys. cbn [In]. intuition.
    + intros x. rewrite G, dict_incr_get. unfold occurrences, len. cbn [filter].
      rewrite (String.eqb_sym x k).
      destruct (String.eqb k x); cbn [List.length]; lia.
Qed.

Lemma occurrences_pos x ks : 1 <= occurrences x ks <-> In x ks.
Proof.
  unfold occurrences, len. split.
  - intros H. destruct (filter (String.eqb x) ks) as [|y ys] eqn:E; [cbn in H; lia|].
    assert (Hy : In y (filter (String.eqb x) ks)) by (rewrite E; now left).
    apply filter_In in Hy. destruct Hy as [Hy Ey]. apply String.eqb_eq in Ey. now subst.
  - intros H.
    assert (Hx : In x (filter (String.eqb x) ks)).
    { apply filter_In. split; [exact H|apply String.eqb_refl]. }
    destruct (filter (String.eqb x) ks); [contradiction|]. cbn [List.length]. lia.
Qed.

Lemma occurrences_filter_map {A : Type} (f : A -> string) ext (l : list A) :
  nonempty ext = true ->
  occurrences ext (filter nonempty (map f l))
  = len (filter (fun x => String.eqb (f x) ext) l).
Proof.
  intros Ne. unfold occurrences, len. f_equal.
  induction l as [|a l IH]; [reflexivity|]. cbn [map filter].
  destruct (String.eqb (f a) ext) eqn:E.
  - apply String.eqb_eq in E. rewrite E, Ne. cbn [filter]. rewrite String.eqb_refl.
    cbn [List.length]. now rewrite IH.
  - destruct (nonempty (f a)); [|exact IH]. cbn [filter].
    rewrite String.eqb_sym, E. exact IH.
Qed.

Lemma organization_range root : 0 <= organization_indicators root <= 4.
Proof.
  unfold organization_indicators.
  destruct (path_exists root "src"), (path_exists root "tests"),
    (path_exists root "docs"), (path_exists root "config"); lia.
Qed.

(** X12. The file structure of a clone: [directories] is always empty;
    the organization score is 25 for each of [src], [tests], [docs] and
    [config] that exists under the root, so one of 0, 25, 50, 75, 100, and
    100 exactly when all four exist; the depth is never negative, and 0
    when the root holds no directory that is walked; and
    [files_by_extension] has each extension once, an entry [(ext, n)] being
    there exactly when [ext] starts with a dot and [n >= 1] is the number
    of files of the walk whose extension, as [os.path.splitext] gives it,
    is [ext]. *)
Theorem file_structure_facts :
  forall repo_dir root,
    let s := _analyze_file_structure repo_dir root in
    FileStructure.directories s = [] /\
    FileStructure.organization_score s = 25 * organization_indicators root /\
    0 <= organization_indicators root <= 4 /\
    (FileStructure.organization_score s = 100 <->
     path_exists root "src" = true /\ path_exists root "tests" = true /\
     path_exists root "docs" = true /\ path_exists root "config" = true) /\
    0 <= FileStructure.depth s /\
    ((forall n children, In (Dir n children) root -> Str.startswith n "." = true) ->
     FileStructure.depth s = 0) /\
    NoDup (map fst (FileStructure.files_by_extension s)) /\
    (forall ext n,
       In (ext, n) (FileStructure.files_by_extension s) <->
       prefix "." ext = true /\ 1 <= n /\
       n = len (filter (fun item : string * string * option string =>
                          String.eqb (splitext_ext (snd (fst item))) ext)
                       (os_walk repo_dir root))).
Proof.
  intros repo_dir root s. unfold s, _analyze_file_structure.
  cbn [FileStructure.directories FileStructure.organization_score FileStructure.depth
       FileStructure.files_by_extension].
  pose proof (organization_range root) as R.
  split; [reflexivity|]. split; [lia|]. split; [exact R|]. split.
  { unfold organization_indicators in *.
    destruct (path_exists root "src"), (path_exists root "tests"),
      (path_exists root "docs"), (path_exists root "config");
      cbn; split; intros H; try lia; try (repeat split; reflexivity);
      try (destruct H as (? & ? & ? & ?); discriminate). }
  split; [apply fold_max_nonneg; lia|]. split.
  { intros Hd. unfold walk_roots.
    assert (E : flat_map (dir_roots repo_dir) root = []).
    { clear -Hd. induction root as [|e root IH]; [reflexivity|]. cbn [flat_map].
      rewrite IH by (intros n ch H; apply (Hd n ch); now right).
      destruct e as [n c|n ch|n t]; cbn [dir_roots]; [reflexivity| |reflexivity].
      rewrite (Hd n ch (or_introl eq_refl)). reflexivity. }
    rewrite E. cbn [fold_left]. rewrite remove_sub_self. reflexivity. }
  destruct (histogram (walked_extensions repo_dir root) [] ltac:(constructor)
              ltac:(intros x v []))
    as (ND & Pos & K & G). cbn zeta in ND, Pos, K, G.
  split; [exact ND|].
  intros ext n.
  assert (Hk : In ext (walked_extensions repo_dir root) -> prefix "." ext = true).
  { unfold walked_extensions. intros H. apply filter_In in H. destruct H as [H Ne].
    apply in_map_iff in H. destruct H as (item & <- & _). now apply splitext_ext_dot. }
  assert (Hocc : nonempty ext = true ->
                 occurrences ext (walked_extensions repo_dir root)
                 = len (filter (fun item : string * string * option string =>
                                  String.eqb (splitext_ext (snd (fst item))) ext)
                               (os_walk repo_dir root))).
  { intros Ne. unfold walked_extensions. now apply occurrences_filter_map. }
  split.
  - intros Hin.
    assert (Hkey : In ext (walked_extensions repo_dir root)).
    { assert (H : In ext (map fst (fold_left dict_incr (walked_extensions repo_dir root) [])))
        by (change ext with (fst (ext, n)); now apply in_map).
      apply K in H. destruct H as [[]|H]. exact H. }
    pose proof (Hk Hkey) as P. split; [exact P|]. split; [now apply (Pos ext n)|].
    rewrite <- Hocc by (destruct ext; [discriminate|reflexivity]).
    rewrite <- (dict_get_In _ _ _ ND Hin), G. cbn [dict_get]. lia.
  - intros (P & Hn & En).
    assert (Ne : nonempty ext = true) by (destruct ext; [discriminate|reflexivity]).
    rewrite <- (Hocc Ne) in En.
    assert (Hkey : In ext (walked_extensions repo_dir root)).
    { apply occurrences_pos. lia. }
    assert (H : In ext (map fst (fold_left dict_incr (walked_extensions repo_dir root) []))).
    { apply K. now right. }
    apply In_dict_get in H. rewrite G in H. cbn [dict_get] in H.
    replace n with (0 + occurrences ext (walked_extensions repo_dir root)) by lia.
    exact H.
Qed.

Lemma file_structure_facts_witness :
  _analyze_file_structure "/tmp/repo"
    [Dir ".git" [File "config" None]; Dir "src" []; File "a.py" None;
     File "b.py" None; File ".gitignore" None; File "Makefile" None;
     File "notes.tar.gz" None]
  = FileStructure.mk [] [(".py", 2); (".gz", 1)] 1 25 /\
  FileStructure.depth
    (_analyze_file_structure "/tmp/repo" [Dir ".git" [Dir "hooks" []]; File "a.py" None])
  = 0.
Proof.
  split; [reflexivity|].
  apply (proj1 (proj2 (proj2 (proj2 (proj2 (proj2
           (file_structure_facts "/tmp/repo"
              [Dir ".git" [Dir "hooks" []]; File "a.py" None]))))))).
  intros n children [H|[H|[]]]; [|discriminate].
  injection H as <- _. reflexivity.
Defined.
